(** * minor-planet-painter: epoch decoding, Kepler solving, propagation and
      family classification

    A shallow embedding of [minor_planet_painter/common.py] and of the
    computational part of [scripts/plot_sssb_xy.py].

    Conventions of the embedding:
    - a Python [float] and a numpy [float64] are IEEE binary64 numbers, here
      Rocq's primitive [float] with its specification [Prim2SF];
    - a Python [int] is a [Z];
    - a Python [str] is a [string] whose characters stand for ASCII code
      points (MPCORB.DAT is an ASCII file): [Py.isascii] says that a string
      holds no other character, and the statements about strings of any
      content that depend on the case or the whitespace of characters carry
      it as a hypothesis;
    - a numpy array is a [list], arithmetic on arrays is elementwise;
    - a raised exception is the [Raise] branch of [result]. *)

From Stdlib Require Import ZArith List Bool Ascii String Lia Floats.
Import ListNotations.

Set Warnings "-inexact-float".

(** ** Exceptions and the error monad *)

Inductive exn : Type :=
| ValueError (msg : string)
| IndexError (msg : string)
| OverflowError (msg : string).

Inductive result (A : Type) : Type :=
| Ok (a : A)
| Raise (e : exn).

Arguments Ok {A} a.
Arguments Raise {A} e.

Definition bind {A B : Type} (r : result A) (k : A -> result B) : result B :=
  match r with
  | Ok a => k a
  | Raise e => Raise e
  end.

Notation "x <- r ;; k" := (bind r (fun x => k))
  (at level 61, r at next level, right associativity).
Notation "' p <- r ;; k" := (bind r (fun p => k))
  (at level 61, p pattern, r at next level, right associativity).

Definition is_ok {A : Type} (r : result A) : bool :=
  match r with Ok _ => true | Raise _ => false end.

Definition is_ValueError {A : Type} (r : result A) : bool :=
  match r with Raise (ValueError _) => true | _ => false end.

(** [[f(x) for x in xs]]: evaluation stops at the first exception. *)
Fixpoint list_comprehension {A B : Type} (f : A -> result B) (xs : list A)
  : result (list B) :=
  match xs with
  | [] => Ok []
  | x :: xs' =>
      y <- f x ;;
      ys <- list_comprehension f xs' ;;
      Ok (y :: ys)
  end.

(** ** Python built-ins used by the sources *)

Module Py.

Open Scope Z_scope.

Definition ord (c : ascii) : Z := Z.of_N (N_of_ascii c).

Definition chr (n : Z) : ascii := ascii_of_N (Z.to_N n).

(** [lo <= c <= hi] on one-character strings. *)
Definition between (lo c hi : ascii) : bool :=
  (ord lo <=? ord c) && (ord c <=? ord hi).

Definition isdigit (c : ascii) : bool := between "0" c "9".

(** [s.isascii()]: every character is below 128.  The functions on
    characters and strings below are those of Python on such strings. *)
Definition isascii_char (c : ascii) : bool := ord c <? 128.

Fixpoint isascii (s : string) : bool :=
  match s with
  | EmptyString => true
  | String c s' => isascii_char c && isascii s'
  end.

(** ASCII characters for which [str.isspace] holds. *)
Definition isspace (c : ascii) : bool :=
  between "009" c "013" || between "028" c " ".

(** The ASCII characters that [int] and [float] skip at both ends of their
    argument: those of C's [isspace], which leaves out the separators 28 to
    31. *)
Definition Py_ISSPACE (c : ascii) : bool :=
  between "009" c "013" || Ascii.eqb c " ".

Definition upper_char (c : ascii) : ascii :=
  if between "a" c "z" then chr (ord c - 32) else c.

Definition lower_char (c : ascii) : ascii :=
  if between "A" c "Z" then chr (ord c + 32) else c.

(** [s.upper()] *)
Fixpoint upper (s : string) : string :=
  match s with
  | EmptyString => EmptyString
  | String c s' => String (upper_char c) (upper s')
  end.

Fixpoint lower (s : string) : string :=
  match s with
  | EmptyString => EmptyString
  | String c s' => String (lower_char c) (lower s')
  end.

Fixpoint lstrip (s : string) : string :=
  match s with
  | EmptyString => EmptyString
  | String c s' => if isspace c then lstrip s' else s
  end.

Fixpoint rstrip (s : string) : string :=
  match s with
  | EmptyString => EmptyString
  | String c s' =>
      match rstrip s' with
      | EmptyString => if isspace c then EmptyString else String c EmptyString
      | r => String c r
      end
  end.

(** [s.strip()] *)
Definition strip (s : string) : string := rstrip (lstrip s).

Fixpoint lskip (s : string) : string :=
  match s with
  | EmptyString => EmptyString
  | String c s' => if Py_ISSPACE c then lskip s' else s
  end.

Fixpoint rskip (s : string) : string :=
  match s with
  | EmptyString => EmptyString
  | String c s' =>
      match rskip s' with
      | EmptyString => if Py_ISSPACE c then EmptyString else String c EmptyString
      | r => String c r
      end
  end.

(** What [int] and [float] parse: the argument without the spaces at its
    ends. *)
Definition skip_spaces (s : string) : string := rskip (lskip s).

(** [c in s] for a one-character [c]. *)
Fixpoint contains (c : ascii) (s : string) : bool :=
  match s with
  | EmptyString => false
  | String d s' => Ascii.eqb c d || contains c s'
  end.

(** [s.split(sep)] for a one-character separator. *)
Fixpoint split (sep : ascii) (s : string) : list string :=
  match s with
  | EmptyString => [EmptyString]
  | String c s' =>
      if Ascii.eqb c sep then EmptyString :: split sep s'
      else match split sep s' with
           | [] => [String c EmptyString]
           | w :: ws => String c w :: ws
           end
  end.

(** [s[i]] for [i >= 0]. *)
Definition index (s : string) (i : nat) : result ascii :=
  match String.get i s with
  | Some c => Ok c
  | None => Raise (IndexError "string index out of range")
  end.

(** [s[i:j]] for [0 <= i <= j]; slices never raise. *)
Definition slice (s : string) (i j : nat) : string :=
  String.substring i (j - i) s.

(** Digits separated by single underscores, as [int] and [float] accept them:
    [digit (["_"] digit)*].  Returns the digits read and the rest. *)
Fixpoint digitpart (s : string) (seen : bool) : list Z * string :=
  match s with
  | String c s' =>
      if isdigit c then
        let '(ds, rest) := digitpart s' true in ((ord c - ord "0") :: ds, rest)
      else if Ascii.eqb c "_" && seen then
        match s' with
        | String d _ =>
            if isdigit d then digitpart s' false else ([], s)
        | EmptyString => ([], s)
        end
      else ([], s)
  | EmptyString => ([], s)
  end.

Definition decimal (ds : list Z) : Z :=
  fold_left (fun acc d => acc * 10 + d) ds 0.

(** An optional sign: [true] for ["-"]. *)
Definition sign (s : string) : bool * string :=
  match s with
  | String c s' =>
      if Ascii.eqb c "-" then (true, s')
      else if Ascii.eqb c "+" then (false, s')
      else (false, s)
  | EmptyString => (false, s)
  end.

(** [int(s)], base 10. *)
Definition int (s : string) : result Z :=
  let '(neg, body) := sign (skip_spaces s) in
  match digitpart body false with
  | (d :: ds, EmptyString) =>
      Ok (if neg then - decimal (d :: ds) else decimal (d :: ds))
  | _ => Raise (ValueError "invalid literal for int() with base 10")
  end.

(** *** [float] *)

Open Scope float_scope.

Definition inf : float := infinity.

(** The binary64 number nearest to [(-1)^neg * n * 10^k] (ties to even), the
    value [float] gives a decimal literal.  For [k < 0] the quotient is
    taken with enough bits for the rounding to be correct. *)
Definition float_of_decimal (neg : bool) (n k : Z) : float :=
  SF2Prim
    match n with
    | Z0 => S754_zero neg
    | Zneg _ => S754_nan
    | Zpos p =>
        if (0 <=? k)%Z then
          binary_normalize prec emax (cond_Zopp neg (n * 10 ^ k)) 0 neg
        else
          let '(q, e, l) := SFdiv_core_binary prec emax n 0 (10 ^ (- k)) 0 in
          binary_round_aux prec emax neg q e l
    end.

(** [float(i)] for an [int]: the nearest binary64 number. *)
Definition float_of_int (i : Z) : float :=
  SF2Prim (binary_normalize prec emax i 0 false).

(** The exponent part of a decimal literal, [("e"|"E") ["+"|"-"] digitpart],
    which has to reach the end of the string. *)
Definition exponent (s : string) : option Z :=
  match s with
  | EmptyString => Some 0%Z
  | String c s' =>
      if Ascii.eqb (lower_char c) "e" then
        let '(neg, body) := sign s' in
        match digitpart body false with
        | (d :: ds, EmptyString) =>
            Some (if neg then (- decimal (d :: ds))%Z else decimal (d :: ds))
        | _ => None
        end
      else None
  end.

(** [float(s)] for a string: the spaces at both ends are skipped, then an
    optional sign and either [inf], [infinity], [nan] (in any case) or a
    decimal literal with optional fraction and exponent. *)
Definition float_of_str (s : string) : result float :=
  let '(neg, body) := sign (skip_spaces s) in
  let low := lower body in
  if String.eqb low "inf" || String.eqb low "infinity" then
    Ok (if neg then neg_infinity else infinity)
  else if String.eqb low "nan" then Ok nan
  else
    let '(ipart, r1) := digitpart body false in
    let '(fpart, r2) :=
      match r1 with
      | String c r => if Ascii.eqb c "." then digitpart r false else ([], r1)
      | EmptyString => ([], r1)
      end in
    match ipart ++ fpart, exponent r2 with
    | d :: ds, Some ex =>
        Ok (float_of_decimal neg (decimal (d :: ds))
              (ex - Z.of_nat (List.length fpart)))
    | _, _ => Raise (ValueError "could not convert string to float")
    end.

(** *** [datetime] *)

Open Scope Z_scope.

Record datetime : Type := mk_datetime {
  year : Z; month : Z; day : Z;
  hour : Z; minute : Z; second : Z; microsecond : Z }.

Definition MINYEAR : Z := 1.
Definition MAXYEAR : Z := 9999.
Definition MAXORDINAL : Z := 3652059.

Definition is_leap (y : Z) : bool :=
  (y mod 4 =? 0) && (negb (y mod 100 =? 0) || (y mod 400 =? 0)).

Definition days_before_year (y : Z) : Z :=
  let y := y - 1 in y * 365 + y / 4 - y / 100 + y / 400.

Definition DAYS_IN_MONTH : list Z :=
  [-1; 31; 28; 31; 30; 31; 30; 31; 31; 30; 31; 30; 31].

Definition DAYS_BEFORE_MONTH : list Z :=
  [-1; 0; 31; 59; 90; 120; 151; 181; 212; 243; 273; 304; 334].

Definition days_before_month (y m : Z) : Z :=
  nth (Z.to_nat m) DAYS_BEFORE_MONTH 0
  + (if (2 <? m) && is_leap y then 1 else 0).

Definition ymd2ord (y m d : Z) : Z :=
  days_before_year y + days_before_month y m + d.

Definition DI400Y : Z := 146097.
Definition DI100Y : Z := 36524.
Definition DI4Y : Z := 1461.

Definition ord2ymd (n : Z) : Z * Z * Z :=
  let n := n - 1 in
  let n400 := n / DI400Y in
  let n := n mod DI400Y in
  let y := n400 * 400 + 1 in
  let n100 := n / DI100Y in
  let n := n mod DI100Y in
  let n4 := n / DI4Y in
  let n := n mod DI4Y in
  let n1 := n / 365 in
  let n := n mod 365 in
  let y := y + n100 * 100 + n4 * 4 + n1 in
  if (n1 =? 4) || (n100 =? 4) then (y - 1, 12, 31)
  else
    let leapyear := (n1 =? 3) && (negb (n4 =? 24) || (n100 =? 3)) in
    let m := Z.shiftr (n + 50) 5 in
    let preceding :=
      nth (Z.to_nat m) DAYS_BEFORE_MONTH 0
      + (if (2 <? m) && leapyear then 1 else 0) in
    if n <? preceding then
      let m := m - 1 in
      let preceding :=
        preceding - (nth (Z.to_nat m) DAYS_IN_MONTH 0
                     + (if (m =? 2) && leapyear then 1 else 0)) in
      (y, m, n - preceding + 1)
    else (y, m, n - preceding + 1).

(** [datetime(year, 1, 1)] *)
Definition new_year (y : Z) : result datetime :=
  if (MINYEAR <=? y) && (y <=? MAXYEAR) then Ok (mk_datetime y 1 1 0 0 0 0)
  else Raise (ValueError "year is out of range").

(** The integer [int(x)] of a float, truncated toward zero. *)
Definition long_of_double (x : float) : result Z :=
  match Prim2SF x with
  | S754_zero _ => Ok 0
  | S754_finite s m e => Ok (cond_Zopp s (Z.shiftl (Zpos m) e))
  | S754_infinity _ =>
      Raise (OverflowError "cannot convert float infinity to integer")
  | S754_nan => Raise (ValueError "cannot convert float NaN to integer")
  end.

Definition US_PER_DAY : Z := 86400000000.

(** [timedelta(days=x)] for a float [x], as the number of microseconds it
    holds: the whole days are converted exactly, the fraction of a day is
    multiplied in floating point and what is left below a microsecond is
    rounded to the nearest one, ties to even. *)
Definition timedelta_days (x : float) : result Z :=
  intpart <- long_of_double x ;;
  let sum := intpart * US_PER_DAY in
  let fracpart := (x - float_of_int intpart)%float in
  us <-
    (if (fracpart =? 0)%float then Ok sum
     else
       let dnum := (float_of_int US_PER_DAY * fracpart)%float in
       intpart <- long_of_double dnum ;;
       let leftover := (dnum - float_of_int intpart)%float in
       let x := sum + intpart in
       let whole :=
         if (abs leftover <? 0.5)%float then 0
         else if (abs leftover =? 0.5)%float then
           (if Z.odd x then (if (leftover <? 0)%float then -1 else 1) else 0)
         else (if (leftover <? 0)%float then -1 else 1) in
       Ok (x + whole)) ;;
  if (-999999999 <=? us / US_PER_DAY) && (us / US_PER_DAY <=? 999999999)
  then Ok us
  else Raise (OverflowError "days must have magnitude <= 999999999").

(** Microseconds from the start of ordinal day 0. *)
Definition to_microseconds (t : datetime) : Z :=
  (((ymd2ord (year t) (month t) (day t) * 24 + hour t) * 60 + minute t) * 60
   + second t) * 1000000 + microsecond t.

(** [t + delta] where [delta] holds [us] microseconds. *)
Definition datetime_add (t : datetime) (us : Z) : result datetime :=
  let total := to_microseconds t + us in
  let n := total / US_PER_DAY in
  let r := total mod US_PER_DAY in
  if (1 <=? n) && (n <=? MAXORDINAL) then
    let '(y, m, d) := ord2ymd n in
    Ok (mk_datetime y m d (r / 3600000000) (r / 60000000 mod 60)
          (r / 1000000 mod 60) (r mod 1000000))
  else Raise (OverflowError "date value out of range").

Definition digit_char (d : Z) : ascii := chr (ord "0" + d).

(** ["%0wd" % n] for [0 <= n]. *)
Fixpoint zero_padded (w : nat) (n : Z) : string :=
  match w with
  | O => EmptyString
  | S w' => (zero_padded w' (n / 10) ++ String (digit_char (n mod 10)) EmptyString)%string
  end.

(** [t.isoformat()] *)
Definition isoformat (t : datetime) : string :=
  (zero_padded 4 (year t) ++ "-" ++ zero_padded 2 (month t) ++ "-"
   ++ zero_padded 2 (day t) ++ "T" ++ zero_padded 2 (hour t) ++ ":"
   ++ zero_padded 2 (minute t) ++ ":" ++ zero_padded 2 (second t)
   ++ (if (microsecond t =? 0)%Z then ""
       else "." ++ zero_padded 6 (microsecond t)))%string.

End Py.

(** ** numpy arrays *)

Module Np.

Open Scope float_scope.

Definition ndarray : Type := list float.

(** A binary operator applied to two arrays of the same shape. *)
Definition map2 {A B C : Type} (f : A -> B -> C) (xs : list A) (ys : list B)
  : list C :=
  map (fun p => f (fst p) (snd p)) (combine xs ys).

Definition add : ndarray -> ndarray -> ndarray := map2 PrimFloat.add.
Definition sub : ndarray -> ndarray -> ndarray := map2 PrimFloat.sub.
Definition mul : ndarray -> ndarray -> ndarray := map2 PrimFloat.mul.
Definition div : ndarray -> ndarray -> ndarray := map2 PrimFloat.div.

(** A scalar on the left of an array. *)
Definition rsub (c : float) (xs : ndarray) : ndarray := map (fun x => c - x) xs.
Definition radd (c : float) (xs : ndarray) : ndarray := map (fun x => c + x) xs.
Definition rmul (c : float) (xs : ndarray) : ndarray := map (fun x => c * x) xs.
(** A scalar on the right. *)
Definition divs (xs : ndarray) (c : float) : ndarray := map (fun x => x / c) xs.

(** Comparisons of an array with a scalar give a boolean mask. *)
Definition lt (xs : ndarray) (c : float) : list bool := map (fun x => x <? c) xs.
Definition ge (xs : ndarray) (c : float) : list bool := map (fun x => c <=? x) xs.
Definition le (xs : ndarray) (c : float) : list bool := map (fun x => x <=? c) xs.

(** [m1 & m2] *)
Definition and_ : list bool -> list bool -> list bool := map2 andb.

(** [np.full(shape, v)] for a one-dimensional shape. *)
Definition full {A : Type} (shape : nat) (v : A) : list A := repeat v shape.

(** [xs[mask] = v] *)
Definition assign_mask {A : Type} (xs : list A) (mask : list bool) (v : A)
  : list A :=
  map2 (fun x (m : bool) => if m then v else x) xs mask.

(** [np.sum(mask)]: the number of [True]s. *)
Definition sum (mask : list bool) : Z := Z.of_nat (count_occ bool_dec mask true).

Definition pi : float := 0x1.921fb54442d18p+1.

(** [np.min(xs)] and [np.max(xs)] are reductions without an identity: on an
    array without elements they raise ValueError; on any other array they
    return the number [reduce xs] that numpy picks. *)
Definition reduction (name : string) (reduce : ndarray -> float) (xs : ndarray)
  : result float :=
  match xs with
  | [] =>
      Raise (ValueError ("zero-size array to reduction operation " ++ name
                         ++ " which has no identity")%string)
  | _ :: _ => Ok (reduce xs)
  end.

End Np.

(** ** minor_planet_painter/common.py *)

Module Common.

Open Scope string_scope.

Section Externals.

(** [np.sin] and [np.cos] on one [float64]. *)
Variables np_sin np_cos : float -> float.

(** astropy's [Time(s, format='isot', scale='utc').jd]. *)
Variable Time_isot_jd : string -> float.

Open Scope float_scope.

Definition utc2jd (utc : string) : float := Time_isot_jd utc.

(** astropy's [Time(str(jd), format='jd', scale='utc').datetime]: the
    datetime as it is printed, or the exception of astropy. *)
Variable Time_jd_datetime : float -> result string.

Definition jd2utc (jd : float) : result string := Time_jd_datetime jd.

(** One pass of the loop body,
    [E - (E - e*np.sin(E) - M) / (1 - e*np.cos(E))]. *)
Definition kepler_step (M e E : Np.ndarray) : Np.ndarray :=
  Np.sub E
    (Np.div (Np.sub (Np.sub E (Np.mul e (map np_sin E))) M)
            (Np.rsub 1 (Np.mul e (map np_cos E)))).

(** [for _ in range(max_iter)] *)
Definition solve_kepler_eq (M e : Np.ndarray) (max_iter : nat) : Np.ndarray :=
  let E := M in
  fold_left (fun E _ => kepler_step M e E) (seq 0 max_iter) E.

Definition max_iter_default : nat := 10.

Open Scope Z_scope.

Definition base36_digit (c : ascii) : result Z :=
  if Py.between "0" c "9" then Ok (Py.ord c - Py.ord "0")
  else if Py.between "A" c "Z" then Ok (Py.ord c - Py.ord "A" + 10)
  else Raise (ValueError ("Invalid base36 character: " ++ String c "")).

(** [for c in s] with the running [value]. *)
Fixpoint base36_loop (s : string) (value : Z) : result Z :=
  match s with
  | EmptyString => Ok value
  | String c s' =>
      digit <- base36_digit c ;;
      base36_loop s' (value * 36 + digit)
  end.

Definition base36_to_int (s : string) : result Z :=
  let s := Py.upper s in
  base36_loop s 0.

(** Line 217 for a century letter [c]. *)
Definition century_of (c : ascii) : Z := 1800 + 100 * (Py.ord c - Py.ord "I").

(** Lines 209 to 228, after the numeric attempt has failed. *)
Definition decode_packed (epoch_code : string) : result float :=
  '(integer_part, fractional_part) <-
    (if Py.contains "." epoch_code then
       match Py.split "." epoch_code with
       | [ip; fp] => Ok (ip, fp)
       | _ => Raise (ValueError "too many values to unpack (expected 2)")
       end
     else Ok (epoch_code, "0")) ;;
  c0 <- Py.index integer_part 0 ;;
  let c := Py.upper_char c0 in
  if negb (Py.between "I" c "Z") then
    Raise (ValueError ("Unknown century code: " ++ String c ""))
  else
    let century := century_of c in
    yy <- Py.int (Py.slice integer_part 1 3) ;;
    let year := century + yy in
    day_of_year_int <- base36_to_int (Py.slice integer_part 3 5) ;;
    frac <- Py.float_of_str ("0." ++ fractional_part) ;;
    let day_of_year := (Py.float_of_int day_of_year_int + frac)%float in
    start <- Py.new_year year ;;
    delta <- Py.timedelta_days (day_of_year - 1)%float ;;
    date <- Py.datetime_add start delta ;;
    let date := Py.isoformat date in
    let date_jd := utc2jd date in
    Ok date_jd.

Definition mpcepoch2jd (epoch_code : string) : result float :=
  let epoch_code := Py.strip epoch_code in
  match Py.float_of_str epoch_code with
  | Ok jd => Ok jd
  | Raise (ValueError _) => decode_packed epoch_code
  | Raise other => Raise other
  end.

End Externals.

End Common.

(** ** scripts/plot_sssb_xy.py *)

Module Script.

Open Scope string_scope.

(** One data line of the catalog after [np.deg2rad]: the values appended to
    [epoch], [M], [omega], [Omega], [i], [e], [a] and [n] in one pass of the
    reading loop. *)
Record body : Type := mk_body {
  b_epoch : string;
  b_M : float; b_omega : float; b_Omega : float; b_i : float;
  b_e : float; b_a : float; b_n : float }.

(** The arrays of lines 84 to 91. *)
Record elements : Type := mk_elements {
  epoch : list string;
  M : Np.ndarray; omega : Np.ndarray; Omega : Np.ndarray; i : Np.ndarray;
  e : Np.ndarray; a : Np.ndarray; n : Np.ndarray }.

Definition arrays (bodies : list body) : elements :=
  mk_elements (map b_epoch bodies) (map b_M bodies) (map b_omega bodies)
    (map b_Omega bodies) (map b_i bodies) (map b_e bodies) (map b_a bodies)
    (map b_n bodies).

(** What the block "Calculate locations" leaves behind for each body. *)
Record states : Type := mk_states {
  M_t : Np.ndarray;
  E : Np.ndarray; nu : Np.ndarray; r : Np.ndarray;
  x : Np.ndarray; y : Np.ndarray }.

Section Externals.

Variables np_sin np_cos : float -> float.
Variable np_arctan2 : float -> float -> float.
(** [np.mod(v, 2*np.pi)] *)
Variable np_mod : float -> float -> float.
Variable Time_isot_jd : string -> float.
(** [np.min] and [np.max] on an array that is not empty. *)
Variables np_min np_max : Np.ndarray -> float.
Variable Time_jd_datetime : float -> result string.

Open Scope float_scope.

(** The arithmetic of lines 96 to 125 once the epochs are decoded: lines 96
    to 98 and 110 to 125.  The check of the epochs in between is
    [check_epochs]. *)
Definition locations (el : elements) (epoch_jd : Np.ndarray) (jd_now : float)
  : states :=
  let dt_days := Np.rsub jd_now epoch_jd in
  let M_t := Np.add (M el) (Np.mul (n el) dt_days) in
  let E := Common.solve_kepler_eq np_sin np_cos M_t (e el)
             Common.max_iter_default in
  let nu :=
    Np.rmul 2
      (Np.map2 np_arctan2
         (Np.mul (map sqrt (Np.radd 1 (e el))) (map np_sin (Np.divs E 2)))
         (Np.mul (map sqrt (Np.rsub 1 (e el))) (map np_cos (Np.divs E 2)))) in
  let nu_total :=
    map (fun v => np_mod v (2 * Np.pi)) (Np.add (omega el) nu) in
  let r := Np.mul (a el) (Np.rsub 1 (Np.mul (e el) (map np_cos E))) in
  let cos_Omega := map np_cos (Omega el) in
  let sin_Omega := map np_sin (Omega el) in
  let cos_i := map np_cos (i el) in
  let x :=
    Np.mul r
      (Np.sub (Np.mul cos_Omega (map np_cos nu_total))
              (Np.mul (Np.mul sin_Omega (map np_sin nu_total)) cos_i)) in
  let y :=
    Np.mul r
      (Np.add (Np.mul sin_Omega (map np_cos nu_total))
              (Np.mul (Np.mul cos_Omega (map np_sin nu_total)) cos_i)) in
  mk_states M_t E nu r x y.

(** Lines 100 to 107: the earliest and the latest epoch are looked up and
    printed as dates.  Nothing of it is used afterwards, but the reductions
    and [jd2utc] may raise. *)
Definition check_epochs (epoch_jd : Np.ndarray) : result unit :=
  ejd_min <- Np.reduction "minimum" np_min epoch_jd ;;
  ejd_max <- Np.reduction "maximum" np_max epoch_jd ;;
  _ <- Common.jd2utc Time_jd_datetime ejd_min ;;
  _ <- Common.jd2utc Time_jd_datetime ejd_max ;;
  Ok tt.

(** Lines 95 to 125.  The sums of lines 96 to 98 raise nothing, so that
    they are left with the rest of the arithmetic after the check. *)
Definition propagate (el : elements) (jd_now : float) : result states :=
  epoch_jd <- list_comprehension (Common.mpcepoch2jd Time_isot_jd) (epoch el) ;;
  _ <- check_epochs epoch_jd ;;
  Ok (locations el epoch_jd jd_now).

End Externals.

Open Scope float_scope.

(** Masks for classification, lines 132 to 138. *)
Definition q (el : elements) : Np.ndarray := Np.mul (a el) (Np.rsub 1 (e el)).

Definition mask_nea (el : elements) : list bool := Np.lt (q el) 1.3.

Definition mask_mba (el : elements) : list bool :=
  Np.and_ (Np.and_ (Np.ge (q el) 1.3) (Np.ge (a el) 1.8)) (Np.le (a el) 3.3).

Definition mask_hilda (el : elements) : list bool :=
  Np.and_
    (Np.and_
       (Np.and_ (Np.and_ (Np.ge (q el) 1.3) (Np.ge (a el) 3.7))
          (Np.le (a el) 4.0))
       (Np.ge (e el) 0.07))
    (Np.le (e el) 0.3).

Definition mask_trojan (el : elements) : list bool :=
  Np.and_ (Np.and_ (Np.ge (q el) 1.3) (Np.ge (a el) 5.0)) (Np.le (a el) 5.4).

Definition mask_tno (el : elements) : list bool :=
  Np.and_ (Np.ge (q el) 1.3) (Np.ge (a el) 30.0).

Definition cols : list string :=
  ["red"; "green"; "orange"; "blue"; "skyblue"; "gray"].

(** The classes, in the order of [legend_labels] and [cols]. *)
Inductive family : Type := NEA | MBA | Hilda | Trojan | TNO | Others.

Definition col (f : family) : string :=
  match f with
  | NEA => "red"
  | MBA => "green"
  | Hilda => "orange"
  | Trojan => "blue"
  | TNO => "skyblue"
  | Others => "gray"
  end.

(** Lines 144 to 149. *)
Definition colors (el : elements) : list string :=
  let colors := Np.full (List.length (a el)) (col Others) in
  let colors := Np.assign_mask colors (mask_nea el) (col NEA) in
  let colors := Np.assign_mask colors (mask_mba el) (col MBA) in
  let colors := Np.assign_mask colors (mask_hilda el) (col Hilda) in
  let colors := Np.assign_mask colors (mask_trojan el) (col Trojan) in
  let colors := Np.assign_mask colors (mask_tno el) (col TNO) in
  colors.

Open Scope Z_scope.

(** Lines 152 to 158. *)
Definition N_all (el : elements) : Z := Z.of_nat (List.length (a el)).
Definition N_nea (el : elements) : Z := Np.sum (mask_nea el).
Definition N_mba (el : elements) : Z := Np.sum (mask_mba el).
Definition N_hilda (el : elements) : Z := Np.sum (mask_hilda el).
Definition N_trojan (el : elements) : Z := Np.sum (mask_trojan el).
Definition N_tno (el : elements) : Z := Np.sum (mask_tno el).
Definition N_others (el : elements) : Z :=
  N_all el - (N_nea el + N_mba el + N_hilda el + N_trojan el + N_tno el).

End Script.

(** * Properties *)

(** ** Comparisons of binary64 numbers *)

Module FloatOrder.

Open Scope float_scope.

Lemma SFcompare_antisym (x y : spec_float) :
  SFcompare y x = option_map CompOpp (SFcompare x y).
Proof.
  destruct x as [s1|s1| |s1 m1 e1], y as [s2|s2| |s2 m2 e2]; simpl;
    try reflexivity; try (destruct s1; reflexivity);
    try (destruct s2; reflexivity); try (destruct s1, s2; reflexivity).
  f_equal.
  change (Pos.compare_cont Eq m1 m2) with (Pos.compare m1 m2).
  change (Pos.compare_cont Eq m2 m1) with (Pos.compare m2 m1).
  rewrite (Z.compare_antisym e1 e2), (Pos.compare_antisym m1 m2).
  destruct s1, s2; simpl; try reflexivity;
    destruct (e1 ?= e2)%Z; simpl; try reflexivity;
    destruct (m1 ?= m2)%positive; reflexivity.
Qed.

(** [x < y] and [x >= y] never hold together. *)
Lemma ltb_not_geb (x y : float) : (x <? y) = true -> (y <=? x) = false.
Proof.
  rewrite ltb_spec, leb_spec. unfold SFltb, SFleb.
  rewrite (SFcompare_antisym (Prim2SF x) (Prim2SF y)).
  destruct (SFcompare (Prim2SF x) (Prim2SF y)) as [[]|]; simpl; congruence.
Qed.

Ltac cmp_cases :=
  repeat match goal with
  | |- context [(?a ?= ?b)%Z] => destruct (Z.compare_spec a b)
  | H : context [(?a ?= ?b)%Z] |- _ => destruct (Z.compare_spec a b)
  | |- context [(?a ?= ?b)%positive] => destruct (Pos.compare_spec a b)
  | H : context [(?a ?= ?b)%positive] |- _ => destruct (Pos.compare_spec a b)
  end.

Lemma SFleb_trans (x y z : spec_float) :
  SFleb x y = true -> SFleb y z = true -> SFleb x z = true.
Proof.
  unfold SFleb.
  destruct x as [s1|s1| |s1 m1 e1], y as [s2|s2| |s2 m2 e2],
           z as [s3|s3| |s3 m3 e3]; simpl;
    try discriminate; try reflexivity;
    try (destruct s1; discriminate || reflexivity);
    try (destruct s1, s2; discriminate || reflexivity);
    try (destruct s2, s3; discriminate || reflexivity);
    try (destruct s1, s3; discriminate || reflexivity);
    try (destruct s1, s2, s3; discriminate || reflexivity).
  all: change (Pos.compare_cont Eq) with Pos.compare.
  all: destruct s1, s2, s3; simpl; try discriminate; try reflexivity;
    cmp_cases; simpl; try discriminate; try reflexivity; intros; exfalso; lia.
Qed.

Lemma leb_trans (x y z : float) :
  (x <=? y) = true -> (y <=? z) = true -> (x <=? z) = true.
Proof. rewrite !leb_spec. apply SFleb_trans. Qed.

(** An interval [[lo, hi]] and a half line [[lo', +oo)] with [hi < lo'] are
    disjoint. *)
Lemma leb_disjoint (hi lo' v : float) :
  (lo' <=? hi) = false -> (v <=? hi) && (lo' <=? v) = false.
Proof.
  intros Hc.
  destruct (v <=? hi) eqn:H1; [|reflexivity].
  destruct (lo' <=? v) eqn:H2; [|reflexivity].
  rewrite (leb_trans _ _ _ H2 H1) in Hc. discriminate.
Qed.

End FloatOrder.

(** ** Rounding of binary64 numbers *)

Module Rounding.

Open Scope Z_scope.

Lemma digits2_size (m : positive) : digits2_pos m = Pos.size m.
Proof. induction m; simpl; congruence. Qed.

(** [2^(d-1) <= m < 2^d] for the number [d] of binary digits of [m]. *)
Lemma digits2_bounds (m : positive) :
  2 ^ (Zpos (digits2_pos m) - 1) <= Zpos m < 2 ^ Zpos (digits2_pos m).
Proof.
  induction m as [m IH|m IH|]; cbn [digits2_pos].
  - rewrite Pos2Z.inj_succ.
    replace (Z.succ (Zpos (digits2_pos m)) - 1) with (Z.succ (Zpos (digits2_pos m) - 1)) by lia.
    rewrite !Z.pow_succ_r by lia. lia.
  - rewrite Pos2Z.inj_succ.
    replace (Z.succ (Zpos (digits2_pos m)) - 1) with (Z.succ (Zpos (digits2_pos m) - 1)) by lia.
    rewrite !Z.pow_succ_r by lia. lia.
  - simpl. lia.
Qed.

Lemma shr_1_div (mrs : shr_record) :
  0 <= shr_m mrs -> shr_m (shr_1 mrs) = shr_m mrs / 2.
Proof.
  destruct mrs as [m r s]. cbn [shr_m]. intros Hm.
  destruct m as [|[p|p|]|p]; cbn [shr_1 shr_m]; try lia.
  - reflexivity.
  - rewrite Pos2Z.inj_xI. apply Z.div_unique with (r := 1); lia.
  - rewrite Pos2Z.inj_xO. apply Z.div_unique with (r := 0); lia.
  - reflexivity.
Qed.

Lemma pow2_xI (p : positive) : 2 ^ Zpos p~1 = 2 * 2 ^ Zpos p * 2 ^ Zpos p.
Proof.
  replace (Zpos p~1) with (Zpos p + Zpos p + 1) by lia.
  rewrite !Z.pow_add_r by lia. ring.
Qed.

Lemma pow2_xO (p : positive) : 2 ^ Zpos p~0 = 2 ^ Zpos p * 2 ^ Zpos p.
Proof.
  replace (Zpos p~0) with (Zpos p + Zpos p) by lia.
  now rewrite Z.pow_add_r by lia.
Qed.

Lemma iter_shr_1_div (p : positive) (mrs : shr_record) :
  0 <= shr_m mrs -> shr_m (iter_pos shr_1 p mrs) = shr_m mrs / 2 ^ Zpos p.
Proof.
  revert mrs. induction p as [p IH|p IH|]; intros mrs Hm; cbn [iter_pos].
  - assert (H1 : 0 <= shr_m (shr_1 mrs))
      by (rewrite shr_1_div by lia; apply Z.div_pos; lia).
    assert (H2 : 0 <= shr_m (iter_pos shr_1 p (shr_1 mrs)))
      by (rewrite IH by lia; apply Z.div_pos; lia).
    rewrite IH, IH, shr_1_div by lia.
    rewrite !Z.div_div by lia. f_equal. rewrite pow2_xI. ring.
  - assert (H2 : 0 <= shr_m (iter_pos shr_1 p mrs))
      by (rewrite IH by lia; apply Z.div_pos; lia).
    rewrite IH, IH by lia.
    rewrite !Z.div_div by lia. f_equal. now rewrite pow2_xO.
  - rewrite shr_1_div by lia. reflexivity.
Qed.

Definition number (x : spec_float) : bool :=
  match x with
  | S754_finite _ _ _ | S754_infinity _ => true
  | S754_zero _ | S754_nan => false
  end.

Lemma shr_record_of_loc_m (m : Z) (l : location) :
  shr_m (shr_record_of_loc m l) = m.
Proof. destruct l as [|[]]; reflexivity. Qed.

Lemma fexp_eq (e : Z) : fexp prec emax e = Z.max (e - 53) (-1074).
Proof. reflexivity. Qed.

(** Shifting a positive mantissa to its binary64 exponent leaves it
    positive when the exponent is not below the smallest one. *)
Lemma shr_fexp_pos (m e : Z) (l : location) :
  0 < m -> -1074 <= e ->
  0 < shr_m (fst (shr_fexp prec emax m e l))
  /\ -1074 <= snd (shr_fexp prec emax m e l).
Proof.
  intros Hm He. unfold shr_fexp, shr.
  destruct m as [|p|p]; try lia. cbn [Zdigits2].
  rewrite fexp_eq.
  pose proof (digits2_bounds p) as B.
  set (d := Zpos (digits2_pos p)) in *.
  destruct (Z.max (d + e - 53) (-1074) - e) as [|q|q] eqn:K; cbn [fst snd];
    rewrite ?shr_record_of_loc_m; try lia.
  rewrite iter_shr_1_div by (rewrite shr_record_of_loc_m; lia).
  rewrite shr_record_of_loc_m. split; [|lia].
  assert (Zpos q = d - 53) as -> by lia.
  apply Z.lt_le_trans with (2 ^ 52); [reflexivity|].
  apply Z.div_le_lower_bound; [apply Z.pow_pos_nonneg; lia|].
  rewrite <- Z.pow_add_r by lia.
  replace (d - 53 + 52) with (d - 1) by lia. lia.
Qed.

Lemma round_nearest_even_ge (m : Z) (l : location) :
  m <= round_nearest_even m l.
Proof.
  destruct l as [|[]]; cbn [round_nearest_even]; try lia.
  destruct (Z.even m); lia.
Qed.

(** Rounding a positive integer multiple of a power of two never gives a
    zero or a NaN. *)
Lemma binary_round_aux_number (s : bool) (m : positive) (e : Z) (l : location) :
  -1074 <= e -> number (binary_round_aux prec emax s (Zpos m) e l) = true.
Proof.
  intros He. unfold binary_round_aux.
  destruct (shr_fexp_pos (Zpos m) e l ltac:(lia) He) as [H1 H2].
  destruct (shr_fexp prec emax (Zpos m) e l) as [mrs' e']. cbn [fst snd] in *.
  pose proof (round_nearest_even_ge (shr_m mrs') (loc_of_shr_record mrs')) as R.
  set (m1 := round_nearest_even (shr_m mrs') (loc_of_shr_record mrs')) in *.
  destruct (shr_fexp_pos m1 e' loc_Exact ltac:(lia) H2) as [H3 H4].
  destruct (shr_fexp prec emax m1 e' loc_Exact) as [mrs'' e''].
  cbn [fst snd] in *.
  destruct (shr_m mrs''); try lia.
  now destruct (e'' <=? emax - prec).
Qed.

Lemma binary_round_number (s : bool) (m : positive) (e : Z) :
  -1074 <= e -> number (binary_round prec emax s m e) = true.
Proof.
  intros He. unfold binary_round, shl_align. rewrite fexp_eq.
  destruct (Z.max (Zpos (digits2_pos m) + e - 53) (-1074) - e) eqn:K;
    apply binary_round_aux_number; lia.
Qed.

Lemma iter_xO (m : positive) (d : positive) :
  Zpos (Pos.iter xO m d) = Zpos m * 2 ^ Zpos d.
Proof.
  revert m. induction d as [d IH|d IH|]; intros m; cbn [Pos.iter].
  - rewrite Pos2Z.inj_xO, !IH, pow2_xI. ring.
  - rewrite !IH, pow2_xO. ring.
  - rewrite Pos2Z.inj_xO. lia.
Qed.

Definition SFone64 : spec_float := S754_finite false 4503599627370496 (-52).

Lemma valid_finite (s : bool) (m : positive) (e : Z) :
  valid_binary (S754_finite s m e) = true ->
  Z.max (Zpos (digits2_pos m) + e - 53) (-1074) = e /\ e <= 971.
Proof.
  cbn [SpecFloat.valid_binary]. unfold bounded, canonical_mantissa.
  rewrite andb_true_iff, Z.eqb_eq, Z.leb_le, fexp_eq. tauto.
Qed.

Lemma shl52 (m : positive) :
  (4503599627370496 * m)%positive = Pos.iter xO m 52.
Proof. reflexivity. Qed.

(** Multiplying by one is exact. *)
Lemma SFmul_one (s : bool) (m : positive) (e : Z) :
  valid_binary (S754_finite s m e) = true ->
  SF64mul (S754_finite s m e) SFone64 = S754_finite s m e.
Proof.
  intros V. destruct (valid_finite s m e V) as [C B].
  unfold SF64mul, SFmul, SFone64. rewrite xorb_false_r.
  rewrite Pos.mul_comm.
  unfold binary_round_aux, shr_fexp. cbn [Zdigits2].
  assert (D : Zpos (digits2_pos (4503599627370496 * m))
              = Zpos (digits2_pos m) + 52).
  { cbn [Pos.mul digits2_pos]. rewrite !Pos2Z.inj_succ. lia. }
  rewrite D, fexp_eq.
  replace (Z.max (Zpos (digits2_pos m) + 52 + (e + -52) - 53) (-1074)
           - (e + -52)) with 52 by lia.
  cbn [shr shr_record_of_loc].
  change (iter_pos shr_1 52
            {| shr_m := Zpos (4503599627370496 * m); shr_r := false;
               shr_s := false |})
    with {| shr_m := Zpos m; shr_r := false; shr_s := false |}.
  cbn [shr_m loc_of_shr_record round_nearest_even Zdigits2].
  replace (e + -52 + 52) with e by lia.
  rewrite fexp_eq, C, Z.sub_diag. cbn [shr shr_record_of_loc shr_m].
  destruct (Z.leb_spec e (emax - prec)); [reflexivity|].
  unfold emax, prec in *. lia.
Qed.

(** [1 - x] for a binary64 number [0 < x < 1] is a number other than zero. *)
Lemma SFsub_one_number (m : positive) (e : Z) :
  valid_binary (S754_finite false m e) = true ->
  SFltb (S754_finite false m e) SFone64 = true ->
  number (SF64sub SFone64 (S754_finite false m e)) = true.
Proof.
  intros V L. destruct (valid_finite false m e V) as [C B].
  pose proof (digits2_bounds m) as [Dlo Dhi].
  set (d := Zpos (digits2_pos m)) in *.
  assert (He : e < -52).
  { unfold SFltb, SFone64 in L. cbn [SFcompare] in L.
    destruct (Z.compare_spec e (-52)) as [E|E|E]; [|assumption|discriminate].
    exfalso.
    rewrite Pos.compare_cont_spec in L. cbn [Pos.switch_Eq] in L.
    destruct (Pos.compare_spec m 4503599627370496) as [|Hlt|];
      try discriminate.
    assert (d = 53) as Hd by (clear - C E; lia).
    rewrite Hd in Dlo.
    change (2 ^ (53 - 1)) with 4503599627370496 in Dlo.
    apply Pos2Z.pos_lt_pos in Hlt. clear - Dlo Hlt. lia. }
  assert (Hm : Zpos m < 9007199254740992).
  { apply Z.lt_le_trans with (2 ^ d); [assumption|].
    change 9007199254740992 with (2 ^ 53).
    apply Z.pow_le_mono_r; [|clear - C]; lia. }
  unfold SF64sub, SFsub, SFone64. cbn [cond_Zopp].
  rewrite Z.min_r by (clear - He; lia). unfold shl_align.
  rewrite Z.sub_diag.
  destruct (e - -52) as [|k|k] eqn:K; try (exfalso; clear - K He; lia).
  cbn [fst]. rewrite iter_xO.
  assert (P : 2 <= 2 ^ Zpos k)
    by (change 2 with (2 ^ 1) at 1; apply Z.pow_le_mono_r; lia).
  set (pk := 2 ^ Zpos k) in *. clearbody pk.
  assert (emin_le : -1074 <= e) by (clear - C; lia).
  destruct (4503599627370496 * pk - Zpos m) as [|D|D] eqn:HD.
  - exfalso. clear - HD P Hm. lia.
  - cbn [binary_normalize]. now apply binary_round_number.
  - exfalso. clear - HD P Hm. lia.
Qed.

(** *** Magnitude of rounded results *)

Lemma Zdigits2_nonneg (m : Z) : 0 <= Zdigits2 m.
Proof. destruct m; cbn [Zdigits2]; lia. Qed.

Lemma Zdigits2_bounds (m : Z) :
  0 < m -> 0 < Zdigits2 m /\ 2 ^ (Zdigits2 m - 1) <= m < 2 ^ Zdigits2 m.
Proof.
  destruct m as [|p|p]; try lia. intros _. cbn [Zdigits2].
  split; [lia|apply digits2_bounds].
Qed.

Lemma Zdigits2_le_pow (m n : Z) : 0 <= n -> 0 <= m < 2 ^ n -> Zdigits2 m <= n.
Proof.
  intros Hn [H0 H1].
  destruct (Z.eq_dec m 0) as [->|Hm]; [exact Hn|].
  destruct (Zdigits2_bounds m ltac:(lia)) as (Hd & Hlo & _).
  destruct (Z_le_gt_dec (Zdigits2 m) n) as [|G]; [assumption|exfalso].
  assert (2 ^ n <= 2 ^ (Zdigits2 m - 1)) by (apply Z.pow_le_mono_r; lia).
  lia.
Qed.

Lemma Zdigits2_gt_pow (m n : Z) : 0 <= n -> 2 ^ n <= m -> n < Zdigits2 m.
Proof.
  intros Hn H.
  assert (0 < 2 ^ n) by (apply Z.pow_pos_nonneg; lia).
  destruct (Zdigits2_bounds m ltac:(lia)) as (Hd & _ & Hhi).
  destruct (Z_lt_le_dec n (Zdigits2 m)) as [|G]; [assumption|exfalso].
  assert (2 ^ Zdigits2 m <= 2 ^ n) by (apply Z.pow_le_mono_r; lia).
  lia.
Qed.

Lemma Zdigits2_unique (m d : Z) :
  0 < d -> 2 ^ (d - 1) <= m < 2 ^ d -> Zdigits2 m = d.
Proof.
  intros Hd [Hlo Hhi].
  pose proof (Zdigits2_gt_pow m (d - 1) ltac:(lia) Hlo).
  assert (0 < 2 ^ (d - 1)) by (apply Z.pow_pos_nonneg; lia).
  pose proof (Zdigits2_le_pow m d ltac:(lia) ltac:(lia)). lia.
Qed.

Lemma div_pow2_lt (m a b : Z) :
  0 <= b <= a -> 0 <= m < 2 ^ a -> m / 2 ^ b < 2 ^ (a - b).
Proof.
  intros Hab [H0 H1].
  assert (0 < 2 ^ b) by (apply Z.pow_pos_nonneg; lia).
  apply Z.div_lt_upper_bound; [assumption|].
  rewrite <- Z.pow_add_r by lia. now replace (b + (a - b)) with a by lia.
Qed.

Lemma div_pow2_ge (m a b : Z) :
  0 <= b <= a -> 2 ^ a <= m -> 2 ^ (a - b) <= m / 2 ^ b.
Proof.
  intros Hab H.
  assert (0 < 2 ^ b) by (apply Z.pow_pos_nonneg; lia).
  apply Z.div_le_lower_bound; [assumption|].
  rewrite <- Z.pow_add_r by lia. now replace (b + (a - b)) with a by lia.
Qed.

(** Dropping [k] low bits drops [k] digits. *)
Lemma Zdigits2_div_pow2 (m k : Z) :
  0 < m -> 0 <= k < Zdigits2 m -> Zdigits2 (m / 2 ^ k) = Zdigits2 m - k.
Proof.
  intros Hm Hk. destruct (Zdigits2_bounds m Hm) as (Hd & Hlo & Hhi).
  apply Zdigits2_unique; [lia|]. split.
  - replace (Zdigits2 m - k - 1) with (Zdigits2 m - 1 - k) by lia.
    apply div_pow2_ge; [lia|assumption].
  - apply div_pow2_lt; lia.
Qed.

Lemma div_pow2_small (m k : Z) :
  0 <= m -> Zdigits2 m <= k -> m / 2 ^ k = 0.
Proof.
  intros Hm Hk. apply Z.div_small. split; [assumption|].
  destruct (Z.eq_dec m 0) as [->|N];
    [apply Z.pow_pos_nonneg; pose proof (Zdigits2_nonneg 0); lia|].
  destruct (Zdigits2_bounds m ltac:(lia)) as (Hd & _ & Hhi).
  apply Z.lt_le_trans with (2 ^ Zdigits2 m); [assumption|].
  apply Z.pow_le_mono_r; lia.
Qed.

(** *** Shifts *)

Lemma shr_spec (mrs : shr_record) (e n : Z) :
  0 <= shr_m mrs ->
  shr_m (fst (shr mrs e n)) = shr_m mrs / 2 ^ Z.max 0 n
  /\ snd (shr mrs e n) = e + Z.max 0 n.
Proof.
  intros Hm. unfold shr. destruct n as [|p|p]; cbn [fst snd].
  - rewrite Z.max_l by lia. now rewrite Z.pow_0_r, Z.div_1_r, Z.add_0_r.
  - rewrite Z.max_r by lia. split; [now apply iter_shr_1_div|reflexivity].
  - rewrite Z.max_l by lia. now rewrite Z.pow_0_r, Z.div_1_r, Z.add_0_r.
Qed.

Lemma shr_fexp_spec (m e : Z) (l : location) :
  0 <= m ->
  shr_m (fst (shr_fexp prec emax m e l))
  = m / 2 ^ Z.max 0 (fexp prec emax (Zdigits2 m + e) - e)
  /\ snd (shr_fexp prec emax m e l)
     = e + Z.max 0 (fexp prec emax (Zdigits2 m + e) - e).
Proof.
  intros Hm. unfold shr_fexp.
  pose proof (shr_spec (shr_record_of_loc m l) e
                (fexp prec emax (Zdigits2 m + e) - e)) as H.
  rewrite shr_record_of_loc_m in H. now apply H.
Qed.

Lemma round_nearest_even_le (m : Z) (l : location) :
  round_nearest_even m l <= m + 1.
Proof.
  destruct l as [|[]]; cbn [round_nearest_even]; try lia.
  destruct (Z.even m); lia.
Qed.

(** *** Rounding to binary64 *)

(** [x] is a zero, or a finite number of magnitude at most [2^B]. *)
Definition SFle_pow (B : Z) (x : spec_float) : Prop :=
  match x with
  | S754_zero _ => True
  | S754_finite _ m e => -1074 <= e <= B /\ Zpos m <= 2 ^ (B - e)
  | S754_infinity _ | S754_nan => False
  end.

Lemma finite_out (s : bool) (m e B : Z) :
  0 < m -> Z.max (Zdigits2 m + e - 53) (-1074) = e -> e <= 971 -> e <= B ->
  m <= 2 ^ (B - e) ->
  let r := match m with
           | Z0 => S754_zero s
           | Zpos p =>
               if e <=? emax - prec then S754_finite s p e
               else S754_infinity s
           | Zneg _ => S754_nan
           end in
  valid_binary r = true /\ SFle_pow B r.
Proof.
  intros Hm C E971 EB Hb. destruct m as [|p|p]; try lia.
  cbv zeta. destruct (Z.leb_spec e (emax - prec)) as [_|G];
    [|unfold emax, prec in G; lia].
  split.
  - cbn [SpecFloat.valid_binary]. unfold bounded, canonical_mantissa.
    rewrite fexp_eq. cbn [Zdigits2] in C. rewrite C, Z.eqb_refl.
    apply Z.leb_le. unfold emax, prec. lia.
  - cbn [SFle_pow]. split; [lia|assumption].
Qed.

(** Rounding a mantissa [0 <= m < 2^(B - e)] at an exponent [e] not above the
    binary64 exponent of its magnitude gives a binary64 number of magnitude
    at most [2^B]. *)
Lemma binary_round_aux_spec (s : bool) (m e : Z) (l : location) (B : Z) :
  0 <= m -> e <= fexp prec emax (Zdigits2 m + e) -> m < 2 ^ (B - e) ->
  -1074 <= B <= 1023 ->
  valid_binary (binary_round_aux prec emax s m e l) = true
  /\ SFle_pow B (binary_round_aux prec emax s m e l).
Proof.
  intros Hm Hpre Hb HB.
  assert (HeB : e <= B).
  { destruct (Z_le_gt_dec e B); [assumption|exfalso].
    rewrite Z.pow_neg_r in Hb by lia. lia. }
  unfold binary_round_aux.
  destruct (shr_fexp_spec m e l Hm) as [S1 S2].
  destruct (shr_fexp prec emax m e l) as [mrs1 e1']. cbn [fst snd] in S1, S2.
  rewrite fexp_eq in *.
  assert (Hd : Zdigits2 m <= B - e) by (apply Zdigits2_le_pow; lia).
  pose proof (Zdigits2_nonneg m) as Hd0.
  remember (Zdigits2 m) as d eqn:Ed.
  remember (Z.max (d + e - 53) (-1074)) as e1 eqn:E1.
  rewrite Z.max_r in S1, S2 by lia.
  replace (e + (e1 - e)) with e1 in S2 by lia. subst e1'.
  remember (shr_m mrs1) as m1 eqn:Em1.
  assert (Hm1 : 0 <= m1 < 2 ^ (B - e1)).
  { rewrite S1. split.
    - apply Z.div_pos; [assumption|apply Z.pow_pos_nonneg; lia].
    - replace (B - e1) with (B - e - (e1 - e)) by lia.
      apply div_pow2_lt; lia. }
  assert (Hcan : m1 = 0 /\ e1 = -1074
                 \/ 0 < m1 /\ Z.max (Zdigits2 m1 + e1 - 53) (-1074) = e1).
  { destruct (Z_lt_le_dec (e1 - e) d) as [L|G].
    - right.
      assert (0 < m) by (destruct (Z.eq_dec m 0) as [->|];
                         [cbn in Ed; lia|lia]).
      destruct (Zdigits2_bounds m ltac:(assumption)) as (_ & Hlo & _).
      rewrite <- Ed in Hlo.
      assert (2 ^ (d - 1 - (e1 - e)) <= m1)
        by (rewrite S1; apply div_pow2_ge; lia).
      assert (0 < 2 ^ (d - 1 - (e1 - e))) by (apply Z.pow_pos_nonneg; lia).
      split; [lia|].
      rewrite S1, Zdigits2_div_pow2 by lia. rewrite <- Ed. lia.
    - left. split; [rewrite S1; apply div_pow2_small; lia|lia]. }
  pose proof (round_nearest_even_ge m1 (loc_of_shr_record mrs1)) as R1.
  pose proof (round_nearest_even_le m1 (loc_of_shr_record mrs1)) as R2.
  remember (round_nearest_even m1 (loc_of_shr_record mrs1)) as m2 eqn:Em2.
  destruct (shr_fexp_spec m2 e1 loc_Exact ltac:(lia)) as [T1 T2].
  destruct (shr_fexp prec emax m2 e1 loc_Exact) as [mrs2 e2].
  cbn [fst snd] in T1, T2. rewrite fexp_eq in *.
  destruct Hcan as [[Z1 Z2] | [P1 C1]].
  - destruct (Z.eq_dec m2 0) as [Z3|N3].
    + rewrite T1, Z3. rewrite Z.div_0_l
        by (apply Z.pow_nonzero; lia).
      split; [reflexivity|exact I].
    + assert (m2 = 1) as -> by lia.
      change (Zdigits2 1) with 1 in *.
      rewrite Z.max_l in T1, T2 by lia.
      rewrite Z.pow_0_r, Z.div_1_r in T1. rewrite T1, T2.
      apply (finite_out s 1 (e1 + 0) B); try lia;
        try (change (Zdigits2 1) with 1; lia);
        try (apply Z.le_trans with (2 ^ 0); [reflexivity|];
             apply Z.pow_le_mono_r; lia).
  - destruct (Zdigits2_bounds m1 P1) as (Hd1 & Hlo1 & Hhi1).
    assert (Hd1B : Zdigits2 m1 <= B - e1) by (apply Zdigits2_le_pow; lia).
    remember (Zdigits2 m1) as d1 eqn:Ed1.
    assert (P2d : 2 ^ d1 <= 2 ^ (B - e1)) by (apply Z.pow_le_mono_r; lia).
    destruct (Z_lt_le_dec m2 (2 ^ d1)) as [L|G].
    + assert (D2 : Zdigits2 m2 = d1) by (apply Zdigits2_unique; lia).
      rewrite D2 in T1, T2. rewrite C1, Z.sub_diag in T1, T2.
      rewrite Z.max_l in T1, T2 by lia.
      rewrite Z.pow_0_r, Z.div_1_r in T1. rewrite T1, T2.
      apply (finite_out s m2 (e1 + 0) B); try lia;
        try (rewrite D2; lia); try (rewrite Z.add_0_r; lia).
    + assert (M2 : m2 = 2 ^ d1) by lia.
      assert (D2 : Zdigits2 m2 = d1 + 1).
      { apply Zdigits2_unique; [lia|].
        replace (d1 + 1 - 1) with d1 by lia. split; [lia|].
        rewrite M2. apply Z.pow_lt_mono_r; lia. }
      rewrite D2 in T1, T2.
      destruct (Z.eq_dec (Z.max (d1 + 1 + e1 - 53) (-1074)) e1) as [K0|K1].
      * rewrite K0, Z.sub_diag in T1, T2.
        rewrite Z.max_l in T1, T2 by lia.
        rewrite Z.pow_0_r, Z.div_1_r in T1. rewrite T1, T2.
        apply (finite_out s m2 (e1 + 0) B); try lia;
          try (rewrite D2; lia); try (rewrite Z.add_0_r; lia).
      * assert (K : Z.max (d1 + 1 + e1 - 53) (-1074) = e1 + 1) by lia.
        rewrite K in T1, T2.
        replace (e1 + 1 - e1) with 1 in T1, T2 by lia.
        rewrite Z.max_r in T1, T2 by lia.
        assert (M3 : m2 / 2 ^ 1 = 2 ^ (d1 - 1)).
        { rewrite M2. rewrite <- Z.pow_sub_r by lia. reflexivity. }
        rewrite M3 in T1.
        assert (P3 : 0 < 2 ^ (d1 - 1)) by (apply Z.pow_pos_nonneg; lia).
        assert (D3 : Zdigits2 (2 ^ (d1 - 1)) = d1).
        { apply Zdigits2_unique; [lia|]. split; [lia|].
          apply Z.pow_lt_mono_r; lia. }
        rewrite T1, T2.
        apply (finite_out s (2 ^ (d1 - 1)) (e1 + 1) B); try lia;
          try (rewrite D3; lia); try (apply Z.pow_le_mono_r; lia).
Qed.

Lemma SFle_pow_weaken (B B' : Z) (x : spec_float) :
  B <= B' -> SFle_pow B x -> SFle_pow B' x.
Proof.
  intros H. destruct x as [s|s| |s m e]; cbn [SFle_pow]; try tauto.
  intros [He Hm]. split; [lia|].
  apply Z.le_trans with (2 ^ (B - e)); [assumption|].
  apply Z.pow_le_mono_r; lia.
Qed.

Lemma Zdigits2_mul_pow2 (m k : Z) :
  0 < m -> 0 <= k -> Zdigits2 (m * 2 ^ k) = Zdigits2 m + k.
Proof.
  intros Hm Hk. destruct (Zdigits2_bounds m Hm) as (Hd & Hlo & Hhi).
  assert (0 < 2 ^ k) by (apply Z.pow_pos_nonneg; lia).
  apply Zdigits2_unique; [lia|]. split.
  - replace (Zdigits2 m + k - 1) with (Zdigits2 m - 1 + k) by lia.
    rewrite Z.pow_add_r by lia. now apply Z.mul_le_mono_nonneg_r; [lia|].
  - rewrite Z.pow_add_r by lia. now apply Z.mul_lt_mono_pos_r.
Qed.

Lemma binary_round_spec (s : bool) (m : positive) (e B : Z) :
  Zpos m < 2 ^ (B - e) -> -1074 <= B <= 1023 ->
  valid_binary (binary_round prec emax s m e) = true
  /\ SFle_pow B (binary_round prec emax s m e).
Proof.
  intros Hb HB.
  assert (HeB : e <= B).
  { destruct (Z_le_gt_dec e B); [assumption|exfalso].
    rewrite Z.pow_neg_r in Hb by lia. lia. }
  unfold binary_round, shl_align. rewrite fexp_eq.
  remember (Zpos (digits2_pos m)) as d eqn:Ed.
  assert (Hd : d = Zdigits2 (Zpos m)) by (now subst).
  destruct (Z.max (d + e - 53) (-1074) - e) as [|k|k] eqn:K.
  - apply binary_round_aux_spec; try lia.
    rewrite fexp_eq, <- Hd. lia.
  - apply binary_round_aux_spec; try lia.
    rewrite fexp_eq, <- Hd. lia.
  - assert (Hx : Zpos (Pos.iter xO m k) = Zpos m * 2 ^ Zpos k)
      by apply iter_xO.
    assert (P : 0 < 2 ^ Zpos k) by (apply Z.pow_pos_nonneg; lia).
    apply binary_round_aux_spec; try lia.
    + rewrite fexp_eq, Hx, Zdigits2_mul_pow2, <- Hd by lia. lia.
    + rewrite Hx.
      replace (B - Z.max (d + e - 53) (-1074)) with (B - e + Zpos k) by lia.
      rewrite Z.pow_add_r by lia. now apply Z.mul_lt_mono_pos_r.
Qed.

Lemma binary_normalize_spec (m e B : Z) (szero : bool) :
  Z.abs m < 2 ^ (B - e) -> -1074 <= B <= 1023 ->
  valid_binary (binary_normalize prec emax m e szero) = true
  /\ SFle_pow B (binary_normalize prec emax m e szero).
Proof.
  intros Hb HB. destruct m as [|p|p]; cbn [binary_normalize].
  - split; [reflexivity|exact I].
  - apply binary_round_spec; [exact Hb|exact HB].
  - apply binary_round_spec; [exact Hb|exact HB].
Qed.

(** *** Sums, differences and products *)

Lemma shl_align_fst (m : positive) (e ez : Z) :
  ez <= e -> Zpos (fst (shl_align m e ez)) = Zpos m * 2 ^ (e - ez).
Proof.
  intros H. unfold shl_align.
  destruct (ez - e) as [|k|k] eqn:K; cbn [fst]; try lia.
  - replace (e - ez) with 0 by lia. now rewrite Z.pow_0_r, Z.mul_1_r.
  - rewrite iter_xO. replace (e - ez) with (Zpos k) by lia. reflexivity.
Qed.

Lemma aligned_le (m : positive) (e ez B : Z) :
  ez <= e <= B -> Zpos m <= 2 ^ (B - e) ->
  Zpos (fst (shl_align m e ez)) <= 2 ^ (B - ez).
Proof.
  intros H Hm. rewrite shl_align_fst by lia.
  replace (B - ez) with (B - e + (e - ez)) by lia.
  rewrite Z.pow_add_r by lia.
  apply Z.mul_le_mono_nonneg_r; [apply Z.pow_nonneg; lia|assumption].
Qed.

Lemma pow2_sum_lt (a b : Z) :
  0 <= a -> 0 <= b -> a <> b -> 2 ^ a + 2 ^ b < 2 ^ (Z.max a b + 1).
Proof.
  intros Ha Hb N.
  assert (H : forall u v, 0 <= u < v -> 2 ^ u + 2 ^ v < 2 ^ (v + 1)).
  { intros u v Huv.
    assert (2 ^ u < 2 ^ v) by (apply Z.pow_lt_mono_r; lia).
    rewrite Z.pow_add_r, Z.pow_1_r by lia. lia. }
  destruct (Z_lt_le_dec a b).
  - rewrite Z.max_r by lia. apply H; lia.
  - rewrite Z.max_l by lia. rewrite Z.add_comm. apply H; lia.
Qed.

Lemma cond_Zopp_abs (s : bool) (m : Z) : Z.abs (cond_Zopp s m) = Z.abs m.
Proof. destruct s; cbn [cond_Zopp]; lia. Qed.

(** The aligned mantissas of two bounded numbers add up, with any signs, to
    less than twice the larger bound. *)
Lemma aligned_sum_lt (sx sy : bool) (mx my : positive) (ex ey B1 B2 : Z)
  (op : Z -> Z -> Z) :
  (forall u v, Z.abs (op u v) <= Z.abs u + Z.abs v) ->
  -1074 <= ex <= B1 -> Zpos mx <= 2 ^ (B1 - ex) ->
  -1074 <= ey <= B2 -> Zpos my <= 2 ^ (B2 - ey) ->
  B1 <> B2 ->
  Z.abs (op (cond_Zopp sx (Zpos (fst (shl_align mx ex (Z.min ex ey)))))
            (cond_Zopp sy (Zpos (fst (shl_align my ey (Z.min ex ey))))))
  < 2 ^ (Z.max B1 B2 + 1 - Z.min ex ey).
Proof.
  intros Hop Hex Hmx Hey Hmy N.
  pose proof (aligned_le mx ex (Z.min ex ey) B1 ltac:(lia) Hmx) as A1.
  pose proof (aligned_le my ey (Z.min ex ey) B2 ltac:(lia) Hmy) as A2.
  eapply Z.le_lt_trans; [apply Hop|].
  rewrite !cond_Zopp_abs. cbn [Z.abs].
  pose proof (pow2_sum_lt (B1 - Z.min ex ey) (B2 - Z.min ex ey)
                ltac:(lia) ltac:(lia) ltac:(lia)) as P.
  replace (Z.max (B1 - Z.min ex ey) (B2 - Z.min ex ey) + 1)
    with (Z.max B1 B2 + 1 - Z.min ex ey) in P by lia.
  lia.
Qed.

Lemma SFadd_spec (x y : spec_float) (B1 B2 : Z) :
  valid_binary x = true -> valid_binary y = true ->
  SFle_pow B1 x -> SFle_pow B2 y -> B1 <> B2 -> Z.max B1 B2 + 1 <= 1023 ->
  valid_binary (SF64add x y) = true
  /\ SFle_pow (Z.max B1 B2 + 1) (SF64add x y).
Proof.
  intros Vx Vy Hx Hy N HB.
  destruct x as [sx|sx| |sx mx ex], y as [sy|sy| |sy my ey];
    cbn [SFle_pow] in Hx, Hy; try tauto; unfold SF64add; cbn [SFadd].
  - split; [now destruct sx, sy|now destruct sx, sy].
  - split; [exact Vy|].
    apply (SFle_pow_weaken B2); [lia|exact Hy].
  - split; [exact Vx|].
    apply (SFle_pow_weaken B1); [lia|exact Hx].
  - destruct Hx as [Hex Hmx], Hy as [Hey Hmy].
    apply binary_normalize_spec; [|lia].
    apply (aligned_sum_lt sx sy mx my ex ey B1 B2 Z.add); try assumption.
    intros u v. lia.
Qed.

Lemma SFsub_spec (x y : spec_float) (B1 B2 : Z) :
  valid_binary x = true -> valid_binary y = true ->
  SFle_pow B1 x -> SFle_pow B2 y -> B1 <> B2 -> Z.max B1 B2 + 1 <= 1023 ->
  valid_binary (SF64sub x y) = true
  /\ SFle_pow (Z.max B1 B2 + 1) (SF64sub x y).
Proof.
  intros Vx Vy Hx Hy N HB.
  destruct x as [sx|sx| |sx mx ex], y as [sy|sy| |sy my ey];
    cbn [SFle_pow] in Hx, Hy; try tauto; unfold SF64sub; cbn [SFsub].
  - split; [now destruct sx, sy|now destruct sx, sy].
  - split; [exact Vy|].
    apply (SFle_pow_weaken B2 _ (S754_finite sy my ey)); [lia|exact Hy].
  - split; [exact Vx|].
    apply (SFle_pow_weaken B1); [lia|exact Hx].
  - destruct Hx as [Hex Hmx], Hy as [Hey Hmy].
    apply binary_normalize_spec; [|lia].
    apply (aligned_sum_lt sx sy mx my ex ey B1 B2 Z.sub); try assumption.
    intros u v. lia.
Qed.

Lemma SFmul_spec (x y : spec_float) (B1 B2 : Z) :
  valid_binary x = true -> valid_binary y = true ->
  SFle_pow B1 x -> SFle_pow B2 y -> -1074 <= B1 + B2 + 1 <= 1023 ->
  valid_binary (SF64mul x y) = true
  /\ SFle_pow (B1 + B2 + 1) (SF64mul x y).
Proof.
  intros Vx Vy Hx Hy HB.
  destruct x as [sx|sx| |sx mx ex], y as [sy|sy| |sy my ey];
    cbn [SFle_pow] in Hx, Hy; try tauto; unfold SF64mul; cbn [SFmul];
    try (split; [reflexivity|exact I]).
  destruct Hx as [Hex Hmx], Hy as [Hey Hmy].
  destruct (valid_finite sx mx ex Vx) as [Cx _].
  destruct (valid_finite sy my ey Vy) as [Cy _].
  destruct (Zdigits2_bounds (Zpos mx) ltac:(lia)) as (Dx & Lx & _).
  destruct (Zdigits2_bounds (Zpos my) ltac:(lia)) as (Dy & Ly & _).
  cbn [Zdigits2] in Dx, Lx, Dy, Ly.
  remember (Zpos (digits2_pos mx)) as dx.
  remember (Zpos (digits2_pos my)) as dy.
  assert (P0 : 0 < 2 ^ (dx - 1)) by (apply Z.pow_pos_nonneg; lia).
  assert (P1 : 0 < 2 ^ (dy - 1)) by (apply Z.pow_pos_nonneg; lia).
  assert (Lxy : 2 ^ (dx + dy - 2) <= Zpos mx * Zpos my).
  { replace (dx + dy - 2) with (dx - 1 + (dy - 1)) by lia.
    rewrite Z.pow_add_r by lia. apply Z.mul_le_mono_nonneg; lia. }
  pose proof (Zdigits2_gt_pow (Zpos mx * Zpos my) (dx + dy - 2)
                ltac:(lia) Lxy) as D.
  assert (Q0 : 0 < 2 ^ (B1 - ex)) by (apply Z.pow_pos_nonneg; lia).
  assert (Q1 : 0 < 2 ^ (B2 - ey)) by (apply Z.pow_pos_nonneg; lia).
  rewrite Pos2Z.inj_mul.
  apply binary_round_aux_spec; try lia.
  - rewrite fexp_eq. lia.
  - apply Z.le_lt_trans with (2 ^ (B1 - ex) * 2 ^ (B2 - ey));
      [apply Z.mul_le_mono_nonneg; lia|].
    rewrite <- Z.pow_add_r by lia. apply Z.pow_lt_mono_r; lia.
Qed.

(** The integer part of a bounded number. *)
Lemma shiftl_bound (m : positive) (e B : Z) :
  0 <= B -> e <= B -> Zpos m <= 2 ^ (B - e) ->
  0 <= Z.shiftl (Zpos m) e <= 2 ^ B.
Proof.
  intros HB He Hm. destruct (Z_le_gt_dec 0 e) as [P|N].
  - rewrite Z.shiftl_mul_pow2 by lia. split; [lia|].
    apply Z.le_trans with (2 ^ (B - e) * 2 ^ e);
      [apply Z.mul_le_mono_nonneg_r; [apply Z.pow_nonneg; lia|assumption]|].
    rewrite <- Z.pow_add_r by lia.
    replace (B - e + e) with B by lia. lia.
  - rewrite Z.shiftl_div_pow2 by lia.
    assert (0 < 2 ^ (- e)) by (apply Z.pow_pos_nonneg; lia).
    split; [apply Z.div_pos; lia|].
    apply Z.div_le_upper_bound; [assumption|].
    rewrite <- Z.pow_add_r by lia.
    now replace (- e + B) with (B - e) by lia.
Qed.

(** *** Quotients below one *)

(** The quotient of two integers [0 < m1 < m2], as the division of binary64
    prepares it for rounding. *)
Lemma div_core_spec (m1 m2 : Z) :
  0 < m1 < m2 ->
  let '(q, e, _) := SFdiv_core_binary prec emax m1 0 m2 0 in
  0 <= q /\ e <= fexp prec emax (Zdigits2 q + e) /\ q < 2 ^ (0 - e).
Proof.
  intros H. unfold SFdiv_core_binary. cbv zeta.
  destruct (Zdigits2_bounds m1 ltac:(lia)) as (D1 & L1 & U1).
  destruct (Zdigits2_bounds m2 ltac:(lia)) as (D2 & L2 & U2).
  assert (D12 : Zdigits2 m1 <= Zdigits2 m2)
    by (apply Zdigits2_le_pow; lia).
  remember (Zdigits2 m1) as d1. remember (Zdigits2 m2) as d2.
  rewrite !Z.add_0_r, fexp_eq. change (0 - 0) with 0.
  rewrite Z.min_l by lia.
  remember (Z.max (d1 - d2 - 53) (-1074)) as e eqn:Ee.
  destruct (0 - e) as [|s|s] eqn:S; try lia.
  rewrite Z.shiftl_mul_pow2 by lia.
  assert (Ps : 0 < 2 ^ Zpos s) by (apply Z.pow_pos_nonneg; lia).
  match goal with
  | |- context [IntDef.Z.div_eucl ?a ?b] =>
      pose proof (Z.div_mod a b ltac:(lia)) as DM;
      assert (Hq : fst (IntDef.Z.div_eucl a b) = a / b) by reflexivity;
      destruct (IntDef.Z.div_eucl a b) as [q r]
  end.
  cbn [fst] in Hq. clear DM.
  assert (Q0 : 0 <= q) by (rewrite Hq; apply Z.div_pos; nia).
  assert (Q1 : q < 2 ^ Zpos s).
  { rewrite Hq. apply Z.div_lt_upper_bound; [lia|].
    apply Z.mul_lt_mono_pos_r; lia. }
  split; [exact Q0|]. split; [|rewrite S; exact Q1].
  rewrite fexp_eq.
  destruct (Z.eq_dec e (-1074)) as [->|N]; [lia|].
  assert (Es : Zpos s = 53 + d2 - d1) by lia.
  assert (Q52 : 2 ^ 52 <= q).
  { rewrite Hq. apply Z.div_le_lower_bound; [lia|].
    apply Z.le_trans with (2 ^ d2 * 2 ^ 52);
      [apply Z.mul_le_mono_nonneg_r; [apply Z.pow_nonneg|]; lia|].
    apply Z.le_trans with (2 ^ (d1 - 1) * 2 ^ Zpos s);
      [|apply Z.mul_le_mono_nonneg_r; lia].
    rewrite <- !Z.pow_add_r by lia.
    apply Z.pow_le_mono_r; lia. }
  pose proof (Zdigits2_gt_pow q 52 ltac:(lia) Q52). lia.
Qed.

Lemma decimal_fraction_spec (s : bool) (n : positive) (p : Z) :
  Zpos n < p ->
  let '(q, e, l) := SFdiv_core_binary prec emax (Zpos n) 0 p 0 in
  valid_binary (binary_round_aux prec emax s q e l) = true
  /\ SFle_pow 0 (binary_round_aux prec emax s q e l).
Proof.
  intros H. pose proof (div_core_spec (Zpos n) p ltac:(lia)) as D.
  destruct (SFdiv_core_binary prec emax (Zpos n) 0 p 0) as [[q e] l].
  destruct D as (Q0 & Q1 & Q2).
  apply binary_round_aux_spec; try assumption; lia.
Qed.

End Rounding.

(** ** Family classifier *)

Module Classifier.

Import Script.
Open Scope float_scope.

(** Perihelion distance of one body, [q = a (1 - e)]. *)
Definition perihelion (b : body) : float := b_a b * (1 - b_e b).

(** The rows of the threshold table, one condition per family. *)
Definition in_class (f : family) (b : body) : bool :=
  let q := perihelion b in
  let a := b_a b in
  let e := b_e b in
  match f with
  | NEA => q <? 1.3
  | MBA => (1.3 <=? q) && (1.8 <=? a) && (a <=? 3.3)
  | Hilda =>
      (1.3 <=? q) && (3.7 <=? a) && (a <=? 4.0) && (0.07 <=? e) && (e <=? 0.3)
  | Trojan => (1.3 <=? q) && (5.0 <=? a) && (a <=? 5.4)
  | TNO => (1.3 <=? q) && (30.0 <=? a)
  | Others =>
      negb ((q <? 1.3)
            || (1.3 <=? q) && (1.8 <=? a) && (a <=? 3.3)
            || (1.3 <=? q) && (3.7 <=? a) && (a <=? 4.0) && (0.07 <=? e)
               && (e <=? 0.3)
            || (1.3 <=? q) && (5.0 <=? a) && (a <=? 5.4)
            || (1.3 <=? q) && (30.0 <=? a))
  end.

(** The five masked assignments of lines 145 to 149 seen from one body. *)
Definition paint (b : body) : string :=
  let c := col Others in
  let c := if in_class NEA b then col NEA else c in
  let c := if in_class MBA b then col MBA else c in
  let c := if in_class Hilda b then col Hilda else c in
  let c := if in_class Trojan b then col Trojan else c in
  let c := if in_class TNO b then col TNO else c in
  c.

(** A body with the given semi-major axis and eccentricity. *)
Definition body_ae (a e : float) : body := mk_body "K141R" 0 0 0 0 e a 0.

Lemma q_elementwise (bodies : list body) :
  q (arrays bodies) = map perihelion bodies.
Proof.
  unfold q, arrays, Np.mul, Np.rsub, Np.map2; simpl.
  induction bodies as [|b bs IH]; simpl; [reflexivity|].
  now rewrite IH.
Qed.

Lemma map2_map {A B C D : Type} (f : B -> C -> D) (g : A -> B) (h : A -> C)
  (l : list A) :
  Np.map2 f (map g l) (map h l) = map (fun x => f (g x) (h x)) l.
Proof.
  unfold Np.map2. induction l as [|x l IH]; simpl; [reflexivity|].
  now rewrite IH.
Qed.

Lemma masks_elementwise (bodies : list body) :
  mask_nea (arrays bodies) = map (in_class NEA) bodies
  /\ mask_mba (arrays bodies) = map (in_class MBA) bodies
  /\ mask_hilda (arrays bodies) = map (in_class Hilda) bodies
  /\ mask_trojan (arrays bodies) = map (in_class Trojan) bodies
  /\ mask_tno (arrays bodies) = map (in_class TNO) bodies.
Proof.
  unfold mask_nea, mask_mba, mask_hilda, mask_trojan, mask_tno.
  rewrite q_elementwise.
  unfold Np.lt, Np.ge, Np.le, Np.and_, arrays; simpl.
  rewrite !map_map, !map2_map.
  repeat split; reflexivity.
Qed.

Lemma assign_mask_map {A B : Type} (f : A -> B) (m : A -> bool) (v : B)
  (l : list A) :
  Np.assign_mask (map f l) (map m l) v
  = map (fun x => if m x then v else f x) l.
Proof. unfold Np.assign_mask. now rewrite map2_map. Qed.

Lemma full_map {A B : Type} (v : B) (l : list A) :
  Np.full (List.length l) v = map (fun _ => v) l.
Proof.
  unfold Np.full. induction l as [|x l IH]; simpl; [reflexivity|].
  now rewrite IH.
Qed.

Lemma colors_elementwise (bodies : list body) :
  colors (arrays bodies) = map paint bodies.
Proof.
  unfold colors.
  destruct (masks_elementwise bodies) as (-> & -> & -> & -> & ->).
  replace (List.length (a (arrays bodies))) with (List.length bodies)
    by (unfold arrays; simpl; now rewrite length_map).
  rewrite full_map, !assign_mask_map. reflexivity.
Qed.

(** No two of the five named conditions hold for the same body. *)
Lemma classes_disjoint (b : body) (f g : family) :
  f <> g -> f <> Others -> g <> Others ->
  in_class f b && in_class g b = false.
Proof.
  intros Hfg Hf Hg.
  assert (Hq : (perihelion b <? 1.3) && (1.3 <=? perihelion b) = false).
  { destruct (perihelion b <? 1.3) eqn:H; [|reflexivity].
    now rewrite (FloatOrder.ltb_not_geb _ _ H). }
  pose proof (FloatOrder.leb_disjoint 3.3 3.7 (b_a b) eq_refl) as H1.
  pose proof (FloatOrder.leb_disjoint 3.3 5.0 (b_a b) eq_refl) as H2.
  pose proof (FloatOrder.leb_disjoint 3.3 30.0 (b_a b) eq_refl) as H3.
  pose proof (FloatOrder.leb_disjoint 4.0 5.0 (b_a b) eq_refl) as H4.
  pose proof (FloatOrder.leb_disjoint 4.0 30.0 (b_a b) eq_refl) as H5.
  pose proof (FloatOrder.leb_disjoint 5.4 30.0 (b_a b) eq_refl) as H6.
  destruct f, g; try congruence; cbn [in_class];
    destruct (perihelion b <? 1.3), (1.3 <=? perihelion b);
    try discriminate Hq; try reflexivity;
    destruct (b_a b <=? 3.3), (3.7 <=? b_a b); try discriminate H1;
    destruct (5.0 <=? b_a b); try discriminate H2; try discriminate H4;
    destruct (30.0 <=? b_a b); try discriminate H3;
    destruct (b_a b <=? 4.0); try discriminate H4; try discriminate H5;
    destruct (b_a b <=? 5.4); try discriminate H6;
    simpl; try reflexivity;
    repeat rewrite andb_false_r; try reflexivity;
    destruct (1.8 <=? b_a b); reflexivity.
Qed.

Lemma in_class_Others (b : body) :
  in_class Others b
  = negb (in_class NEA b || in_class MBA b || in_class Hilda b
          || in_class Trojan b || in_class TNO b).
Proof. reflexivity. Qed.

(** The colour of a body is that of family [f] exactly when the body meets
    the condition of [f]. *)
Lemma paint_table (b : body) (f : family) :
  paint b = col f <-> in_class f b = true.
Proof.
  pose proof (classes_disjoint b) as D.
  pose proof (D NEA MBA) as D1. pose proof (D NEA Hilda) as D2.
  pose proof (D NEA Trojan) as D3. pose proof (D NEA TNO) as D4.
  pose proof (D MBA Hilda) as D5. pose proof (D MBA Trojan) as D6.
  pose proof (D MBA TNO) as D7. pose proof (D Hilda Trojan) as D8.
  pose proof (D Hilda TNO) as D9. pose proof (D Trojan TNO) as D10.
  clear D. unfold paint.
  destruct f; try rewrite in_class_Others;
    destruct (in_class NEA b), (in_class MBA b), (in_class Hilda b),
      (in_class Trojan b), (in_class TNO b); simpl in *;
    try (split; [discriminate | discriminate]);
    try (split; reflexivity);
    try (exfalso;
         first [ specialize (D1 ltac:(discriminate) ltac:(discriminate) ltac:(discriminate)); discriminate D1
               | specialize (D2 ltac:(discriminate) ltac:(discriminate) ltac:(discriminate)); discriminate D2
               | specialize (D3 ltac:(discriminate) ltac:(discriminate) ltac:(discriminate)); discriminate D3
               | specialize (D4 ltac:(discriminate) ltac:(discriminate) ltac:(discriminate)); discriminate D4
               | specialize (D5 ltac:(discriminate) ltac:(discriminate) ltac:(discriminate)); discriminate D5
               | specialize (D6 ltac:(discriminate) ltac:(discriminate) ltac:(discriminate)); discriminate D6
               | specialize (D7 ltac:(discriminate) ltac:(discriminate) ltac:(discriminate)); discriminate D7
               | specialize (D8 ltac:(discriminate) ltac:(discriminate) ltac:(discriminate)); discriminate D8
               | specialize (D9 ltac:(discriminate) ltac:(discriminate) ltac:(discriminate)); discriminate D9
               | specialize (D10 ltac:(discriminate) ltac:(discriminate) ltac:(discriminate)); discriminate D10 ]).
Qed.

End Classifier.

Module ClassifierCounts.

Import Script Classifier.
Open Scope Z_scope.

Definition members (f : family) (bodies : list body) : Z :=
  Z.of_nat (List.length (filter (in_class f) bodies)).

Lemma sum_mask {A : Type} (p : A -> bool) (l : list A) :
  Np.sum (map p l) = Z.of_nat (List.length (filter p l)).
Proof.
  unfold Np.sum. f_equal.
  induction l as [|x l IH]; simpl; [reflexivity|].
  destruct (p x); simpl; lia.
Qed.

Lemma count_painted (f : family) (bodies : list body) :
  Z.of_nat (count_occ string_dec (map paint bodies) (col f)) = members f bodies.
Proof.
  unfold members. f_equal.
  induction bodies as [|b bs IH]; simpl; [reflexivity|].
  destruct (string_dec (paint b) (col f)) as [E|E];
    destruct (in_class f b) eqn:C; simpl; try lia.
  - apply paint_table in E. congruence.
  - apply paint_table in C. congruence.
Qed.

(** Every body meets the condition of one family and of no other. *)
Lemma one_class (b : body) :
  exists f, in_class f b = true /\ forall g, in_class g b = true -> g = f.
Proof.
  assert (T : forall f, in_class f b = true -> paint b = col f)
    by (intros f; apply paint_table).
  assert (I : forall f g, col f = col g -> f = g)
    by (intros [] []; simpl; congruence).
  assert (E : exists f, paint b = col f).
  { unfold paint.
    destruct (in_class TNO b); [now exists TNO|].
    destruct (in_class Trojan b); [now exists Trojan|].
    destruct (in_class Hilda b); [now exists Hilda|].
    destruct (in_class MBA b); [now exists MBA|].
    destruct (in_class NEA b); [now exists NEA|now exists Others]. }
  destruct E as [f E]. exists f. split.
  - now apply paint_table.
  - intros g Hg. apply I. rewrite <- E. symmetry. now apply T.
Qed.

Lemma members_total (bodies : list body) :
  members NEA bodies + members MBA bodies + members Hilda bodies
  + members Trojan bodies + members TNO bodies + members Others bodies
  = Z.of_nat (List.length bodies).
Proof.
  unfold members.
  induction bodies as [|b bs IH]; [reflexivity|].
  cbn [filter List.length].
  destruct (one_class b) as [f [Hf U]].
  assert (N : forall g, g <> f -> in_class g b = false).
  { intros g Hg. destruct (in_class g b) eqn:C; [|reflexivity].
    elim Hg. now apply U. }
  destruct f; rewrite Hf;
    repeat match goal with
    | |- context [in_class ?g b] =>
        rewrite (N g) by discriminate
    end; cbn [List.length]; lia.
Qed.

End ClassifierCounts.

(** ** Kepler solver *)

Module Kepler.

Open Scope float_scope.

Section Solver.

Variables np_sin np_cos : float -> float.

(** The Newton-Raphson update for one body,
    [E - (E - e sin E - M) / (1 - e cos E)]. *)
Definition newton (M e E : float) : float :=
  E - (E - e * np_sin E - M) / (1 - e * np_cos E).

Local Abbreviation kepler_step := (Common.kepler_step np_sin np_cos).
Local Abbreviation solve_kepler_eq := (Common.solve_kepler_eq np_sin np_cos).

Lemma map2_pairs {A B C : Type} (f : A -> B -> C) (xs : list A) (ys : list B) :
  Np.map2 f xs ys = map (fun p => f (fst p) (snd p)) (combine xs ys).
Proof. reflexivity. Qed.

Lemma fst_combine {A B : Type} (xs : list A) (ys : list B) :
  List.length xs = List.length ys -> map fst (combine xs ys) = xs.
Proof.
  revert ys. induction xs as [|x xs IH]; intros [|y ys] H; simpl in *;
    try discriminate; [reflexivity|].
  f_equal. apply IH. now injection H.
Qed.

Lemma snd_combine {A B : Type} (xs : list A) (ys : list B) :
  List.length xs = List.length ys -> map snd (combine xs ys) = ys.
Proof.
  revert ys. induction xs as [|x xs IH]; intros [|y ys] H; simpl in *;
    try discriminate; [reflexivity|].
  f_equal. apply IH. now injection H.
Qed.

(** One pass of the loop updates every element by [newton]. *)
Lemma kepler_step_pairs (l : list (float * float)) (g : float * float -> float) :
  kepler_step (map fst l) (map snd l) (map g l)
  = map (fun p => newton (fst p) (snd p) (g p)) l.
Proof.
  unfold Common.kepler_step, Np.sub, Np.div, Np.mul, Np.rsub.
  rewrite !map_map.
  repeat (rewrite ?Classifier.map2_map, ?map_map).
  reflexivity.
Qed.

Lemma range_loop {A : Type} (f : A -> A) (n start : nat) (x : A) :
  fold_left (fun acc (_ : nat) => f acc) (seq start n) x = Nat.iter n f x.
Proof.
  revert start x. induction n as [|n IH]; intros start x; [reflexivity|].
  cbn [seq fold_left]. rewrite IH. symmetry. apply Nat.iter_succ_r.
Qed.

Lemma solve_unfold (M e : Np.ndarray) (max_iter : nat) :
  solve_kepler_eq M e max_iter = Nat.iter max_iter (kepler_step M e) M.
Proof. unfold Common.solve_kepler_eq. apply range_loop. Qed.

Lemma solve_pairs (l : list (float * float)) (max_iter : nat) :
  solve_kepler_eq (map fst l) (map snd l) max_iter
  = map (fun p => Nat.iter max_iter (newton (fst p) (snd p)) (fst p)) l.
Proof.
  rewrite solve_unfold.
  induction max_iter as [|k IH]; [reflexivity|].
  rewrite Nat.iter_succ, IH.
  apply (kepler_step_pairs l
           (fun p => Nat.iter k (newton (fst p) (snd p)) (fst p))).
Qed.

Lemma solve_map {A : Type} (f g : A -> float) (l : list A) (max_iter : nat) :
  solve_kepler_eq (map f l) (map g l) max_iter
  = map (fun a => Nat.iter max_iter (newton (f a) (g a)) (f a)) l.
Proof.
  pose proof (solve_pairs (map (fun a => (f a, g a)) l) max_iter) as H.
  rewrite !map_map in H. exact H.
Qed.

Lemma solve_elementwise (M e : Np.ndarray) (max_iter : nat) :
  List.length M = List.length e ->
  solve_kepler_eq M e max_iter
  = Np.map2 (fun m ec => Nat.iter max_iter (newton m ec) m) M e.
Proof.
  intros H.
  transitivity (solve_kepler_eq (map fst (combine M e)) (map snd (combine M e))
                  max_iter).
  - now rewrite fst_combine, snd_combine.
  - rewrite solve_pairs. reflexivity.
Qed.

(** At [M = 0] the update maps [E = 0] to itself. *)
Lemma newton_zero (e : float) :
  np_sin 0 = 0 -> np_cos 0 = 1 ->
  (0 <=? e) = true -> (e <? 1) = true ->
  newton 0 e 0 = 0.
Proof.
  intros Hs Hc H0 H1. unfold newton. rewrite Hs, Hc.
  apply Prim2SF_inj.
  rewrite leb_spec in H0. rewrite ltb_spec in H1.
  rewrite sub_spec, div_spec, !sub_spec, !mul_spec.
  change (Prim2SF 0) with (S754_zero false) in *.
  change (Prim2SF 1) with Rounding.SFone64 in *.
  pose proof (Prim2SF_valid e) as V.
  destruct (Prim2SF e) as [s|s| |s m ex].
  - destruct s; reflexivity.
  - destruct s; discriminate.
  - discriminate.
  - destruct s; [discriminate H0|].
    rewrite (Rounding.SFmul_one false m ex V).
    pose proof (Rounding.SFsub_one_number m ex V H1) as N.
    destruct (SF64sub Rounding.SFone64 (S754_finite false m ex))
      as [sd|sd| |sd md ed]; try discriminate N; destruct sd; reflexivity.
Qed.

Lemma iter_newton_zero (e : float) (k : nat) :
  np_sin 0 = 0 -> np_cos 0 = 1 ->
  (0 <=? e) = true -> (e <? 1) = true ->
  Nat.iter k (newton 0 e) 0 = 0.
Proof.
  intros Hs Hc H0 H1. induction k as [|k IH]; [reflexivity|].
  rewrite Nat.iter_succ, IH. now apply newton_zero.
Qed.

End Solver.

End Kepler.

(** ** Epoch decoder *)

Module Decoder.

Open Scope string_scope.
Open Scope Z_scope.

(** *** Characters *)

Definition all_ascii : list ascii := map ascii_of_nat (seq 0 256).

Lemma in_all_ascii (c : ascii) : In c all_ascii.
Proof.
  unfold all_ascii. rewrite <- (ascii_nat_embedding c).
  apply in_map, in_seq. pose proof (nat_ascii_bounded c). lia.
Qed.

(** A property of characters that holds on each of the 256 holds on all. *)
Lemma ascii_forall (P : ascii -> bool) :
  forallb P all_ascii = true -> forall c, P c = true.
Proof.
  intros H c. rewrite forallb_forall in H. apply H, in_all_ascii.
Qed.

Lemma ascii_forall2 (P : ascii -> ascii -> bool) :
  forallb (fun c => forallb (P c) all_ascii) all_ascii = true ->
  forall c d, P c d = true.
Proof.
  intros H c d.
  apply (ascii_forall (P c)).
  apply (ascii_forall (fun c => forallb (P c) all_ascii) H).
Qed.

(** The century letters the decoder accepts, in either case. *)
Definition is_century_letter (c : ascii) : bool :=
  Py.between "I" (Py.upper_char c) "Z".

(** The characters [base36_to_int] accepts. *)
Definition is_base36 (c : ascii) : bool :=
  Py.between "0" (Py.upper_char c) "9" || Py.between "A" (Py.upper_char c) "Z".

(** The value of a decimal or base-36 digit. *)
Definition digit_value (c : ascii) : Z := Py.ord c - Py.ord "0".

Definition base36_value (c : ascii) : Z :=
  if Py.isdigit c then Py.ord c - Py.ord "0"
  else Py.ord (Py.upper_char c) - Py.ord "A" + 10.

Definition plain (c : ascii) : bool :=
  negb (Py.isspace c) && negb (Ascii.eqb c ".") && negb (Ascii.eqb c "-")
  && negb (Ascii.eqb c "+") && negb (Ascii.eqb c "_").

Lemma letter_facts (c : ascii) :
  is_century_letter c = true ->
  plain c = true /\ Py.isdigit c = false /\ is_base36 c = true
  /\ 1800 <= Common.century_of (Py.upper_char c) <= 3500.
Proof.
  intros H.
  pose proof (ascii_forall
    (fun c => implb (is_century_letter c)
       (plain c && negb (Py.isdigit c) && is_base36 c
        && (1800 <=? Common.century_of (Py.upper_char c))
        && (Common.century_of (Py.upper_char c) <=? 3500)))
    ltac:(vm_compute; reflexivity) c) as E.
  cbv beta in E. rewrite H in E. cbn [implb] in E.
  rewrite !andb_true_iff, negb_true_iff, !Z.leb_le in E. tauto.
Qed.

Lemma digit_facts (c : ascii) :
  Py.isdigit c = true ->
  plain c = true /\ is_base36 c = true /\ is_century_letter c = false
  /\ Py.lower_char c = c /\ Py.upper_char c = c
  /\ 0 <= digit_value c <= 9 /\ base36_value c = digit_value c
  /\ Ascii.eqb c "n" = false /\ Ascii.eqb c "a" = false
  /\ Ascii.eqb c "e" = false /\ Ascii.eqb c "E" = false.
Proof.
  intros H.
  pose proof (ascii_forall
    (fun c => implb (Py.isdigit c)
       (plain c && is_base36 c && negb (is_century_letter c)
        && Ascii.eqb (Py.lower_char c) c && Ascii.eqb (Py.upper_char c) c
        && (0 <=? digit_value c) && (digit_value c <=? 9)
        && (base36_value c =? digit_value c)
        && negb (Ascii.eqb c "n") && negb (Ascii.eqb c "a")
        && negb (Ascii.eqb c "e") && negb (Ascii.eqb c "E")))
    ltac:(vm_compute; reflexivity) c) as E.
  cbv beta in E. rewrite H in E. cbn [implb] in E.
  rewrite !andb_true_iff, !negb_true_iff, !Z.leb_le, Z.eqb_eq,
    !Ascii.eqb_eq in E.
  tauto.
Qed.

Lemma base36_facts (c : ascii) :
  is_base36 c = true ->
  plain c = true /\ 0 <= base36_value c <= 35
  /\ Common.base36_digit (Py.upper_char c) = Ok (base36_value c).
Proof.
  intros H.
  pose proof (ascii_forall
    (fun c => implb (is_base36 c)
       (plain c && (0 <=? base36_value c) && (base36_value c <=? 35)
        && match Common.base36_digit (Py.upper_char c) with
           | Ok v => v =? base36_value c
           | Raise _ => false
           end))
    ltac:(vm_compute; reflexivity) c) as E.
  cbv beta in E. rewrite H in E. cbn [implb] in E.
  rewrite !andb_true_iff, !Z.leb_le in E.
  destruct E as [[[E1 E2] E3] E4].
  destruct (Common.base36_digit (Py.upper_char c)); [|discriminate].
  apply Z.eqb_eq in E4. subst. auto.
Qed.

(** A character outside the base-36 alphabet makes [base36_digit] raise. *)
Lemma base36_digit_raises (c : ascii) :
  is_base36 c = false ->
  Common.base36_digit (Py.upper_char c)
  = Raise (ValueError ("Invalid base36 character: " ++ String (Py.upper_char c) "")).
Proof.
  unfold is_base36, Common.base36_digit. intros H.
  apply orb_false_iff in H. destruct H as [-> ->]. reflexivity.
Qed.

Lemma plain_facts (c : ascii) :
  plain c = true ->
  Py.isspace c = false /\ Ascii.eqb c "." = false /\ Ascii.eqb c "-" = false
  /\ Ascii.eqb c "+" = false /\ Ascii.eqb c "_" = false.
Proof.
  unfold plain. rewrite !andb_true_iff, !negb_true_iff. tauto.
Qed.

(** *** Strings *)

Fixpoint every (P : ascii -> bool) (s : string) : bool :=
  match s with
  | EmptyString => true
  | String c s' => P c && every P s'
  end.

Lemma every_impl (P Q : ascii -> bool) (s : string) :
  (forall c, P c = true -> Q c = true) -> every P s = true -> every Q s = true.
Proof.
  intros I. induction s as [|c s IH]; simpl; [reflexivity|].
  rewrite !andb_true_iff. intros [H1 H2]. auto.
Qed.

Lemma every_app (P : ascii -> bool) (s t : string) :
  every P (s ++ t) = every P s && every P t.
Proof.
  induction s as [|c s IH]; simpl; [reflexivity|].
  now rewrite IH, andb_assoc.
Qed.

Lemma rstrip_plain (s : string) : every plain s = true -> Py.rstrip s = s.
Proof.
  induction s as [|c s IH]; simpl; [reflexivity|].
  rewrite andb_true_iff. intros [Hc Hs].
  rewrite (IH Hs). destruct s; [|reflexivity].
  now destruct (plain_facts c Hc) as [-> _].
Qed.

Lemma strip_plain (s : string) : every plain s = true -> Py.strip s = s.
Proof.
  intros H. unfold Py.strip.
  replace (Py.lstrip s) with s; [now apply rstrip_plain|].
  destruct s as [|c s]; [reflexivity|]. simpl in *.
  apply andb_true_iff in H. destruct H as [Hc _].
  now destruct (plain_facts c Hc) as [-> _].
Qed.

(** [strip] is idempotent. *)
Lemma rstrip_last (s : string) :
  match Py.rstrip s with
  | EmptyString => True
  | String c r => Py.rstrip (String c r) = String c r
  end.
Proof.
  induction s as [|c s IH]; simpl; [exact I|].
  destruct (Py.rstrip s) as [|d r] eqn:E.
  - destruct (Py.isspace c) eqn:Hc; [exact I|]. simpl. now rewrite Hc.
  - change (Py.rstrip (String c (String d r))) with
      (match Py.rstrip (String d r) with
       | EmptyString =>
           if Py.isspace c then EmptyString else String c EmptyString
       | u => String c u
       end).
    now rewrite IH.
Qed.

Lemma rstrip_idem (s : string) : Py.rstrip (Py.rstrip s) = Py.rstrip s.
Proof.
  pose proof (rstrip_last s) as H.
  destruct (Py.rstrip s); [reflexivity|exact H].
Qed.

Lemma lstrip_head (s : string) :
  match Py.lstrip s with
  | EmptyString => True
  | String c _ => Py.isspace c = false
  end.
Proof.
  induction s as [|c s IH]; simpl; [exact I|].
  destruct (Py.isspace c) eqn:Hc; [exact IH|exact Hc].
Qed.

Lemma rstrip_head (c : ascii) (s : string) :
  Py.isspace c = false ->
  exists r, Py.rstrip (String c s) = String c r.
Proof.
  intros Hc. simpl. destruct (Py.rstrip s).
  - rewrite Hc. now exists "".
  - now eexists.
Qed.

Lemma strip_head (s : string) :
  match Py.strip s with
  | EmptyString => True
  | String c _ => Py.isspace c = false
  end.
Proof.
  unfold Py.strip. pose proof (lstrip_head s) as H.
  destruct (Py.lstrip s) as [|c t]; [exact I|].
  destruct (rstrip_head c t H) as [r ->]. exact H.
Qed.

Lemma strip_idem (s : string) : Py.strip (Py.strip s) = Py.strip s.
Proof.
  pose proof (strip_head s) as H.
  unfold Py.strip at 1.
  destruct (Py.strip s) as [|c t] eqn:E; [reflexivity|].
  simpl Py.lstrip. rewrite H.
  rewrite <- E. unfold Py.strip. apply rstrip_idem.
Qed.

(** *** The spaces that [int] and [float] skip *)

Lemma space_is_whitespace (c : ascii) :
  Py.Py_ISSPACE c = true -> Py.isspace c = true.
Proof.
  intros H.
  pose proof (ascii_forall
    (fun c => implb (Py.Py_ISSPACE c) (Py.isspace c))
    ltac:(vm_compute; reflexivity) c) as E.
  cbv beta in E. now rewrite H in E.
Qed.

Lemma not_space (c : ascii) : Py.isspace c = false -> Py.Py_ISSPACE c = false.
Proof.
  intros H. destruct (Py.Py_ISSPACE c) eqn:E; [|reflexivity].
  apply space_is_whitespace in E. congruence.
Qed.

Lemma rskip_of_rstrip (t : string) : Py.rstrip t = t -> Py.rskip t = t.
Proof.
  induction t as [|c t IH]; [reflexivity|].
  cbn [Py.rstrip Py.rskip].
  destruct (Py.rstrip t) as [|d r] eqn:E.
  - destruct (Py.isspace c) eqn:Hc; [discriminate|]. intros [= <-].
    cbn [Py.rskip]. now rewrite (not_space c Hc).
  - intros H. injection H as Ht. subst t. now rewrite (IH eq_refl).
Qed.

(** A stripped string has no spaces left to skip. *)
Lemma skip_strip (s : string) : Py.skip_spaces (Py.strip s) = Py.strip s.
Proof.
  unfold Py.skip_spaces.
  pose proof (strip_head s) as H. pose proof (strip_idem s) as I.
  destruct (Py.strip s) as [|c t] eqn:E; [reflexivity|].
  cbn [Py.lskip]. rewrite (not_space c H).
  apply rskip_of_rstrip.
  unfold Py.strip in I. cbn [Py.lstrip] in I. now rewrite H in I.
Qed.

Lemma skip_plain (s : string) : every plain s = true -> Py.skip_spaces s = s.
Proof. intros H. rewrite <- (strip_plain s H). apply skip_strip. Qed.

(** *** The numeric attempt *)

Definition not_a_float : result float :=
  Raise (ValueError "could not convert string to float").

(** A string that starts with a century letter and a digit is no literal
    of a float. *)
Lemma float_of_packed (s : string) (c y : ascii) (r : string) :
  Py.skip_spaces s = String c (String y r) ->
  is_century_letter c = true -> Py.isdigit y = true ->
  Py.float_of_str s = not_a_float.
Proof.
  intros Hs Hc Hy. unfold Py.float_of_str. rewrite Hs.
  destruct (letter_facts c Hc) as (Pc & Dc & _).
  destruct (plain_facts c Pc) as (_ & Edot & Eminus & Eplus & Eus).
  destruct (digit_facts y Hy) as (_ & _ & _ & Ly & _ & _ & _ & En & Ea & _).
  unfold Py.sign. rewrite Eminus, Eplus.
  cbn [Py.lower String.eqb]. rewrite Ly, En, Ea.
  destruct (Ascii.eqb (Py.lower_char c) "i"), (Ascii.eqb (Py.lower_char c) "n");
    cbn [orb]; cbn [Py.digitpart]; rewrite Dc, Eus; cbn [andb];
    rewrite Edot; reflexivity.
Qed.

(** *** Pieces of a packed code *)

Lemma contains_plain (s : string) :
  every plain s = true -> Py.contains "." s = false.
Proof.
  induction s as [|c s IH]; cbn [every Py.contains]; [reflexivity|].
  rewrite andb_true_iff. intros [Hc Hs].
  destruct (plain_facts c Hc) as (_ & E & _).
  rewrite Ascii.eqb_sym, E. now apply IH.
Qed.

Lemma contains_app_dot (s t : string) :
  Py.contains "." (s ++ String "." t) = true.
Proof.
  induction s as [|c s IH]; cbn [append Py.contains]; [reflexivity|].
  rewrite IH. apply orb_true_r.
Qed.

Lemma split_plain (s : string) :
  every plain s = true -> Py.split "." s = [s].
Proof.
  induction s as [|c s IH]; cbn [every Py.split]; [reflexivity|].
  rewrite andb_true_iff. intros [Hc Hs].
  destruct (plain_facts c Hc) as (_ & -> & _).
  now rewrite (IH Hs).
Qed.

Lemma split_app_dot (s t : string) :
  every plain s = true ->
  Py.split "." (s ++ String "." t) = s :: Py.split "." t.
Proof.
  induction s as [|c s IH]; cbn [every append Py.split]; [reflexivity|].
  rewrite andb_true_iff. intros [Hc Hs].
  destruct (plain_facts c Hc) as (_ & -> & _).
  now rewrite (IH Hs).
Qed.

Fixpoint digit_values (s : string) : list Z :=
  match s with
  | EmptyString => []
  | String c s' => digit_value c :: digit_values s'
  end.

Lemma digitpart_digits (s : string) (seen : bool) :
  every Py.isdigit s = true -> Py.digitpart s seen = (digit_values s, "").
Proof.
  revert seen. induction s as [|c s IH]; intros seen; simpl; [reflexivity|].
  rewrite andb_true_iff. intros [Hc Hs].
  now rewrite Hc, (IH true Hs).
Qed.

Lemma digits_plain (s : string) : every Py.isdigit s = true -> every plain s = true.
Proof. apply every_impl. intros c H. now destruct (digit_facts c H). Qed.

(** [int] of two decimal digits. *)
Lemma int_two_digits (y1 y2 : ascii) :
  Py.isdigit y1 = true -> Py.isdigit y2 = true ->
  Py.int (String y1 (String y2 "")) = Ok (10 * digit_value y1 + digit_value y2).
Proof.
  intros H1 H2. unfold Py.int.
  rewrite skip_plain by (apply digits_plain; simpl; now rewrite H1, H2).
  destruct (digit_facts y1 H1) as (P1 & _).
  destruct (plain_facts y1 P1) as (_ & _ & Eminus & Eplus & _).
  unfold Py.sign. rewrite Eminus, Eplus.
  rewrite digitpart_digits by (simpl; now rewrite H1, H2).
  cbn [digit_values Py.decimal fold_left]. f_equal. lia.
Qed.

(** [base36_to_int] of two base-36 digits. *)
Lemma base36_two_digits (d1 d2 : ascii) :
  is_base36 d1 = true -> is_base36 d2 = true ->
  Common.base36_to_int (String d1 (String d2 ""))
  = Ok (36 * base36_value d1 + base36_value d2).
Proof.
  intros H1 H2. unfold Common.base36_to_int. cbn [Py.upper Common.base36_loop].
  destruct (base36_facts d1 H1) as (_ & _ & ->).
  destruct (base36_facts d2 H2) as (_ & _ & ->).
  cbn [bind]. f_equal. lia.
Qed.

(** *** Calendar *)

(** [datetime.fromordinal(n)] *)
Definition fromordinal (n : Z) : Py.datetime :=
  let '(y, m, d) := Py.ord2ymd n in Py.mk_datetime y m d 0 0 0 0.

Definition zrange (lo : Z) (n : nat) : list Z :=
  map (fun k => lo + Z.of_nat k) (seq 0 n).

Lemma zrange_forall (P : Z -> bool) (lo : Z) (n : nat) :
  forallb P (zrange lo n) = true ->
  forall v, lo <= v < lo + Z.of_nat n -> P v = true.
Proof.
  intros H v Hv. rewrite forallb_forall in H. apply H.
  unfold zrange. apply in_map_iff. exists (Z.to_nat (v - lo)). split; [lia|].
  apply in_seq. lia.
Qed.

Definition days_in_year (y : Z) : Z := if Py.is_leap y then 366 else 365.

Lemma days_before_year_mono (y1 y2 : Z) :
  y1 <= y2 -> Py.days_before_year y1 <= Py.days_before_year y2.
Proof.
  unfold Py.days_before_year. intros H.
  Z.to_euclidean_division_equations; lia.
Qed.

Lemma days_before_next_year (y : Z) :
  Py.days_before_year (y + 1) = Py.days_before_year y + days_in_year y.
Proof.
  unfold Py.days_before_year, days_in_year, Py.is_leap.
  destruct (y mod 4 =? 0) eqn:E4; destruct (y mod 100 =? 0) eqn:E100;
    destruct (y mod 400 =? 0) eqn:E400; cbn [andb orb negb];
    rewrite ?Z.eqb_eq, ?Z.eqb_neq in *;
    Z.to_euclidean_division_equations; lia.
Qed.

Lemma new_year_ordinal (y : Z) : Py.ymd2ord y 1 1 = Py.days_before_year y + 1.
Proof. unfold Py.ymd2ord, Py.days_before_month. simpl. lia. Qed.

(** The year of the day with ordinal [n] is the one whose days include [n]. *)
Lemma year_of_ordinal (n : Z) :
  1 <= n ->
  Py.days_before_year (Py.year (fromordinal n)) < n
  /\ n <= Py.days_before_year (Py.year (fromordinal n) + 1).
Proof.
  intros Hn.
  assert (Py.year (fromordinal n) = fst (fst (Py.ord2ymd n))) as ->
    by (unfold fromordinal; now destruct (Py.ord2ymd n) as [[? ?] ?]).
  unfold Py.ord2ymd, Py.days_before_year, Py.DI400Y, Py.DI100Y, Py.DI4Y.
  set (n0 := n - 1).
  set (n400 := n0 / 146097). set (r1 := n0 mod 146097).
  set (n100 := r1 / 36524). set (r2 := r1 mod 36524).
  set (n4 := r2 / 1461). set (r3 := r2 mod 1461).
  set (n1 := r3 / 365). set (r4 := r3 mod 365).
  assert (E1 : n0 = 146097 * n400 + r1 /\ 0 <= r1 < 146097)
    by (subst n400 r1; split;
        [apply Z.div_mod; lia | apply Z.mod_pos_bound; lia]).
  assert (E2 : r1 = 36524 * n100 + r2 /\ 0 <= r2 < 36524)
    by (subst n100 r2; split;
        [apply Z.div_mod; lia | apply Z.mod_pos_bound; lia]).
  assert (E3 : r2 = 1461 * n4 + r3 /\ 0 <= r3 < 1461)
    by (subst n4 r3; split;
        [apply Z.div_mod; lia | apply Z.mod_pos_bound; lia]).
  assert (E4 : r3 = 365 * n1 + r4 /\ 0 <= r4 < 365)
    by (subst n1 r4; split;
        [apply Z.div_mod; lia | apply Z.mod_pos_bound; lia]).
  clearbody n400 r1 n100 r2 n4 r3 n1 r4.
  destruct ((n1 =? 4) || (n100 =? 4)) eqn:C.
  - cbn [fst]. apply orb_true_iff in C. rewrite !Z.eqb_eq in C.
    Z.to_euclidean_division_equations; lia.
  - apply orb_false_iff in C. rewrite !Z.eqb_neq in C.
    match goal with |- context [if ?c then _ else _] => destruct c end;
      cbn [fst]; Z.to_euclidean_division_equations; lia.
Qed.

(** Day [v] of year [y], counted from 1 and allowed to leave the year. *)
Definition day_of_year (y v : Z) : Py.datetime :=
  fromordinal (Py.ymd2ord y 1 1 + v - 1).

Lemma day_of_year_year (y v : Z) :
  1 <= Py.days_before_year y + v ->
  (v <= 0 -> Py.year (day_of_year y v) < y)
  /\ (1 <= v <= days_in_year y -> Py.year (day_of_year y v) = y)
  /\ (days_in_year y < v -> y < Py.year (day_of_year y v)).
Proof.
  intros Hn. unfold day_of_year. rewrite new_year_ordinal.
  replace (Py.days_before_year y + 1 + v - 1) with (Py.days_before_year y + v)
    by lia.
  destruct (year_of_ordinal _ Hn) as [L U].
  set (y' := Py.year (fromordinal (Py.days_before_year y + v))) in *.
  clearbody y'.
  pose proof (days_before_next_year y) as N.
  repeat split; intros Hv.
  - destruct (Z_lt_le_dec y' y) as [|G]; [assumption|].
    pose proof (days_before_year_mono y y' G). lia.
  - destruct (Z.lt_trichotomy y' y) as [G|[G|G]]; [|assumption|].
    + pose proof (days_before_year_mono (y' + 1) y ltac:(lia)). lia.
    + pose proof (days_before_year_mono (y + 1) y' ltac:(lia)). lia.
  - destruct (Z_lt_le_dec y y') as [|G]; [assumption|].
    pose proof (days_before_year_mono (y' + 1) (y + 1) ltac:(lia)). lia.
Qed.

(** The day before January 1 is December 31 of the year before. *)
Lemma new_years_eve (y : Z) :
  1800 <= y <= 3599 -> day_of_year y 0 = Py.mk_datetime (y - 1) 12 31 0 0 0 0.
Proof.
  intros Hy.
  pose proof (zrange_forall
    (fun y => let t := day_of_year y 0 in
              (Py.year t =? y - 1) && (Py.month t =? 12) && (Py.day t =? 31)
              && (Py.hour t =? 0) && (Py.minute t =? 0) && (Py.second t =? 0)
              && (Py.microsecond t =? 0))
    1800 1800 ltac:(vm_compute; reflexivity) y ltac:(lia)) as E.
  cbv beta zeta in E. rewrite !andb_true_iff, !Z.eqb_eq in E.
  destruct (day_of_year y 0). simpl in E.
  destruct E as [[[[[[-> ->] ->] ->] ->] ->] ->]. reflexivity.
Qed.

(** *** Whole days *)

Lemma timedelta_whole_days (v : Z) :
  0 <= v <= 1295 ->
  Py.timedelta_days (Py.float_of_int v + 0 - 1)%float
  = Ok ((v - 1) * Py.US_PER_DAY).
Proof.
  intros Hv.
  pose proof (zrange_forall
    (fun v => match Py.timedelta_days (Py.float_of_int v + 0 - 1)%float with
              | Ok us => us =? (v - 1) * Py.US_PER_DAY
              | Raise _ => false
              end)
    0 1296 ltac:(vm_compute; reflexivity) v ltac:(lia)) as E.
  cbv beta in E.
  destruct (Py.timedelta_days (Py.float_of_int v + 0 - 1)%float);
    [|discriminate].
  apply Z.eqb_eq in E. now subst.
Qed.

Lemma new_year_microseconds (y : Z) :
  Py.to_microseconds (Py.mk_datetime y 1 1 0 0 0 0)
  = Py.ymd2ord y 1 1 * Py.US_PER_DAY.
Proof. unfold Py.to_microseconds, Py.US_PER_DAY. cbn [Py.year Py.month Py.day
  Py.hour Py.minute Py.second Py.microsecond]. lia. Qed.

(** Adding whole days to January 1 moves the ordinal and keeps midnight. *)
Lemma datetime_add_whole_days (y k : Z) :
  1 <= Py.ymd2ord y 1 1 + k <= Py.MAXORDINAL ->
  Py.datetime_add (Py.mk_datetime y 1 1 0 0 0 0) (k * Py.US_PER_DAY)
  = Ok (fromordinal (Py.ymd2ord y 1 1 + k)).
Proof.
  intros H. unfold Py.datetime_add. rewrite new_year_microseconds.
  rewrite <- Z.mul_add_distr_r.
  rewrite Z.div_mul, Z.mod_mul by (unfold Py.US_PER_DAY; lia).
  destruct (Z.leb_spec 1 (Py.ymd2ord y 1 1 + k)); [|lia].
  destruct (Z.leb_spec (Py.ymd2ord y 1 1 + k) Py.MAXORDINAL); [|lia].
  cbn [andb]. unfold fromordinal.
  destruct (Py.ord2ymd (Py.ymd2ord y 1 1 + k)) as [[y' m'] d']. reflexivity.
Qed.

Lemma new_year_ordinal_bounds (y : Z) :
  1700 <= y <= 3700 -> 620000 <= Py.ymd2ord y 1 1 <= 1352000.
Proof.
  intros H. rewrite new_year_ordinal. unfold Py.days_before_year.
  Z.to_euclidean_division_equations; lia.
Qed.

(** *** Packed codes *)

Definition packed_year (c y1 y2 : ascii) : Z :=
  Common.century_of (Py.upper_char c) + (10 * digit_value y1 + digit_value y2).

(** The number a string of base-36 digits stands for. *)
Fixpoint base36_from (value : Z) (s : string) : Z :=
  match s with
  | EmptyString => value
  | String c s' => base36_from (value * 36 + base36_value c) s'
  end.

Definition base36_number (s : string) : Z := base36_from 0 s.

(** The day-of-year value of a code whose characters after CYY are [field]:
    only the first two are read. *)
Definition packed_day (field : string) : Z := base36_number (Py.slice field 0 2).

(** The characters CYY and what follows them. *)
Definition packed (c y1 y2 : ascii) (field : string) : string :=
  String c (String y1 (String y2 field)).

Record packed_chars (c y1 y2 : ascii) (field : string) : Prop :=
  mk_packed_chars {
    pc_century : is_century_letter c = true;
    pc_year1 : Py.isdigit y1 = true;
    pc_year2 : Py.isdigit y2 = true;
    pc_field : every is_base36 field = true }.

Lemma packed_plain (c y1 y2 : ascii) (field : string) :
  packed_chars c y1 y2 field -> every plain (packed c y1 y2 field) = true.
Proof.
  intros [Hc H1 H2 H3]. unfold packed. cbn [every].
  destruct (letter_facts c Hc) as (-> & _).
  destruct (digit_facts y1 H1) as (-> & _).
  destruct (digit_facts y2 H2) as (-> & _).
  cbn [andb]. revert H3. apply every_impl.
  intros d Hd. now destruct (base36_facts d Hd).
Qed.

Lemma packed_year_bounds (c y1 y2 : ascii) :
  is_century_letter c = true -> Py.isdigit y1 = true -> Py.isdigit y2 = true ->
  1800 <= packed_year c y1 y2 <= 3599.
Proof.
  intros Hc H1 H2. unfold packed_year.
  destruct (letter_facts c Hc) as (_ & _ & _ & B).
  destruct (digit_facts y1 H1) as (_ & _ & _ & _ & _ & B1 & _).
  destruct (digit_facts y2 H2) as (_ & _ & _ & _ & _ & B2 & _). lia.
Qed.

Lemma base36_loop_digits (s : string) (value : Z) :
  every is_base36 s = true ->
  Common.base36_loop (Py.upper s) value = Ok (base36_from value s).
Proof.
  revert value. induction s as [|c s IH]; intros value; cbn [every];
    [reflexivity|].
  rewrite andb_true_iff. intros [Hc Hs].
  cbn [Py.upper Common.base36_loop base36_from].
  destruct (base36_facts c Hc) as (_ & _ & ->). cbn [bind]. now apply IH.
Qed.

Lemma slice_day_digits (field : string) :
  every is_base36 field = true ->
  every is_base36 (Py.slice field 0 2) = true
  /\ 0 <= packed_day field <= 1295.
Proof.
  unfold packed_day, base36_number.
  destruct field as [|d1 [|d2 rest]]; cbn [every];
    rewrite ?andb_true_iff; intros H.
  - split; [reflexivity|]. cbn. lia.
  - destruct H as [H1 _]. destruct (base36_facts d1 H1) as (_ & B1 & _).
    change (Py.slice (String d1 "") 0 2) with (String d1 "").
    cbn [every base36_from]. now rewrite H1; split; [|lia].
  - destruct H as [H1 [H2 _]].
    destruct (base36_facts d1 H1) as (_ & B1 & _).
    destruct (base36_facts d2 H2) as (_ & B2 & _).
    assert (Py.slice (String d1 (String d2 rest)) 0 2
            = String d1 (String d2 "")) as ->
      by (unfold Py.slice; cbn; now destruct rest).
    cbn [every base36_from]. now rewrite H1, H2; split; [|lia].
Qed.

Lemma midnight_new_year (y : Z) :
  1800 <= y <= 3599 -> day_of_year y 1 = Py.mk_datetime y 1 1 0 0 0 0.
Proof.
  intros Hy.
  pose proof (zrange_forall
    (fun y => let t := day_of_year y 1 in
              (Py.year t =? y) && (Py.month t =? 1) && (Py.day t =? 1)
              && (Py.hour t =? 0) && (Py.minute t =? 0) && (Py.second t =? 0)
              && (Py.microsecond t =? 0))
    1800 1800 ltac:(vm_compute; reflexivity) y ltac:(lia)) as E.
  cbv beta zeta in E. rewrite !andb_true_iff, !Z.eqb_eq in E.
  destruct (day_of_year y 1). simpl in E.
  destruct E as [[[[[[-> ->] ->] ->] ->] ->] ->]. reflexivity.
Qed.

Section Decode.

Variable Time_isot_jd : string -> float.

Local Abbreviation mpcepoch2jd := (Common.mpcepoch2jd Time_isot_jd).
Local Abbreviation decode_packed := (Common.decode_packed Time_isot_jd).
Local Abbreviation utc2jd := (Common.utc2jd Time_isot_jd).

(** A code CYY followed by base-36 digits is decoded as the day those digits
    name in the year CYY. *)
Lemma decode_packed_whole_day (c y1 y2 : ascii) (field : string) :
  packed_chars c y1 y2 field ->
  mpcepoch2jd (packed c y1 y2 field)
  = Ok (utc2jd (Py.isoformat
                  (day_of_year (packed_year c y1 y2) (packed_day field)))).
Proof.
  intros V. pose proof (packed_plain _ _ _ _ V) as P.
  destruct V as [Hc H1 H2 H3].
  unfold Common.mpcepoch2jd. rewrite (strip_plain _ P).
  rewrite (float_of_packed (packed c y1 y2 field) c y1 _
             (skip_plain _ P) Hc H1).
  unfold not_a_float, Common.decode_packed.
  rewrite (contains_plain _ P). cbn [bind].
  unfold packed at 1. cbn [Py.index String.get bind].
  fold (is_century_letter c). rewrite Hc. cbn [negb].
  assert (Py.slice (packed c y1 y2 field) 1 3 = String y1 (String y2 ""))
    as -> by (unfold Py.slice; cbn; now destruct field).
  change (Py.slice (packed c y1 y2 field) 3 5) with (Py.slice field 0 2).
  rewrite (int_two_digits y1 y2 H1 H2). cbn [bind].
  destruct (slice_day_digits field H3) as [H4 Bd].
  unfold Common.base36_to_int. rewrite (base36_loop_digits _ 0 H4).
  fold (base36_number (Py.slice field 0 2)). fold (packed_day field).
  cbn [bind].
  change (Py.float_of_str ("0." ++ "0")) with (Ok 0%float : result float).
  cbn [bind].
  fold (packed_year c y1 y2).
  pose proof (packed_year_bounds c y1 y2 Hc H1 H2) as By.
  unfold Py.new_year, Py.MINYEAR, Py.MAXYEAR.
  destruct (Z.leb_spec 1 (packed_year c y1 y2)); [|lia].
  destruct (Z.leb_spec (packed_year c y1 y2) 9999); [|lia].
  cbn [andb bind].
  rewrite (timedelta_whole_days _ Bd). cbn [bind].
  pose proof (new_year_ordinal_bounds (packed_year c y1 y2) ltac:(lia)) as Bo.
  rewrite datetime_add_whole_days by (unfold Py.MAXORDINAL; lia).
  cbn [bind]. unfold day_of_year.
  now rewrite Z.add_sub_assoc.
Qed.

End Decode.

(** *** Failures *)

(** The part of a stripped code before its first ["."]. *)
Definition integer_part (code : string) : string :=
  hd "" (Py.split "." (Py.strip code)).

Definition fails {A : Type} (r : result A) : Prop := exists e, r = Raise e.

Lemma fails_bind {A B : Type} (r : result A) (k : A -> result B) :
  (forall a, r = Ok a -> fails (k a)) -> fails (bind r k).
Proof.
  intros H. destruct r as [a|e]; [now apply H|now exists e].
Qed.

Lemma float_of_str_raises (s : string) :
  is_ok (Py.float_of_str s) = false -> Py.float_of_str s = not_a_float.
Proof.
  unfold Py.float_of_str, not_a_float.
  destruct (Py.sign (Py.skip_spaces s)) as [neg body].
  destruct (_ || _); [discriminate|].
  destruct (String.eqb _ _); [discriminate|].
  destruct (Py.digitpart body false) as [ipart r1].
  destruct (match r1 with EmptyString => _ | String _ _ => _ end)
    as [fpart r2].
  destruct (ipart ++ fpart)%list; [reflexivity|].
  destruct (Py.exponent r2); [discriminate|reflexivity].
Qed.

(** The numeric attempt of [mpcepoch2jd] sees a stripped string. *)
Definition numeric (code : string) : bool :=
  is_ok (Py.float_of_str (Py.strip code)).

Lemma split_no_dot (s : string) :
  Py.contains "." s = false -> Py.split "." s = [s].
Proof.
  induction s as [|c s IH]; cbn [Py.contains Py.split]; [reflexivity|].
  rewrite orb_false_iff. intros [Hc Hs].
  rewrite Ascii.eqb_sym, Hc. now rewrite (IH Hs).
Qed.

Lemma split_nonempty (s : string) : Py.split "." s <> [].
Proof.
  destruct s as [|c s]; cbn [Py.split]; [discriminate|].
  destruct (Ascii.eqb c "."); [discriminate|].
  destruct (Py.split "." s); discriminate.
Qed.

Section Failures.

Variable Time_isot_jd : string -> float.

Local Abbreviation mpcepoch2jd := (Common.mpcepoch2jd Time_isot_jd).
Local Abbreviation decode_packed := (Common.decode_packed Time_isot_jd).

Lemma mpcepoch2jd_not_numeric (code : string) :
  numeric code = false ->
  mpcepoch2jd code = decode_packed (Py.strip code).
Proof.
  intros H. unfold Common.mpcepoch2jd.
  rewrite (float_of_str_raises _ H). reflexivity.
Qed.

Lemma mpcepoch2jd_strip (code : string) :
  mpcepoch2jd (Py.strip code) = mpcepoch2jd code.
Proof. unfold Common.mpcepoch2jd. now rewrite strip_idem. Qed.

(** What the first lines of [decode_packed] make of the code: either the
    unpacking fails or [integer_part] is what goes on. *)
Lemma unpack_integer_part (s : string) :
  (if Py.contains "." s then
     match Py.split "." s with
     | [ip; fp] => Ok (ip, fp)
     | _ => Raise (ValueError "too many values to unpack (expected 2)")
     end
   else Ok (s, "0"))
  = Raise (ValueError "too many values to unpack (expected 2)")
  \/ exists fp,
       (if Py.contains "." s then
          match Py.split "." s with
          | [ip; fp] => Ok (ip, fp)
          | _ => Raise (ValueError "too many values to unpack (expected 2)")
          end
        else Ok (s, "0"))
       = Ok (hd "" (Py.split "." s), fp).
Proof.
  destruct (Py.contains "." s) eqn:C.
  - destruct (Py.split "." s) as [|ip [|fp [|x l]]]; auto.
    right. now exists fp.
  - right. exists "0". now rewrite (split_no_dot s C).
Qed.

(** A first character outside I..Z (in either case) stops the decoding. *)
Lemma bad_century_fails (code : string) (c : ascii) (rest : string) :
  numeric code = false ->
  Py.strip code = String c rest ->
  is_century_letter c = false ->
  fails (mpcepoch2jd code).
Proof.
  intros Hn Hs Hc. rewrite (mpcepoch2jd_not_numeric code Hn), Hs.
  unfold Common.decode_packed.
  destruct (unpack_integer_part (String c rest)) as [-> | [fp ->]];
    [now eexists|].
  cbn [bind Py.split].
  destruct (Ascii.eqb c ".") eqn:D.
  - cbn [hd Py.index String.get bind]. now eexists.
  - assert (exists w, hd "" (match Py.split "." rest with
                           | [] => [String c ""]
                           | w :: ws => String c w :: ws
                           end) = String c w) as [w ->]
      by (destruct (Py.split "." rest); cbn [hd]; eauto).
    cbn [Py.index String.get bind].
    fold (is_century_letter c). rewrite Hc. cbn [negb]. now eexists.
Qed.

Lemma base36_loop_fails (s : string) (value : Z) :
  every is_base36 s = false -> fails (Common.base36_loop (Py.upper s) value).
Proof.
  revert value. induction s as [|c s IH]; intros value; cbn [every];
    [discriminate|].
  intros H. cbn [Py.upper Common.base36_loop].
  destruct (is_base36 c) eqn:Hc.
  - destruct (base36_facts c Hc) as (_ & _ & ->). cbn [bind].
    apply IH. exact H.
  - rewrite (base36_digit_raises c Hc). now eexists.
Qed.

Lemma slice_day_field (ip : string) (k : nat) (d : ascii) :
  k = 3%nat \/ k = 4%nat -> String.get k ip = Some d -> is_base36 d = false ->
  every is_base36 (Py.slice ip 3 5) = false.
Proof.
  intros Hk Hd Hb. unfold Py.slice.
  destruct ip as [|c0 [|c1 [|c2 [|c3 [|c4 r]]]]];
    destruct Hk as [-> | ->]; cbn in Hd; try discriminate;
    injection Hd as <-; cbn [Nat.sub String.substring every];
    rewrite Hb; try reflexivity; try apply andb_false_r.
Qed.

(** A character of the day-of-year field outside the base-36 alphabet stops
    the decoding. *)
Lemma bad_day_fails (code : string) (k : nat) (d : ascii) :
  numeric code = false ->
  k = 3%nat \/ k = 4%nat ->
  String.get k (integer_part code) = Some d ->
  is_base36 d = false ->
  fails (mpcepoch2jd code).
Proof.
  intros Hn Hk Hd Hb. rewrite (mpcepoch2jd_not_numeric code Hn).
  unfold Common.decode_packed.
  destruct (unpack_integer_part (Py.strip code)) as [-> | [fp ->]];
    [now eexists|].
  fold (integer_part code). cbn [bind].
  apply fails_bind. intros c0 _.
  destruct (negb _); [now eexists|].
  apply fails_bind. intros yy _.
  unfold Common.base36_to_int.
  destruct (base36_loop_fails _ 0 (slice_day_field _ k d Hk Hd Hb)) as [e ->].
  now exists e.
Qed.

End Failures.

End Decoder.

(** ** Fractions of a day

    The magnitude of the floats that the decoder hands to [timedelta] and
    the dates that result. *)

Module Timedelta.

Import Rounding Decoder.
Open Scope Z_scope.

(** [|x| <= 2 ^ B] for a float [x], and [x] is a number. *)
Definition le_pow (B : Z) (x : float) : Prop := SFle_pow B (Prim2SF x).

Lemma le_pow_weaken (B B' : Z) (x : float) :
  B <= B' -> le_pow B x -> le_pow B' x.
Proof. apply SFle_pow_weaken. Qed.

Lemma le_pow_of_int (i B : Z) :
  Z.abs i < 2 ^ B -> -1074 <= B <= 1023 -> le_pow B (Py.float_of_int i).
Proof.
  intros Hi HB. unfold le_pow, Py.float_of_int.
  destruct (binary_normalize_spec i 0 B false) as [V L];
    [now rewrite Z.sub_0_r|assumption|].
  now rewrite Prim2SF_SF2Prim.
Qed.

Lemma le_pow_add (x y : float) (B1 B2 : Z) :
  le_pow B1 x -> le_pow B2 y -> B1 <> B2 -> Z.max B1 B2 + 1 <= 1023 ->
  le_pow (Z.max B1 B2 + 1) (x + y)%float.
Proof.
  intros Hx Hy N HB. unfold le_pow. rewrite add_spec.
  now apply SFadd_spec; try apply Prim2SF_valid.
Qed.

Lemma le_pow_sub (x y : float) (B1 B2 : Z) :
  le_pow B1 x -> le_pow B2 y -> B1 <> B2 -> Z.max B1 B2 + 1 <= 1023 ->
  le_pow (Z.max B1 B2 + 1) (x - y)%float.
Proof.
  intros Hx Hy N HB. unfold le_pow. rewrite sub_spec.
  now apply SFsub_spec; try apply Prim2SF_valid.
Qed.

Lemma le_pow_mul (x y : float) (B1 B2 : Z) :
  le_pow B1 x -> le_pow B2 y -> -1074 <= B1 + B2 + 1 <= 1023 ->
  le_pow (B1 + B2 + 1) (x * y)%float.
Proof.
  intros Hx Hy HB. unfold le_pow. rewrite mul_spec.
  now apply SFmul_spec; try apply Prim2SF_valid.
Qed.

Lemma le_pow_one : le_pow 0 1%float.
Proof. unfold le_pow. vm_compute. split; [split|]; discriminate. Qed.

(** A decimal fraction [0.d1...dL] is at most 1 as a float. *)
Lemma le_pow_fraction (n L : Z) :
  0 <= n < 10 ^ L -> le_pow 0 (Py.float_of_decimal false n (- L)).
Proof.
  intros H. unfold le_pow, Py.float_of_decimal.
  destruct n as [|p|p]; [now rewrite Prim2SF_SF2Prim| |lia].
  assert (0 < L).
  { destruct (Z_lt_le_dec 0 L) as [P|N]; [assumption|].
    destruct L as [|l|l]; [cbn in H; lia|lia|].
    rewrite Z.pow_neg_r in H; lia. }
  destruct (Z.leb_spec 0 (- L)); [lia|]. rewrite Z.opp_involutive.
  pose proof (decimal_fraction_spec false p (10 ^ L) ltac:(lia)) as D.
  destruct (SFdiv_core_binary prec emax (Zpos p) 0 (10 ^ L) 0) as [[q e] l].
  destruct D as [V B]. now rewrite Prim2SF_SF2Prim.
Qed.

(** A float of magnitude at most [2 ^ B] has an integer part, of magnitude
    at most [2 ^ B]. *)
Lemma long_of_double_bound (x : float) (B : Z) :
  le_pow B x -> 0 <= B ->
  exists i, Py.long_of_double x = Ok i /\ Z.abs i <= 2 ^ B.
Proof.
  unfold le_pow, Py.long_of_double. intros H HB.
  destruct (Prim2SF x) as [s|s| |s m e]; cbn [SFle_pow] in H; try tauto.
  - exists 0. split; [reflexivity|]. cbn [Z.abs]. apply Z.pow_nonneg. lia.
  - exists (cond_Zopp s (Z.shiftl (Zpos m) e)). split; [reflexivity|].
    rewrite cond_Zopp_abs.
    pose proof (shiftl_bound m e B HB ltac:(lia) ltac:(tauto)). lia.
Qed.


Definition reach : Z := 2 ^ 13 * Py.US_PER_DAY + 2 ^ 53 + 1.

(** [timedelta(days=x)] is defined for every float of magnitude at most
    [2 ^ 13]; it holds at most [reach] microseconds. *)
Lemma timedelta_days_total (x : float) :
  le_pow 13 x ->
  exists us, Py.timedelta_days x = Ok us /\ Z.abs us <= reach.
Proof.
  intros Hx. unfold Py.timedelta_days.
  destruct (long_of_double_bound x 13 Hx ltac:(lia)) as (i & -> & Hi).
  cbn [bind].
  assert (Hf : le_pow 15 (x - Py.float_of_int i)%float).
  { apply (le_pow_sub _ _ 13 14); [assumption| |lia|lia].
    apply le_pow_of_int; lia. }
  set (fracpart := (x - Py.float_of_int i)%float) in *. clearbody fracpart.
  assert (range : forall us, Z.abs us <= reach ->
            exists us', (if (-999999999 <=? us / Py.US_PER_DAY)
                            && (us / Py.US_PER_DAY <=? 999999999)
                         then Ok us
                         else Raise (OverflowError
                                "days must have magnitude <= 999999999"))
                        = Ok us' /\ Z.abs us' <= reach).
  { intros us Hus. exists us. split; [|assumption].
    unfold reach, Py.US_PER_DAY in *.
    destruct (Z.leb_spec (-999999999) (us / 86400000000));
      [|exfalso; Z.to_euclidean_division_equations; lia].
    destruct (Z.leb_spec (us / 86400000000) 999999999);
      [|exfalso; Z.to_euclidean_division_equations; lia].
    reflexivity. }
  destruct (fracpart =? 0)%float.
  - cbn [bind]. apply range. unfold reach, Py.US_PER_DAY. lia.
  - assert (Hd : le_pow 53 (Py.float_of_int Py.US_PER_DAY * fracpart)%float).
    { apply (le_pow_mul _ _ 37 15); [|assumption|lia].
      apply le_pow_of_int; [|lia]. unfold Py.US_PER_DAY. cbn. lia. }
    set (dnum := (Py.float_of_int Py.US_PER_DAY * fracpart)%float) in *.
    clearbody dnum.
    destruct (long_of_double_bound dnum 53 Hd ltac:(lia)) as (j & -> & Hj).
    cbn [bind]. apply range.
    set (leftover := (dnum - Py.float_of_int j)%float). clearbody leftover.
    assert (P13 : 2 ^ 13 = 8192) by reflexivity.
    assert (P53 : 2 ^ 53 = 9007199254740992) by reflexivity.
    unfold reach, Py.US_PER_DAY. rewrite P13, P53 in *.
    destruct (abs leftover <? 0.5)%float; [lia|].
    destruct (abs leftover =? 0.5)%float, (leftover <? 0)%float;
      try lia;
      match goal with |- context [Z.odd ?a] => destruct (Z.odd a) end; lia.
Qed.

(** Up to [reach] microseconds from the first day of a year between 1800
    and 3599 there is a date. *)
Lemma datetime_add_total (y us : Z) :
  1800 <= y <= 3599 -> Z.abs us <= reach ->
  exists date, Py.datetime_add (Py.mk_datetime y 1 1 0 0 0 0) us = Ok date.
Proof.
  intros Hy Hus. unfold Py.datetime_add. rewrite new_year_microseconds.
  pose proof (new_year_ordinal_bounds y ltac:(lia)) as Bo.
  set (o := Py.ymd2ord y 1 1) in *. clearbody o.
  unfold reach, Py.US_PER_DAY, Py.MAXORDINAL in *.
  assert (P13 : 2 ^ 13 = 8192) by reflexivity.
  assert (P53 : 2 ^ 53 = 9007199254740992) by reflexivity.
  rewrite P13, P53 in Hus.
  destruct (Z.leb_spec 1 ((o * 86400000000 + us) / 86400000000));
    [|exfalso; Z.to_euclidean_division_equations; lia].
  destruct (Z.leb_spec ((o * 86400000000 + us) / 86400000000) 3652059);
    [|exfalso; Z.to_euclidean_division_equations; lia].
  cbn [andb].
  destruct (Py.ord2ymd _) as [[y' m'] d']. now eexists.
Qed.

End Timedelta.

Module FractionCodes.

Import Rounding Decoder Timedelta.
Open Scope Z_scope.

Definition solid (c : ascii) : bool := negb (Py.isspace c).

Lemma rstrip_solid (s : string) : every solid s = true -> Py.rstrip s = s.
Proof.
  induction s as [|c s IH]; simpl; [reflexivity|].
  rewrite andb_true_iff. intros [Hc Hs].
  rewrite (IH Hs). destruct s; [|reflexivity].
  apply negb_true_iff in Hc. now rewrite Hc.
Qed.

Lemma strip_solid (s : string) : every solid s = true -> Py.strip s = s.
Proof.
  intros H. unfold Py.strip.
  replace (Py.lstrip s) with s; [now apply rstrip_solid|].
  destruct s as [|c s]; [reflexivity|]. simpl in *.
  apply andb_true_iff in H. destruct H as [Hc _].
  apply negb_true_iff in Hc. now rewrite Hc.
Qed.

Lemma skip_solid (s : string) : every solid s = true -> Py.skip_spaces s = s.
Proof. intros H. rewrite <- (strip_solid s H). apply skip_strip. Qed.

Lemma plain_solid (s : string) : every plain s = true -> every solid s = true.
Proof.
  apply every_impl. intros c H. unfold solid.
  now destruct (plain_facts c H) as [-> _].
Qed.

Lemma lower_digits (s : string) : every Py.isdigit s = true -> Py.lower s = s.
Proof.
  induction s as [|c s IH]; cbn [every Py.lower]; [reflexivity|].
  rewrite andb_true_iff. intros [Hc Hs].
  destruct (digit_facts c Hc) as (_ & _ & _ & -> & _). now rewrite IH.
Qed.

(** The digits of a decimal fraction stand for a number below one. *)
Lemma decimal_bound (s : string) (acc : Z) :
  every Py.isdigit s = true ->
  let n := Z.of_nat (List.length (digit_values s)) in
  acc * 10 ^ n <= fold_left (fun acc d => acc * 10 + d) (digit_values s) acc
               < (acc + 1) * 10 ^ n.
Proof.
  revert acc. induction s as [|c s IH]; intros acc;
    cbn [every digit_values List.length fold_left].
  - intros _. cbn. lia.
  - rewrite andb_true_iff. intros [Hc Hs].
    destruct (digit_facts c Hc) as (_ & _ & _ & _ & _ & Bc & _).
    specialize (IH (acc * 10 + digit_value c) Hs). cbv zeta in IH |- *.
    rewrite Nat2Z.inj_succ, Z.pow_succ_r by lia.
    set (p := 10 ^ Z.of_nat (List.length (digit_values s))) in *.
    assert (0 < p) by (apply Z.pow_pos_nonneg; lia).
    clearbody p. nia.
Qed.

(** The float nearest to [0.fff]. *)
Definition fraction (fff : string) : float :=
  Py.float_of_decimal false (Py.decimal (digit_values fff))
    (- Z.of_nat (List.length (digit_values fff))).

Lemma float_of_fraction (fff : string) :
  every Py.isdigit fff = true ->
  Py.float_of_str ("0." ++ fff) = Ok (fraction fff).
Proof.
  intros H. unfold Py.float_of_str.
  rewrite skip_solid
    by (cbn [append every]; now rewrite (plain_solid _ (digits_plain _ H))).
  cbn [append Py.sign Ascii.eqb Bool.eqb Py.lower].
  rewrite (lower_digits _ H).
  cbn [String.eqb Ascii.eqb Bool.eqb Py.lower_char Py.between Py.ord
         N_of_ascii N_of_digits Z.of_N].
  cbn.
  rewrite (digitpart_digits _ _ H). cbn [app Py.exponent].
  reflexivity.
Qed.

Lemma le_pow_fraction_digits (fff : string) :
  every Py.isdigit fff = true -> le_pow 0 (fraction fff).
Proof.
  intros H. apply le_pow_fraction.
  pose proof (decimal_bound fff 0 H) as B. cbv zeta in B.
  unfold Py.decimal. lia.
Qed.

Section Decode.

Variable Time_isot_jd : string -> float.

Local Abbreviation mpcepoch2jd := (Common.mpcepoch2jd Time_isot_jd).
Local Abbreviation utc2jd := (Common.utc2jd Time_isot_jd).

(** A code CYYDD.fff is decoded as the first day of the year CYY plus
    [timedelta(days=DD + 0.fff - 1)], and both the [timedelta] and the
    sum exist. *)
Lemma decode_packed_fraction (c y1 y2 : ascii) (field fff : string) :
  packed_chars c y1 y2 field -> every Py.isdigit fff = true ->
  exists delta date,
    Py.timedelta_days
      (Py.float_of_int (packed_day field) + fraction fff - 1)%float = Ok delta
    /\ Py.datetime_add (Py.mk_datetime (packed_year c y1 y2) 1 1 0 0 0 0) delta
       = Ok date
    /\ mpcepoch2jd (packed c y1 y2 field ++ "." ++ fff)
       = Ok (utc2jd (Py.isoformat date)).
Proof.
  intros V F. pose proof (packed_plain _ _ _ _ V) as P.
  destruct V as [Hc H1 H2 H3].
  pose proof (packed_year_bounds c y1 y2 Hc H1 H2) as By.
  destruct (slice_day_digits field H3) as [H4 Bd].
  assert (Hx : le_pow 13
            (Py.float_of_int (packed_day field) + fraction fff - 1)%float).
  { apply (le_pow_sub _ _ 12 0); [|exact le_pow_one|lia|lia].
    apply (le_pow_add _ _ 11 0); [|now apply le_pow_fraction_digits|lia|lia].
    apply le_pow_of_int; [|lia].
    change (2 ^ 11) with 2048. lia. }
  destruct (timedelta_days_total _ Hx) as (delta & Ed & Bdelta).
  destruct (datetime_add_total (packed_year c y1 y2) delta ltac:(lia) Bdelta)
    as (date & Ea).
  exists delta, date. split; [exact Ed|]. split; [exact Ea|].
  assert (S : Py.strip (packed c y1 y2 field ++ "." ++ fff)
              = (packed c y1 y2 field ++ "." ++ fff)%string).
  { apply strip_solid. rewrite every_app, (plain_solid _ P).
    cbn [append every andb].
    now rewrite (plain_solid _ (digits_plain _ F)). }
  unfold Common.mpcepoch2jd. rewrite S.
  rewrite (float_of_packed _ c y1 (String y2 (field ++ "." ++ fff))
             (eq_trans (f_equal Py.skip_spaces (eq_sym S))
                (eq_trans (skip_strip _) S)) Hc H1).
  unfold not_a_float, Common.decode_packed.
  change ("." ++ fff)%string with (String "." fff).
  rewrite contains_app_dot, (split_app_dot _ _ P),
    (split_plain _ (digits_plain _ F)).
  cbn [bind].
  unfold packed at 1. cbn [Py.index String.get bind].
  fold (is_century_letter c). rewrite Hc. cbn [negb].
  assert (Py.slice (packed c y1 y2 field) 1 3 = String y1 (String y2 ""))
    as -> by (unfold Py.slice; cbn; now destruct field).
  change (Py.slice (packed c y1 y2 field) 3 5) with (Py.slice field 0 2).
  rewrite (int_two_digits y1 y2 H1 H2). cbn [bind].
  unfold Common.base36_to_int. rewrite (base36_loop_digits _ 0 H4).
  fold (base36_number (Py.slice field 0 2)). fold (packed_day field).
  cbn [bind].
  rewrite (float_of_fraction _ F). cbn [bind].
  fold (packed_year c y1 y2).
  unfold Py.new_year, Py.MINYEAR, Py.MAXYEAR.
  destruct (Z.leb_spec 1 (packed_year c y1 y2)); [|lia].
  destruct (Z.leb_spec (packed_year c y1 y2) 9999); [|lia].
  cbn [andb bind].
  rewrite Ed. cbn [bind]. rewrite Ea. reflexivity.
Qed.

End Decode.

End FractionCodes.

(** ** The characters of a float literal *)

Module FloatSyntax.

Import Decoder FractionCodes.
Open Scope string_scope.

(** The dots of a string. *)
Fixpoint dots (s : string) : nat :=
  match s with
  | EmptyString => 0
  | String c s' => (if Ascii.eqb c "." then 1 else 0) + dots s'
  end.

(** No whitespace and no dot. *)
Definition token (s : string) : Prop := every solid s = true /\ dots s = 0%nat.

Lemma dots_app (s t : string) : dots (s ++ t) = (dots s + dots t)%nat.
Proof.
  induction s as [|c s IH]; cbn [append dots]; [reflexivity|].
  rewrite IH. lia.
Qed.

Lemma token_nil : token "".
Proof. now split. Qed.

Lemma token_cons (c : ascii) (s : string) :
  Py.isspace c = false -> Ascii.eqb c "." = false -> token s ->
  token (String c s).
Proof.
  intros H1 H2 [A B]. split; cbn [every dots].
  - unfold solid at 1. now rewrite H1, A.
  - now rewrite H2, B.
Qed.

Lemma token_app (s t : string) : token s -> token t -> token (s ++ t).
Proof.
  intros [A1 B1] [A2 B2]. split.
  - now rewrite every_app, A1, A2.
  - rewrite dots_app. lia.
Qed.

Lemma char_facts (c : ascii) :
  (Py.isdigit c = true -> Py.isspace c = false /\ Ascii.eqb c "." = false)
  /\ (Ascii.eqb c "_" = true -> Py.isspace c = false /\ Ascii.eqb c "." = false)
  /\ (Ascii.eqb c "-" = true -> Py.isspace c = false /\ Ascii.eqb c "." = false)
  /\ (Ascii.eqb c "+" = true -> Py.isspace c = false /\ Ascii.eqb c "." = false)
  /\ (Py.between "a" (Py.lower_char c) "z" = true ->
      Py.isspace c = false /\ Ascii.eqb c "." = false)
  /\ (Ascii.eqb c "." = true -> Py.isspace c = false).
Proof.
  pose proof (ascii_forall
    (fun c =>
       let ok := negb (Py.isspace c) && negb (Ascii.eqb c ".") in
       implb (Py.isdigit c) ok && implb (Ascii.eqb c "_") ok
       && implb (Ascii.eqb c "-") ok && implb (Ascii.eqb c "+") ok
       && implb (Py.between "a" (Py.lower_char c) "z") ok
       && implb (Ascii.eqb c ".") (negb (Py.isspace c)))
    ltac:(vm_compute; reflexivity) c) as E.
  cbv beta zeta in E. rewrite !andb_true_iff in E.
  destruct E as [[[[[E1 E2] E3] E4] E5] E6].
  assert (K : forall b,
            implb b (negb (Py.isspace c) && negb (Ascii.eqb c ".")) = true ->
            b = true -> Py.isspace c = false /\ Ascii.eqb c "." = false).
  { intros b Hb ->. cbn [implb] in Hb.
    now rewrite andb_true_iff, !negb_true_iff in Hb. }
  split; [exact (K _ E1)|]. split; [exact (K _ E2)|].
  split; [exact (K _ E3)|]. split; [exact (K _ E4)|].
  split; [exact (K _ E5)|].
  intros H. rewrite H in E6. cbn [implb] in E6. now apply negb_true_iff.
Qed.

(** What [digitpart] reads has no whitespace and no dot. *)
Lemma digitpart_token (s : string) (seen : bool) :
  exists t, s = t ++ snd (Py.digitpart s seen) /\ token t.
Proof.
  revert seen. induction s as [|c s IH]; intros seen.
  - exists "". split; [reflexivity|apply token_nil].
  - cbn [Py.digitpart].
    destruct (char_facts c) as (Fd & Fu & _).
    destruct (Py.isdigit c) eqn:Dc.
    + destruct (IH true) as (t & Et & Tt).
      destruct (Py.digitpart s true) as [ds rest]. cbn [snd] in *.
      exists (String c t). split; [cbn [append]; congruence|].
      destruct (Fd eq_refl). now apply token_cons.
    + destruct (Ascii.eqb c "_" && seen) eqn:U;
        [|exists ""; split; [reflexivity|apply token_nil]].
      apply andb_true_iff in U. destruct U as [U _].
      destruct s as [|d s'];
        [exists ""; split; [reflexivity|apply token_nil]|].
      destruct (Py.isdigit d);
        [|exists ""; split; [reflexivity|apply token_nil]].
      destruct (IH false) as (t & Et & Tt).
      exists (String c t). split; [cbn [append]; congruence|].
      destruct (Fu U). now apply token_cons.
Qed.

Lemma sign_token (s : string) :
  exists t, s = t ++ snd (Py.sign s) /\ token t.
Proof.
  destruct s as [|c s]; [exists ""; split; [reflexivity|apply token_nil]|].
  cbn [Py.sign]. destruct (char_facts c) as (_ & _ & Fm & Fp & _).
  destruct (Ascii.eqb c "-") eqn:M.
  - exists (String c ""). split; [reflexivity|].
    destruct (Fm eq_refl). apply token_cons; auto using token_nil.
  - destruct (Ascii.eqb c "+") eqn:P.
    + exists (String c ""). split; [reflexivity|].
      destruct (Fp eq_refl). apply token_cons; auto using token_nil.
    + exists "". split; [reflexivity|apply token_nil].
Qed.

Lemma exponent_token (s : string) (ex : Z) :
  Py.exponent s = Some ex -> token s.
Proof.
  destruct s as [|c s]; [intros _; apply token_nil|].
  cbn [Py.exponent].
  destruct (char_facts c) as (_ & _ & _ & _ & Fl & _).
  destruct (Ascii.eqb (Py.lower_char c) "e") eqn:E; [|discriminate].
  apply Ascii.eqb_eq in E.
  destruct (Fl ltac:(now rewrite E)) as [F1 F2].
  destruct (sign_token s) as (t1 & E1 & T1).
  destruct (Py.sign s) as [neg body]. cbn [snd] in *.
  destruct (digitpart_token body false) as (t2 & E2 & T2).
  destruct (Py.digitpart body false) as [[|d ds] [|r rest]];
    try discriminate.
  intros _. cbn [snd] in E2. apply token_cons; try assumption.
  rewrite E1, E2. apply token_app; [assumption|].
  apply token_app; [assumption|apply token_nil].
Qed.

(** A word in letters. *)
Lemma letters_token (s : string) :
  every (fun c => Py.between "a" c "z") (Py.lower s) = true -> token s.
Proof.
  induction s as [|c s IH]; cbn [Py.lower every]; [intros _; apply token_nil|].
  rewrite andb_true_iff. intros [Hc Hs].
  destruct (char_facts c) as (_ & _ & _ & _ & Fl & _).
  destruct (Fl Hc). apply token_cons; auto.
Qed.

(** A string that [float] accepts without skipping anything has no
    whitespace and at most one dot. *)
Lemma float_literal (s : string) :
  Py.skip_spaces s = s -> is_ok (Py.float_of_str s) = true ->
  every solid s = true /\ (dots s <= 1)%nat.
Proof.
  unfold Py.float_of_str. intros ->.
  destruct (sign_token s) as (t0 & E0 & [A0 B0]).
  destruct (Py.sign s) as [neg body]. cbn [snd] in E0.
  assert (W : forall w,
            every (fun c => Py.between "a" c "z") w = true ->
            String.eqb (Py.lower body) w = true ->
            every solid s = true /\ (dots s <= 1)%nat).
  { intros w Hw E. apply String.eqb_eq in E. rewrite <- E in Hw.
    destruct (letters_token body Hw) as [A B].
    rewrite E0, every_app, dots_app, A0, A, B0, B. split; [reflexivity|lia]. }
  destruct (String.eqb (Py.lower body) "inf") eqn:I1;
    [intros _; apply (W "inf"); [reflexivity|assumption]|].
  destruct (String.eqb (Py.lower body) "infinity") eqn:I2;
    [intros _; apply (W "infinity"); [reflexivity|assumption]|].
  cbn [orb].
  destruct (String.eqb (Py.lower body) "nan") eqn:I3;
    [intros _; apply (W "nan"); [reflexivity|assumption]|].
  clear W I1 I2 I3.
  destruct (digitpart_token body false) as (t1 & E1 & [A1 B1]).
  destruct (Py.digitpart body false) as [ipart r1]. cbn [snd] in E1.
  assert (R : exists t2 d,
            r1 = t2 ++ snd (match r1 with
                            | String c r =>
                                if Ascii.eqb c "." then Py.digitpart r false
                                else ([], r1)
                            | EmptyString => ([], r1)
                            end)
            /\ every solid t2 = true /\ dots t2 = d /\ (d <= 1)%nat).
  { destruct r1 as [|c r];
      [exists "", 0%nat; repeat split; try reflexivity; lia|].
    destruct (Ascii.eqb c ".") eqn:D;
      [|exists "", 0%nat; repeat split; try reflexivity; lia].
    destruct (digitpart_token r false) as (t & Et & [At Bt]).
    exists (String c t), 1%nat. cbn [append every dots].
    rewrite D, At, Bt. unfold solid at 1.
    destruct (char_facts c) as (_ & _ & _ & _ & _ & Fd).
    rewrite (Fd D). repeat split; [congruence|lia]. }
  destruct R as (t2 & d & E2 & A2 & B2 & Hd).
  destruct (match r1 with
            | String c r => _
            | EmptyString => _
            end) as [fpart r2].
  cbn [snd] in E2.
  destruct (ipart ++ fpart)%list; [discriminate|].
  destruct (Py.exponent r2) as [ex|] eqn:X; [|discriminate].
  intros _. destruct (exponent_token r2 ex X) as [A3 B3].
  rewrite E0, E1, E2, !every_app, !dots_app, A0, A1, A2, A3, B0, B1, B2, B3.
  split; [reflexivity|lia].
Qed.

(** Skipping spaces is written with the same recursion as stripping. *)
Lemma lstrip_lskip (s : string) : Py.lstrip (Py.lskip s) = Py.lstrip s.
Proof.
  induction s as [|c s IH]; cbn [Py.lskip Py.lstrip]; [reflexivity|].
  destruct (Py.Py_ISSPACE c) eqn:C; [|reflexivity].
  now rewrite (space_is_whitespace c C).
Qed.

Lemma rstrip_rskip (s : string) : Py.rstrip (Py.rskip s) = Py.rstrip s.
Proof.
  induction s as [|c s IH]; [reflexivity|].
  cbn [Py.rskip]. destruct (Py.rskip s) as [|d r] eqn:E.
  - cbn [Py.rstrip] in IH. cbn [Py.rstrip]. rewrite <- IH.
    destruct (Py.Py_ISSPACE c) eqn:C; [|reflexivity].
    now rewrite (space_is_whitespace c C).
  - change (Py.rstrip (String c (String d r)))
      with (match Py.rstrip (String d r) with
            | EmptyString =>
                if Py.isspace c then EmptyString else String c EmptyString
            | u => String c u
            end).
    rewrite IH. reflexivity.
Qed.

Lemma rskip_head (s : string) :
  match Py.rskip s with
  | EmptyString => every Py.isspace s = true
  | String c _ => exists t, s = String c t
  end.
Proof.
  induction s as [|c s IH]; [reflexivity|]. cbn [Py.rskip].
  destruct (Py.rskip s) as [|d r]; [|now eexists].
  destruct (Py.Py_ISSPACE c) eqn:C; [|now eexists].
  cbn [every]. now rewrite (space_is_whitespace c C), IH.
Qed.

Lemma strip_of_skip (s : string) :
  every solid (Py.skip_spaces s) = true -> Py.strip s = Py.skip_spaces s.
Proof.
  unfold Py.skip_spaces, Py.strip. intros H.
  rewrite <- lstrip_lskip. set (u := Py.lskip s) in *. clearbody u.
  pose proof (rskip_head u) as R.
  destruct (Py.rskip u) as [|c t] eqn:E.
  - assert (L : Py.lstrip u = "").
    { clear - R. induction u as [|c u IH]; [reflexivity|].
      cbn [every] in R. apply andb_true_iff in R. destruct R as [Hc Hu].
      cbn [Py.lstrip]. rewrite Hc. now apply IH. }
    now rewrite L.
  - destruct R as [t' ->]. pose proof H as H'. cbn [every] in H.
    apply andb_true_iff in H. destruct H as [Hc _].
    unfold solid in Hc. apply negb_true_iff in Hc.
    cbn [Py.lstrip]. rewrite Hc. rewrite <- rstrip_rskip, E.
    now apply rstrip_solid.
Qed.

Lemma lskip_head (s : string) :
  match Py.lskip s with
  | EmptyString => True
  | String c _ => Py.Py_ISSPACE c = false
  end.
Proof.
  induction s as [|c s IH]; cbn [Py.lskip]; [exact I|].
  destruct (Py.Py_ISSPACE c) eqn:Hc; [exact IH|exact Hc].
Qed.

Lemma rskip_last (s : string) :
  match Py.rskip s with
  | EmptyString => True
  | String c r => Py.rskip (String c r) = String c r
  end.
Proof.
  induction s as [|c s IH]; cbn [Py.rskip]; [exact I|].
  destruct (Py.rskip s) as [|d r] eqn:E.
  - destruct (Py.Py_ISSPACE c) eqn:Hc; [exact I|]. cbn [Py.rskip].
    now rewrite Hc.
  - change (Py.rskip (String c (String d r))) with
      (match Py.rskip (String d r) with
       | EmptyString =>
           if Py.Py_ISSPACE c then EmptyString else String c EmptyString
       | u => String c u
       end).
    now rewrite IH.
Qed.

Lemma skip_idem (s : string) :
  Py.skip_spaces (Py.skip_spaces s) = Py.skip_spaces s.
Proof.
  pose proof (lskip_head s) as H. pose proof (rskip_last (Py.lskip s)) as L.
  pose proof (rskip_head (Py.lskip s)) as R.
  unfold Py.skip_spaces.
  destruct (Py.rskip (Py.lskip s)) as [|c t] eqn:E; [reflexivity|].
  destruct R as [t' Ht]. rewrite Ht in H.
  cbn [Py.lskip]. rewrite H. exact L.
Qed.

(** What [float] accepts it accepts after [strip], with the same value. *)
Lemma float_of_str_stripped (code : string) (jd : float) :
  Py.float_of_str code = Ok jd -> Py.float_of_str (Py.strip code) = Ok jd.
Proof.
  intros H.
  assert (B : Py.float_of_str (Py.skip_spaces code) = Ok jd)
    by (unfold Py.float_of_str in *; now rewrite skip_idem).
  destruct (float_literal (Py.skip_spaces code) (skip_idem code)
              ltac:(now rewrite B)) as [S _].
  now rewrite (strip_of_skip code S).
Qed.

(** A trimmed code with two dots is no number. *)
Lemma two_dots_not_numeric (code a b c : string) :
  Py.strip code = a ++ "." ++ b ++ "." ++ c -> numeric code = false.
Proof.
  intros H. unfold numeric.
  destruct (is_ok (Py.float_of_str (Py.strip code))) eqn:N; [|reflexivity].
  destruct (float_literal (Py.strip code) (skip_strip code) N) as [_ D].
  rewrite H, !dots_app in D. cbn [dots Ascii.eqb Bool.eqb] in D. lia.
Qed.

End FloatSyntax.

(** ** Orbital state propagator *)

Module Propagator.

Import Script.
Open Scope float_scope.

Lemma list_comprehension_ok {A B : Type} (f : A -> result B) (xs : list A)
  (ys : list B) :
  list_comprehension f xs = Ok ys <-> Forall2 (fun x y => f x = Ok y) xs ys.
Proof.
  revert ys. induction xs as [|x xs IH]; intros ys; simpl.
  - split; [intros [= <-]; constructor | intros H; inversion H; reflexivity].
  - destruct (f x) as [y|e] eqn:Fx; simpl.
    + destruct (list_comprehension f xs) as [ys'|e] eqn:L; simpl.
      * split.
        -- intros [= <-]. constructor; [assumption|]. now apply IH.
        -- intros H. inversion H as [|? y' ? ys'' Hy Hys]; subst.
           apply IH in Hys. congruence.
      * split; [discriminate|].
        intros H. inversion H as [|? y' ? ys'' Hy Hys]; subst.
        apply IH in Hys. discriminate.
    + split; [discriminate|].
      intros H. inversion H; subst. congruence.
Qed.

Lemma list_comprehension_total {A B : Type} (f : A -> result B) (xs : list A) :
  Forall (fun x => is_ok (f x) = true) xs ->
  exists ys, list_comprehension f xs = Ok ys.
Proof.
  induction 1 as [|x xs Hx _ [ys IH]]; simpl; [now eexists|].
  destruct (f x) as [y|e]; [|discriminate]. simpl. rewrite IH. now eexists.
Qed.

(** The exception of a list comprehension is that of the first element that
    raises. *)
Lemma list_comprehension_raise {A B : Type} (f : A -> result B) (xs : list A)
  (e : exn) :
  list_comprehension f xs = Raise e <->
  exists pre x post,
    xs = (pre ++ x :: post)%list
    /\ Forall (fun x => is_ok (f x) = true) pre /\ f x = Raise e.
Proof.
  induction xs as [|x xs IH].
  - split; [discriminate|]. intros (pre & x & post & H & _).
    now destruct pre.
  - cbn [list_comprehension]. split.
    + destruct (f x) as [y|e'] eqn:Fx; cbn [bind].
      * destruct (list_comprehension f xs) as [ys|e''] eqn:L; cbn [bind];
          [discriminate|].
        intros [= ->]. destruct (proj1 IH eq_refl)
          as (pre & x' & post & -> & Hpre & Hx').
        exists (x :: pre), x', post. repeat split; auto.
        constructor; [now rewrite Fx|assumption].
      * intros [= ->]. exists [], x, xs. auto.
    + intros (pre & x' & post & H & Hpre & Hx').
      destruct pre as [|p pre]; cbn [app] in H; injection H as -> ->.
      * rewrite Hx'. reflexivity.
      * inversion Hpre as [|? ? Hp Hpre']; subst.
        destruct (f p) as [y|]; [|discriminate]. cbn [bind].
        rewrite (proj2 IH) by (exists pre, x', post; auto). reflexivity.
Qed.

(** The propagated state of one body. *)
Record state : Type := mk_state {
  s_M_t : float; s_E : float; s_nu : float; s_r : float;
  s_x : float; s_y : float }.

(** The states at index [k] of the arrays. *)
Definition state_at (st : states) (k : nat) : option state :=
  match nth_error (M_t st) k, nth_error (E st) k, nth_error (nu st) k,
        nth_error (r st) k, nth_error (x st) k, nth_error (y st) k with
  | Some m, Some e, Some v, Some r, Some x, Some y =>
      Some (mk_state m e v r x y)
  | _, _, _, _, _, _ => None
  end.

Definition of_states (l : list state) : states :=
  mk_states (map s_M_t l) (map s_E l) (map s_nu l) (map s_r l) (map s_x l)
    (map s_y l).

Lemma state_at_of_states (l : list state) (k : nat) :
  state_at (of_states l) k = nth_error l k.
Proof.
  unfold state_at, of_states. cbn [M_t E nu r x y].
  rewrite !nth_error_map.
  now destruct (nth_error l k) as [[? ? ? ? ? ?]|].
Qed.

Lemma nth_error_map2 {A B C : Type} (P : A -> B -> Prop) (f : A -> B -> C)
  (xs : list A) (ys : list B) :
  Forall2 P xs ys ->
  forall k a, nth_error xs k = Some a ->
  exists b, P a b /\ nth_error (Np.map2 f xs ys) k = Some (f a b).
Proof.
  unfold Np.map2.
  induction 1 as [|a0 b0 xs ys H0 _ IH]; intros k a Hk.
  - destruct k; discriminate.
  - destruct k as [|k]; cbn [nth_error combine map fst snd] in *.
    + injection Hk as ->. now exists b0.
    + now apply IH.
Qed.

Section Externals.

Variables np_sin np_cos : float -> float.
Variable np_arctan2 : float -> float -> float.
Variable np_mod : float -> float -> float.
Variable Time_isot_jd : string -> float.
Variables np_min np_max : Np.ndarray -> float.
Variable Time_jd_datetime : float -> result string.

Local Abbreviation mpcepoch2jd := (Common.mpcepoch2jd Time_isot_jd).
Local Abbreviation propagate :=
  (Script.propagate np_sin np_cos np_arctan2 np_mod Time_isot_jd
     np_min np_max Time_jd_datetime).
Local Abbreviation check_epochs :=
  (Script.check_epochs np_min np_max Time_jd_datetime).
Local Abbreviation newton := (Kepler.newton np_sin np_cos).

(** Steps 2 to 8 for one body whose epoch is the Julian Date [epoch_jd]. *)
Definition propagate_body (jd_now : float) (b : body) (epoch_jd : float)
  : state :=
  let dt_days := jd_now - epoch_jd in
  let M_t := b_M b + b_n b * dt_days in
  let E := Nat.iter Common.max_iter_default (newton M_t (b_e b)) M_t in
  let nu :=
    2 * np_arctan2 (sqrt (1 + b_e b) * np_sin (E / 2))
                   (sqrt (1 - b_e b) * np_cos (E / 2)) in
  let nu_total := np_mod (b_omega b + nu) (2 * Np.pi) in
  let r := b_a b * (1 - b_e b * np_cos E) in
  let x :=
    r * (np_cos (b_Omega b) * np_cos nu_total
         - np_sin (b_Omega b) * np_sin nu_total * np_cos (b_i b)) in
  let y :=
    r * (np_sin (b_Omega b) * np_cos nu_total
         + np_cos (b_Omega b) * np_sin nu_total * np_cos (b_i b)) in
  mk_state M_t E nu r x y.

Lemma locations_pairs (l : list (body * float)) (jd_now : float) :
  Script.locations np_sin np_cos np_arctan2 np_mod
    (arrays (map fst l)) (map snd l) jd_now
  = of_states (map (fun p => propagate_body jd_now (fst p) (snd p)) l).
Proof.
  unfold Script.locations, of_states, propagate_body.
  cbn [arrays epoch M omega Omega i e a n].
  unfold Np.rsub, Np.radd, Np.rmul, Np.divs, Np.add, Np.sub, Np.mul.
  rewrite !map_map.
  repeat (rewrite ?Classifier.map2_map, ?map_map).
  rewrite (Kepler.solve_map np_sin np_cos).
  repeat (rewrite ?Classifier.map2_map, ?map_map).
  reflexivity.
Qed.

Lemma propagate_elementwise (bodies : list body) (jd_now : float) :
  propagate (arrays bodies) jd_now
  = (epoch_jd <- list_comprehension mpcepoch2jd (map b_epoch bodies) ;;
     _ <- check_epochs epoch_jd ;;
     Ok (of_states (Np.map2 (propagate_body jd_now) bodies epoch_jd))).
Proof.
  unfold Script.propagate.
  change (epoch (arrays bodies)) with (map b_epoch bodies).
  destruct (list_comprehension mpcepoch2jd (map b_epoch bodies))
    as [jds|err] eqn:L; [|reflexivity].
  cbn [bind]. destruct (check_epochs jds) as [[]|err]; [|reflexivity].
  cbn [bind]. f_equal.
  assert (Hlen : List.length bodies = List.length jds).
  { apply list_comprehension_ok in L. apply Forall2_length in L.
    now rewrite length_map in L. }
  rewrite <- (Kepler.fst_combine bodies jds Hlen) at 1.
  rewrite <- (Kepler.snd_combine bodies jds Hlen) at 2.
  apply locations_pairs.
Qed.

End Externals.

End Propagator.

(** * The claims *)

Import Script.

Lemma Forall2_map_r {A B : Type} (R : A -> B -> Prop) (f : A -> B) (l : list A) :
  (forall x, R x (f x)) -> Forall2 R l (map f l).
Proof. intros H. induction l; simpl; constructor; auto. Qed.

Lemma Forall2_map_left {A B C : Type} (R : B -> C -> Prop) (f : A -> B)
  (l : list A) (l' : list C) :
  Forall2 R (map f l) l' <-> Forall2 (fun x y => R (f x) y) l l'.
Proof.
  revert l'. induction l as [|x l IH]; intros l'; simpl.
  - split; intros H; inversion H; constructor.
  - split; intros H; inversion H; subst; constructor; auto; now apply IH.
Qed.

(** The bodies sitting on the thresholds of the table, and the families the
    table puts them in. *)
Definition boundary_bodies : list body :=
  map (fun p => Classifier.body_ae (fst p) (snd p))
    [(1.3, 0); (1.8, 0); (3.3, 0); (3.7, 0.07); (4.0, 0.3); (3.85, 0.07);
     (3.85, 0.3); (5.0, 0); (5.4, 0); (30.0, 0)]%float.

Definition boundary_families : list family :=
  [Others; MBA; MBA; Hilda; Hilda; Hilda; Hilda; Trojan; Trojan; TNO].

(** C1: the classifier computes q = a (1 - e) for every body and paints the
    body with the colour of a family exactly when the body meets that family's
    row of the threshold table (NEA: q < 1.3; MBA: q >= 1.3 and
    1.8 <= a <= 3.3; Hilda: q >= 1.3, 3.7 <= a <= 4.0 and 0.07 <= e <= 0.3;
    Trojan: q >= 1.3 and 5.0 <= a <= 5.4; TNO: q >= 1.3 and a >= 30; Others:
    none of these).  The bounds other than q < 1.3 are inclusive: a body with
    a = 1.3, e = 0 has q = 1.3 and is not an NEA, and the bodies on a = 1.8,
    3.3, 3.7, 4.0, 5.0, 5.4, 30.0 and e = 0.07, 0.3 are in the class of that
    bound. *)
Theorem classify_threshold_table (bodies : list body) :
  q (arrays bodies) = map Classifier.perihelion bodies
  /\ Forall2
       (fun b c => forall f, c = col f <-> Classifier.in_class f b = true)
       bodies (colors (arrays bodies))
  /\ Classifier.perihelion (Classifier.body_ae 1.3 0) = 1.3%float
  /\ Classifier.in_class NEA (Classifier.body_ae 1.3 0) = false
  /\ colors (arrays boundary_bodies) = map col boundary_families.
Proof.
  split; [apply Classifier.q_elementwise|].
  split.
  - rewrite Classifier.colors_elementwise.
    apply Forall2_map_r. intros b f. apply Classifier.paint_table.
  - repeat split; reflexivity.
Qed.

(** C2: classification is a partition.  Every body meets the condition of one
    family and of no other, every body gets one colour, each of the six counts
    is the number of bodies painted with that family's colour, the six counts
    add up to the size of the population, and the count of "Others", computed
    as the size minus the five other counts, is the number of bodies that meet
    none of the five conditions. *)
Theorem classification_partition (bodies : list body) :
  let el := arrays bodies in
  let painted f := Z.of_nat (count_occ string_dec (colors el) (col f)) in
  (forall b, exists f,
      Classifier.in_class f b = true
      /\ forall g, Classifier.in_class g b = true -> g = f)
  /\ List.length (colors el) = List.length bodies
  /\ Forall (fun c => exists f, c = col f) (colors el)
  /\ N_nea el = painted NEA /\ N_mba el = painted MBA
  /\ N_hilda el = painted Hilda /\ N_trojan el = painted Trojan
  /\ N_tno el = painted TNO /\ N_others el = painted Others
  /\ (N_nea el + N_mba el + N_hilda el + N_trojan el + N_tno el + N_others el
      = N_all el)%Z
  /\ N_all el = Z.of_nat (List.length bodies)
  /\ N_others el
     = Z.of_nat (List.length (filter (Classifier.in_class Others) bodies)).
Proof.
  intros el painted.
  assert (Hc : forall f, painted f = ClassifierCounts.members f bodies).
  { intros f. unfold painted, el. rewrite Classifier.colors_elementwise.
    apply ClassifierCounts.count_painted. }
  destruct (Classifier.masks_elementwise bodies) as (M1 & M2 & M3 & M4 & M5).
  assert (Hall : N_all el = Z.of_nat (List.length bodies))
    by (unfold N_all, el, arrays; cbn [a]; now rewrite length_map).
  assert (H1 : N_nea el = ClassifierCounts.members NEA bodies)
    by (unfold N_nea, el; rewrite M1; apply ClassifierCounts.sum_mask).
  assert (H2 : N_mba el = ClassifierCounts.members MBA bodies)
    by (unfold N_mba, el; rewrite M2; apply ClassifierCounts.sum_mask).
  assert (H3 : N_hilda el = ClassifierCounts.members Hilda bodies)
    by (unfold N_hilda, el; rewrite M3; apply ClassifierCounts.sum_mask).
  assert (H4 : N_trojan el = ClassifierCounts.members Trojan bodies)
    by (unfold N_trojan, el; rewrite M4; apply ClassifierCounts.sum_mask).
  assert (H5 : N_tno el = ClassifierCounts.members TNO bodies)
    by (unfold N_tno, el; rewrite M5; apply ClassifierCounts.sum_mask).
  pose proof (ClassifierCounts.members_total bodies) as T.
  assert (H6 : N_others el = ClassifierCounts.members Others bodies)
    by (unfold N_others; lia).
  split; [apply ClassifierCounts.one_class|].
  split; [unfold el; now rewrite Classifier.colors_elementwise, length_map|].
  split.
  { unfold el. rewrite Classifier.colors_elementwise. apply Forall_map.
    apply Forall_forall. intros b _.
    destruct (ClassifierCounts.one_class b) as [f [Hf _]].
    exists f. now apply Classifier.paint_table. }
  rewrite !Hc. repeat split; try assumption; lia.
Qed.

Section EpochDecoder.

Variable Time_isot_jd : string -> float.

Local Abbreviation mpcepoch2jd := (Common.mpcepoch2jd Time_isot_jd).
Local Abbreviation utc2jd := (Common.utc2jd Time_isot_jd).

(** C4 as the code has it: for every century letter C in I..Z the decoder
    takes century = 1800 + 100 (C - I), so that the code C0001 is decoded as
    January 1 of that year; the centuries are multiples of 100 from 1800 to
    3500, and each of these eighteen is the century of a letter. *)
Theorem century_letters :
  (forall c, Py.between "I" c "Z" = true ->
     Common.century_of c = (1800 + 100 * (Py.ord c - Py.ord "I"))%Z
     /\ (1800 <= Common.century_of c <= 3500)%Z
     /\ (Common.century_of c mod 100 = 0)%Z
     /\ mpcepoch2jd (Decoder.packed c "0" "0" "01")
        = Ok (utc2jd (Py.isoformat
                        (Py.mk_datetime (Common.century_of c) 1 1 0 0 0 0))))
  /\ (forall k, (0 <= k <= 17)%Z ->
        exists c, Py.between "I" c "Z" = true
                  /\ Common.century_of c = (1800 + 100 * k)%Z).
Proof.
  split.
  - intros c Hc.
    assert (U : Py.upper_char c = c).
    { pose proof (Decoder.ascii_forall
        (fun c => implb (Py.between "I" c "Z") (Ascii.eqb (Py.upper_char c) c))
        ltac:(vm_compute; reflexivity) c) as E.
      cbv beta in E. rewrite Hc in E. now apply Ascii.eqb_eq. }
    assert (L : Decoder.is_century_letter c = true)
      by (unfold Decoder.is_century_letter; now rewrite U).
    destruct (Decoder.letter_facts c L) as (_ & _ & _ & B). rewrite U in B.
    split; [reflexivity|]. split; [exact B|].
    split.
    { unfold Common.century_of.
      replace (1800 + 100 * (Py.ord c - Py.ord "I"))%Z
        with ((18 + (Py.ord c - Py.ord "I")) * 100)%Z by ring.
      now apply Z.mod_mul. }
    rewrite Decoder.decode_packed_whole_day
      by (constructor; auto; reflexivity).
    unfold Decoder.packed_year. rewrite U.
    change (Decoder.packed_day "01") with 1%Z.
    change (10 * Decoder.digit_value "0" + Decoder.digit_value "0")%Z with 0%Z.
    rewrite Z.add_0_r. now rewrite Decoder.midnight_new_year by lia.
  - intros k Hk. exists (Py.chr (Py.ord "I" + k)).
    assert (k = 0 \/ k = 1 \/ k = 2 \/ k = 3 \/ k = 4 \/ k = 5 \/ k = 6
            \/ k = 7 \/ k = 8 \/ k = 9 \/ k = 10 \/ k = 11 \/ k = 12
            \/ k = 13 \/ k = 14 \/ k = 15 \/ k = 16 \/ k = 17)%Z as D by lia.
    repeat (destruct D as [-> | D]; [split; reflexivity|]).
    subst. split; reflexivity.
Qed.

(** C4 as stated fails: the century 3900 (step 21 from 1800) is the century of
    no letter in I..Z; the last letter, Z, gives 3500. *)
Lemma century_3900_has_no_letter :
  Common.century_of "Z" = 3500%Z
  /\ ~ (forall k, (0 <= k <= 21)%Z ->
          exists c, Py.between "I" c "Z" = true
                    /\ Common.century_of c = (1800 + 100 * k)%Z).
Proof.
  split; [reflexivity|].
  intros H. destruct (H 21%Z ltac:(lia)) as (c & Hc & E).
  pose proof (Decoder.ascii_forall
    (fun c => implb (Py.between "I" c "Z") (Common.century_of c <=? 3500)%Z)
    ltac:(vm_compute; reflexivity) c) as B.
  cbv beta in B. rewrite Hc in B. apply Z.leb_le in B. lia.
Qed.

(** C5 as the code has it: for a code of ASCII characters that, once
    trimmed, is not a numeric string, decoding the code is decoding the code
    without its surrounding whitespace, and it raises when the first
    character of the trimmed code, the century letter, converted to upper
    case, is not in I..Z, and when one of the two characters of the
    day-of-year field (positions 3 and 4 of the part before the ".") is not a
    digit or a letter of the base-36 alphabet (in either case). *)
Theorem decode_failures (code : string) :
  Py.isascii code = true ->
  Decoder.numeric code = false ->
  mpcepoch2jd code = mpcepoch2jd (Py.strip code)
  /\ mpcepoch2jd code = Common.decode_packed Time_isot_jd (Py.strip code)
  /\ (forall c rest,
        Py.strip code = String c rest ->
        Decoder.is_century_letter c = false ->
        Decoder.fails (mpcepoch2jd code))
  /\ (forall k d,
        k = 3%nat \/ k = 4%nat ->
        String.get k (Decoder.integer_part code) = Some d ->
        Decoder.is_base36 d = false ->
        Decoder.fails (mpcepoch2jd code)).
Proof.
  intros _ H. repeat split.
  - symmetry. apply Decoder.mpcepoch2jd_strip.
  - now apply Decoder.mpcepoch2jd_not_numeric.
  - intros c rest. now apply Decoder.bad_century_fails.
  - intros k d. now apply Decoder.bad_day_fails.
Qed.

End EpochDecoder.

(** C5 as stated fails: the century letter k is not in I..Z, the code k141R
    is not a numeric string, and it is decoded like K141R. *)
Lemma lower_case_century_is_decoded :
  Py.between "I" "k" "Z" = false
  /\ Py.isascii "k141R" = true
  /\ is_ok (Py.float_of_str "k141R") = false
  /\ Common.mpcepoch2jd (fun _ => 0%float) "k141R"
     = Ok (Common.utc2jd (fun _ => 0%float) "2014-03-04T00:00:00").
Proof. repeat split. Qed.

(** A code with a century letter before I, between blanks, is refused. *)
Lemma decode_failures_witness :
  Decoder.fails (Common.mpcepoch2jd (fun _ => 0%float) " A141R ")
  /\ Decoder.fails (Common.mpcepoch2jd (fun _ => 0%float) "K141!").
Proof.
  split.
  - exact (proj1 (proj2 (proj2
             (decode_failures (fun _ => 0%float) " A141R " eq_refl eq_refl)))
             "A"%char "141R" eq_refl eq_refl).
  - exact (proj2 (proj2 (proj2
             (decode_failures (fun _ => 0%float) "K141!" eq_refl eq_refl)))
             4%nat "!"%char (or_intror eq_refl) eq_refl eq_refl).
Defined.

Section EpochDecoderDates.

Variable Time_isot_jd : string -> float.

Local Abbreviation mpcepoch2jd := (Common.mpcepoch2jd Time_isot_jd).
Local Abbreviation utc2jd := (Common.utc2jd Time_isot_jd).

(** The base-36 digit of a value below 36. *)
Definition base36_char (k : Z) : ascii :=
  if (k <? 10)%Z then Py.chr (Py.ord "0" + k) else Py.chr (Py.ord "A" + k - 10).

(** C10: the day-of-year field is neither range- nor length-checked.  For
    every century letter and two year digits, the code with day field 00 is
    decoded without error as December 31 of the year before; the code followed
    by any string of base-36 digits (none, one, two or more, of which the
    first two are read) is decoded without error as the day that many days
    after December 31, which stays in the year for values up to the length of
    the year and lies in a later year for the values above it; and every
    value from 0 to 1295 is the value of two base-36 digits. *)
Theorem day_of_year_unvalidated (c y1 y2 : ascii) :
  Decoder.is_century_letter c = true ->
  Py.isdigit y1 = true -> Py.isdigit y2 = true ->
  let y := Decoder.packed_year c y1 y2 in
  (1800 <= y <= 3599)%Z
  /\ mpcepoch2jd (Decoder.packed c y1 y2 "00")
     = Ok (utc2jd (Py.isoformat (Py.mk_datetime (y - 1) 12 31 0 0 0 0)))
  /\ (forall field,
        Decoder.every Decoder.is_base36 field = true ->
        let v := Decoder.packed_day field in
        (0 <= v <= 1295)%Z
        /\ mpcepoch2jd (Decoder.packed c y1 y2 field)
           = Ok (utc2jd (Py.isoformat (Decoder.day_of_year y v)))
        /\ ((1 <= v <= Decoder.days_in_year y)%Z ->
            Py.year (Decoder.day_of_year y v) = y)
        /\ ((Decoder.days_in_year y < v)%Z ->
            (y < Py.year (Decoder.day_of_year y v))%Z))
  /\ (forall v, (0 <= v <= 1295)%Z ->
        exists d1 d2,
          Decoder.is_base36 d1 = true /\ Decoder.is_base36 d2 = true
          /\ Decoder.packed_day (String d1 (String d2 "")) = v).
Proof.
  intros Hc H1 H2 y.
  pose proof (Decoder.packed_year_bounds c y1 y2 Hc H1 H2) as By. fold y in By.
  split; [exact By|]. split; [|split].
  - rewrite Decoder.decode_packed_whole_day by (constructor; auto).
    fold y. change (Decoder.packed_day "00") with 0%Z.
    now rewrite Decoder.new_years_eve.
  - intros field Hf v.
    destruct (Decoder.slice_day_digits field Hf) as [_ Bv]. fold v in Bv.
    split; [exact Bv|]. split.
    + now rewrite Decoder.decode_packed_whole_day by (constructor; auto).
    + pose proof (Decoder.new_year_ordinal_bounds y ltac:(lia)) as Bo.
      rewrite Decoder.new_year_ordinal in Bo.
      destruct (Decoder.day_of_year_year y v ltac:(lia)) as (_ & A & B).
      split; assumption.
  - intros v Hv.
    exists (base36_char (v / 36)), (base36_char (v mod 36)).
    pose proof (Decoder.zrange_forall
      (fun v => Decoder.is_base36 (base36_char (v / 36))
                && Decoder.is_base36 (base36_char (v mod 36))
                && (Decoder.packed_day
                      (String (base36_char (v / 36))
                         (String (base36_char (v mod 36)) "")) =? v)%Z)
      0 1296 ltac:(vm_compute; reflexivity) v ltac:(lia)) as E.
    cbv beta in E. rewrite !andb_true_iff, Z.eqb_eq in E. tauto.
Qed.

(** C3: a numeric string is returned as the float it denotes.  A code CYYDD
    of a century letter, two decimal digits and two base-36 digits is decoded
    as the Julian Date of the day that is (day-of-year value - 1) days after
    January 1 of year century + YY, which is what adding that many whole days
    to January 1 gives; followed by a fraction [.fff] of decimal digits it is
    decoded as the Julian Date of January 1 of that year plus
    [timedelta(days=DD + 0.fff - 1)], where both the [timedelta] and the sum
    exist.  K141R is decoded as the Julian Date of 2014-03-04T00:00:00 and
    K141R.5 as that of noon of the same day. *)
Theorem decode_epoch :
  (forall code jd, Py.float_of_str code = Ok jd -> mpcepoch2jd code = Ok jd)
  /\ (forall c y1 y2 d1 d2,
        Decoder.packed_chars c y1 y2 (String d1 (String d2 "")) ->
        let year := Decoder.packed_year c y1 y2 in
        let new_year := Py.mk_datetime year 1 1 0 0 0 0 in
        let day := (36 * Decoder.base36_value d1 + Decoder.base36_value d2)%Z in
        let date := Decoder.fromordinal (Py.ymd2ord year 1 1 + day - 1)%Z in
        let code := Decoder.packed c y1 y2 (String d1 (String d2 "")) in
        Py.datetime_add new_year ((day - 1) * Py.US_PER_DAY)%Z = Ok date
        /\ mpcepoch2jd code = Ok (utc2jd (Py.isoformat date))
        /\ forall fff,
             Decoder.every Py.isdigit fff = true ->
             exists delta date,
               Py.timedelta_days
                 (Py.float_of_int day + FractionCodes.fraction fff - 1)%float
               = Ok delta
               /\ Py.datetime_add new_year delta = Ok date
               /\ mpcepoch2jd (code ++ "." ++ fff)
                  = Ok (utc2jd (Py.isoformat date)))
  /\ mpcepoch2jd "K141R" = Ok (utc2jd "2014-03-04T00:00:00")
  /\ mpcepoch2jd "K141R.5" = Ok (utc2jd "2014-03-04T12:00:00").
Proof.
  split; [|split; [|split]].
  - intros code jd H. unfold Common.mpcepoch2jd.
    now rewrite (FloatSyntax.float_of_str_stripped code jd H).
  - intros c y1 y2 d1 d2 V year new_year day date code.
    assert (D : Decoder.packed_day (String d1 (String d2 "")) = day)
      by (unfold Decoder.packed_day, Decoder.base36_number;
          change (Py.slice (String d1 (String d2 "")) 0 2)
            with (String d1 (String d2 ""));
          cbn [Decoder.base36_from]; subst day; lia).
    destruct V as [Hc H1 H2 H3].
    pose proof (Decoder.packed_year_bounds c y1 y2 Hc H1 H2) as By.
    fold year in By.
    destruct (Decoder.slice_day_digits _ H3) as [_ Bd]. rewrite D in Bd.
    pose proof (Decoder.new_year_ordinal_bounds year ltac:(lia)) as Bo.
    split; [|split].
    + subst new_year date.
      rewrite Decoder.datetime_add_whole_days by (unfold Py.MAXORDINAL; lia).
      now rewrite Z.add_sub_assoc.
    + subst code.
      rewrite (Decoder.decode_packed_whole_day Time_isot_jd c y1 y2 _
                 (Decoder.mk_packed_chars _ _ _ _ Hc H1 H2 H3)).
      rewrite D. reflexivity.
    + intros fff F.
      destruct (FractionCodes.decode_packed_fraction Time_isot_jd c y1 y2 _ fff
                  (Decoder.mk_packed_chars _ _ _ _ Hc H1 H2 H3) F)
        as (delta & date' & E1 & E2 & E3).
      rewrite D in E1. now exists delta, date'.
  - reflexivity.
  - vm_compute. reflexivity.
Qed.

End EpochDecoderDates.

(** K1400 is December 31 of 2013 and K14ZZ, day 1295, is July 18 of 2017. *)
Lemma day_of_year_unvalidated_witness :
  Common.mpcepoch2jd (fun _ => 0%float) "K1400"
  = Ok (Common.utc2jd (fun _ => 0%float) "2013-12-31T00:00:00")
  /\ Common.mpcepoch2jd (fun _ => 0%float) "K14ZZ"
     = Ok (Common.utc2jd (fun _ => 0%float) "2017-07-18T00:00:00").
Proof.
  pose proof (day_of_year_unvalidated (fun _ => 0%float) "K" "1" "4"
                eq_refl eq_refl eq_refl) as (_ & A & B & _).
  split; [exact A|].
  exact (proj1 (proj2 (B "ZZ" eq_refl))).
Defined.

Section KeplerSolver.

Variables np_sin np_cos : float -> float.

Local Abbreviation solve_kepler_eq := (Common.solve_kepler_eq np_sin np_cos).
Local Abbreviation kepler_step := (Common.kepler_step np_sin np_cos).
Local Abbreviation newton := (Kepler.newton np_sin np_cos).

(** C8: on arrays of one length the solver returns, element by element, the
    result of exactly [max_iter] Newton-Raphson updates
    E <- E - (E - e sin E - M) / (1 - e cos E) started at E = M; every pass of
    the loop applies the update to the whole array, whatever the values are
    (no convergence test, no early exit); the default count is 10. *)
Theorem solve_fixed_iterations (M e : Np.ndarray) (max_iter : nat) :
  List.length M = List.length e ->
  solve_kepler_eq M e max_iter
  = Np.map2 (fun m ec => Nat.iter max_iter (newton m ec) m) M e
  /\ solve_kepler_eq M e 0 = M
  /\ solve_kepler_eq M e (S max_iter)
     = kepler_step M e (solve_kepler_eq M e max_iter)
  /\ Common.max_iter_default = 10%nat.
Proof.
  intros H. split; [now apply Kepler.solve_elementwise|].
  split; [reflexivity|]. split; [|reflexivity].
  now rewrite !Kepler.solve_unfold, Nat.iter_succ.
Qed.

(** C9: when sin 0 = 0 and cos 0 = 1, for every eccentricity 0 <= e < 1 the
    update maps E = 0 to 0 at M = 0, and the solver applied to mean
    anomalies 0 returns eccentric anomalies that are the float 0, whatever
    the number of iterations. *)
Theorem solve_zero_mean_anomaly (es : Np.ndarray) (max_iter : nat) :
  np_sin 0 = 0%float -> np_cos 0 = 1%float ->
  Forall (fun e => (0 <=? e)%float = true /\ (e <? 1)%float = true) es ->
  solve_kepler_eq (map (fun _ => 0%float) es) es max_iter
  = map (fun _ => 0%float) es
  /\ Forall (fun e => newton 0 e 0 = 0%float) es.
Proof.
  intros Hs Hc Hes. split.
  - rewrite <- (map_id es) at 2.
    rewrite (Kepler.solve_map np_sin np_cos (fun _ => 0%float) (fun e => e)).
    apply map_ext_in. intros e He.
    rewrite Forall_forall in Hes. destruct (Hes e He) as [H0 H1].
    now apply Kepler.iter_newton_zero.
  - revert Hes. apply Forall_impl. intros e [H0 H1].
    now apply Kepler.newton_zero.
Qed.

End KeplerSolver.

(** Three updates of two bodies, with x - x^3/6 and 1 - x^2/2 for sine and
    cosine. *)
Lemma solve_fixed_iterations_witness :
  let s := (fun x => x - x * x * x / 6)%float in
  let c := (fun x => 1 - x * x / 2)%float in
  Common.solve_kepler_eq s c [0.5; 2]%float [0.1; 0.2]%float 3
  = [Nat.iter 3 (Kepler.newton s c 0.5 0.1) 0.5;
     Nat.iter 3 (Kepler.newton s c 2 0.2) 2]%float.
Proof.
  exact (proj1 (solve_fixed_iterations
                  (fun x => x - x * x * x / 6)%float
                  (fun x => 1 - x * x / 2)%float
                  [0.5; 2]%float [0.1; 0.2]%float 3 eq_refl)).
Defined.

(** Mean anomaly 0 at eccentricities 0, 0.5 and 0.9. *)
Lemma solve_zero_mean_anomaly_witness :
  Common.solve_kepler_eq (fun x => x - x * x * x / 6)%float
    (fun x => 1 - x * x / 2)%float [0; 0; 0]%float [0; 0.5; 0.9]%float 10
  = [0; 0; 0]%float.
Proof.
  exact (proj1 (solve_zero_mean_anomaly
                  (fun x => x - x * x * x / 6)%float
                  (fun x => 1 - x * x / 2)%float
                  [0; 0.5; 0.9]%float 10 eq_refl eq_refl
                  ltac:(repeat constructor))).
Defined.

Section OrbitalStatePropagator.

Variables np_sin np_cos : float -> float.
Variable np_arctan2 : float -> float -> float.
Variable np_mod : float -> float -> float.
Variable Time_isot_jd : string -> float.
Variables np_min np_max : Np.ndarray -> float.
Variable Time_jd_datetime : float -> result string.

Local Abbreviation mpcepoch2jd := (Common.mpcepoch2jd Time_isot_jd).
Local Abbreviation propagate :=
  (Script.propagate np_sin np_cos np_arctan2 np_mod Time_isot_jd
     np_min np_max Time_jd_datetime).
Local Abbreviation check_epochs :=
  (Script.check_epochs np_min np_max Time_jd_datetime).
Local Abbreviation propagate_body :=
  (Propagator.propagate_body np_sin np_cos np_arctan2 np_mod).

(** C6 as the code has it.  If the first body whose epoch code is refused
    is refused with an exception, the propagation of the whole population
    ends with that exception and gives no state.  Every exception of the
    propagation is the one of some body's epoch code or, when all epochs are
    decoded, the one of the check of the earliest and the latest epoch (lines
    100 to 107); this check raises ValueError for a population without bodies
    and otherwise what [jd2utc] raises for one of the two dates.  If every
    epoch code is decoded and the check passes, the propagation gives arrays
    of the length of the population whose entries at each index are the state
    of the body at that index. *)
Theorem propagate_batch (bodies : list body) (jd_now : float) :
  (forall pre b post err,
      bodies = (pre ++ b :: post)%list ->
      Forall (fun b' => is_ok (mpcepoch2jd (b_epoch b')) = true) pre ->
      mpcepoch2jd (b_epoch b) = Raise err ->
      propagate (arrays bodies) jd_now = Raise err)
  /\ (forall err,
        propagate (arrays bodies) jd_now = Raise err ->
        (exists b, In b bodies /\ mpcepoch2jd (b_epoch b) = Raise err)
        \/ (exists jds,
              Forall2 (fun b jd => mpcepoch2jd (b_epoch b) = Ok jd) bodies jds
              /\ check_epochs jds = Raise err))
  /\ is_ValueError (check_epochs []) = true
  /\ (forall jd jds,
        check_epochs (jd :: jds)
        = (_ <- Common.jd2utc Time_jd_datetime (np_min (jd :: jds)) ;;
           _ <- Common.jd2utc Time_jd_datetime (np_max (jd :: jds)) ;;
           Ok tt))
  /\ (forall jds,
        Forall2 (fun b jd => mpcepoch2jd (b_epoch b) = Ok jd) bodies jds ->
        check_epochs jds = Ok tt ->
        exists st,
          propagate (arrays bodies) jd_now = Ok st
          /\ List.length (M_t st) = List.length bodies
          /\ List.length (E st) = List.length bodies
          /\ List.length (nu st) = List.length bodies
          /\ List.length (r st) = List.length bodies
          /\ List.length (x st) = List.length bodies
          /\ List.length (y st) = List.length bodies
          /\ forall k b,
               nth_error bodies k = Some b ->
               exists jd,
                 nth_error jds k = Some jd
                 /\ mpcepoch2jd (b_epoch b) = Ok jd
                 /\ Propagator.state_at st k
                    = Some (propagate_body jd_now b jd)).
Proof.
  rewrite Propagator.propagate_elementwise.
  split; [|split; [|split; [reflexivity|split; [reflexivity|]]]].
  - intros pre b post err -> Hpre Hb.
    assert (L : list_comprehension mpcepoch2jd
                  (map b_epoch (pre ++ b :: post)) = Raise err).
    { apply Propagator.list_comprehension_raise.
      exists (map b_epoch pre), (b_epoch b), (map b_epoch post).
      rewrite map_app. repeat split; [|assumption].
      now apply Forall_map. }
    now rewrite L.
  - intros err H.
    destruct (list_comprehension mpcepoch2jd (map b_epoch bodies))
      as [jds|err'] eqn:L; cbn [bind] in H.
    + right. exists jds.
      apply Propagator.list_comprehension_ok in L.
      apply Forall2_map_left in L. split; [exact L|].
      destruct (check_epochs jds) as [[]|err']; cbn [bind] in H;
        [discriminate|congruence].
    + left. injection H as ->.
      apply Propagator.list_comprehension_raise in L.
      destruct L as (pre & c & post & Hl & _ & Hc).
      assert (I : In c (map b_epoch bodies))
        by (rewrite Hl; apply in_or_app; right; now left).
      apply in_map_iff in I. destruct I as (b & <- & Hb). now exists b.
  - intros jds L C.
    pose proof (Forall2_length L) as Hlen.
    assert (L' : list_comprehension mpcepoch2jd (map b_epoch bodies) = Ok jds)
      by (apply Propagator.list_comprehension_ok; now apply Forall2_map_left).
    rewrite L'. cbn [bind]. rewrite C. cbn [bind].
    eexists. split; [reflexivity|].
    assert (Hl : List.length (Np.map2 (propagate_body jd_now) bodies jds)
                 = List.length bodies).
    { unfold Np.map2. rewrite length_map, length_combine. lia. }
    unfold Propagator.of_states at 1 2 3 4 5 6. cbn [M_t E nu r x y].
    rewrite !length_map.
    repeat (split; [exact Hl|]).
    intros k b Hk.
    destruct (Propagator.nth_error_map2 _ (propagate_body jd_now) _ _ L k b Hk)
      as (jd & Hjd & Hst).
    exists jd. split; [|split; [assumption|]].
    + clear - L Hk Hjd. revert k Hk.
      induction L as [|b0 jd0 bs js H0 _ IH]; intros k Hk;
        [now destruct k|].
      destruct k as [|k]; cbn [nth_error] in *.
      * injection Hk as ->. congruence.
      * now apply IH.
    + now rewrite Propagator.state_at_of_states.
Qed.

(** C7: whenever the propagation of a population ends with states, the
    epochs decoded to the Julian Dates [jds], the propagated mean anomaly of
    each body is M + n (jd_now - jd), as it is, and the arrays handed to the
    solver are these values and the eccentricities, with the default number
    of iterations: nothing is reduced modulo 2 pi before. *)
Theorem mean_anomaly_unwrapped (bodies : list body) (jds : list float)
  (jd_now : float) (st : states) :
  Forall2 (fun b jd => mpcepoch2jd (b_epoch b) = Ok jd) bodies jds ->
  propagate (arrays bodies) jd_now = Ok st ->
  M_t st
  = Np.map2 (fun b jd => (b_M b + b_n b * (jd_now - jd))%float) bodies jds
  /\ E st
     = Common.solve_kepler_eq np_sin np_cos (M_t st) (map b_e bodies)
         Common.max_iter_default.
Proof.
  intros H P.
  assert (L : list_comprehension mpcepoch2jd (map b_epoch bodies) = Ok jds)
    by (apply Propagator.list_comprehension_ok; now apply Forall2_map_left).
  unfold Script.propagate in P.
  change (epoch (arrays bodies)) with (map b_epoch bodies) in P.
  rewrite L in P. cbn [bind] in P.
  destruct (Script.check_epochs np_min np_max Time_jd_datetime jds) as [[]|err];
    cbn [bind] in P; [|discriminate].
  injection P as <-.
  split; [|reflexivity].
  unfold Script.locations. cbn [M_t arrays M n].
  pose proof (Forall2_length H) as Hlen.
  rewrite <- (Kepler.fst_combine bodies jds Hlen) at 1 2.
  rewrite <- (Kepler.snd_combine bodies jds Hlen) at 3.
  unfold Np.add, Np.mul, Np.rsub.
  rewrite !map_map.
  repeat (rewrite ?Classifier.map2_map, ?map_map).
  reflexivity.
Qed.

End OrbitalStatePropagator.

(** C6 as stated fails: in a population without bodies no epoch code is
    refused, and the propagation ends with the ValueError of [np.min]. *)
Lemma empty_population_raises :
  Forall (fun b => is_ok (Common.mpcepoch2jd (fun _ => 0%float) (b_epoch b))
                   = true) []
  /\ Script.propagate (fun x => x) (fun x => x) (fun _ x => x) (fun x _ => x)
       (fun _ => 0%float) (fun _ => 0%float) (fun _ => 0%float)
       (fun _ => Ok ""%string) (arrays []) 2456820.5
     = Raise (ValueError
                "zero-size array to reduction operation minimum which has no identity").
Proof. split; [constructor|reflexivity]. Qed.

(** A body at mean anomaly 0 with mean motion 1 rad/day, 100 days after its
    epoch: the mean anomaly handed to the solver is 100, above 2 pi. *)
Lemma mean_anomaly_unwrapped_witness :
  let s := (fun x => x - x * x * x / 6)%float in
  let c := (fun x => 1 - x * x / 2)%float in
  let bodies := [mk_body "2456720.5" 0 0 0 0 0.1 2.5 1] in
  let st :=
    Script.locations s c (fun _ x => x) (fun x _ => x) (arrays bodies)
      [2456720.5%float] 2456820.5 in
  M_t st = [100%float]
  /\ E st = Common.solve_kepler_eq s c (M_t st) [0.1%float] 10.
Proof.
  exact (mean_anomaly_unwrapped
           (fun x => x - x * x * x / 6)%float (fun x => 1 - x * x / 2)%float
           (fun _ x => x) (fun x _ => x) (fun _ => 0%float)
           (fun xs => hd 0%float xs) (fun xs => hd 0%float xs)
           (fun _ => Ok ""%string)
           [mk_body "2456720.5" 0 0 0 0 0.1 2.5 1] [2456720.5%float]
           2456820.5%float _
           ltac:(repeat constructor) eq_refl).
Defined.

(** * Further properties of the code

    What follows covers code that the statements above leave aside:
    [base36_to_int] as a function of its own, the reading of the catalogue,
    and edge cases of the decoder, the solver and the classifier. *)

(** ** Base-36 numbers *)

Module Base36.

Import Decoder.
Open Scope Z_scope.

Lemma base36_from_app (s t : string) (value : Z) :
  base36_from value (s ++ t) = base36_from (base36_from value s) t.
Proof.
  revert value. induction s as [|c s IH]; intros value;
    cbn [append base36_from]; [reflexivity|apply IH].
Qed.

Lemma base36_from_linear (s : string) (value : Z) :
  base36_from value s
  = value * 36 ^ Z.of_nat (String.length s) + base36_from 0 s.
Proof.
  revert value. induction s as [|c s IH]; intros value;
    cbn [base36_from String.length]; [cbn; lia|].
  rewrite (IH (value * 36 + base36_value c)), (IH (0 * 36 + base36_value c)).
  rewrite Nat2Z.inj_succ, Z.pow_succ_r by lia. ring.
Qed.

Lemma base36_number_bounds (s : string) :
  every is_base36 s = true ->
  0 <= base36_number s < 36 ^ Z.of_nat (String.length s).
Proof.
  unfold base36_number.
  induction s as [|c s IH]; cbn [every base36_from String.length];
    [cbn; lia|].
  rewrite andb_true_iff. intros [Hc Hs]. specialize (IH Hs).
  destruct (base36_facts c Hc) as (_ & Bc & _).
  rewrite base36_from_linear, Nat2Z.inj_succ, Z.pow_succ_r by lia.
  set (p := 36 ^ Z.of_nat (String.length s)) in *. clearbody p. nia.
Qed.

Lemma base36_to_int_digits (s : string) :
  every is_base36 s = true -> Common.base36_to_int s = Ok (base36_number s).
Proof. intros H. unfold Common.base36_to_int. now apply base36_loop_digits. Qed.

(** The first character outside the alphabet is the one reported. *)
Lemma base36_loop_first_bad (pre : string) (c : ascii) (post : string)
  (value : Z) :
  every is_base36 pre = true -> is_base36 c = false ->
  Common.base36_loop (Py.upper (pre ++ String c post)) value
  = Raise (ValueError
             ("Invalid base36 character: " ++ String (Py.upper_char c) "")).
Proof.
  revert value. induction pre as [|d pre IH]; intros value;
    cbn [every append Py.upper Common.base36_loop].
  - intros _ Hc. now rewrite (base36_digit_raises c Hc).
  - rewrite andb_true_iff. intros [Hd Hp] Hc.
    destruct (base36_facts d Hd) as (_ & _ & ->). cbn [bind]. now apply IH.
Qed.

(** A string with a character outside the alphabet splits at the first. *)
Lemma first_bad (s : string) :
  every is_base36 s = false ->
  exists pre c post,
    s = (pre ++ String c post)%string
    /\ every is_base36 pre = true /\ is_base36 c = false.
Proof.
  induction s as [|c s IH]; cbn [every]; [discriminate|].
  destruct (is_base36 c) eqn:Hc.
  - cbn [andb]. intros H. destruct (IH H) as (pre & d & post & -> & Hp & Hd).
    exists (String c pre), d, post. cbn [append every]. now rewrite Hc, Hp.
  - intros _. now exists ""%string, c, s.
Qed.

Lemma upper_upper_char (c : ascii) :
  Py.upper_char (Py.upper_char c) = Py.upper_char c
  /\ Py.upper_char (Py.lower_char c) = Py.upper_char c.
Proof.
  pose proof (ascii_forall
    (fun c => Ascii.eqb (Py.upper_char (Py.upper_char c)) (Py.upper_char c)
              && Ascii.eqb (Py.upper_char (Py.lower_char c)) (Py.upper_char c))
    ltac:(vm_compute; reflexivity) c) as E.
  cbv beta in E. now rewrite andb_true_iff, !Ascii.eqb_eq in E.
Qed.

Lemma upper_upper (s : string) :
  Py.upper (Py.upper s) = Py.upper s /\ Py.upper (Py.lower s) = Py.upper s.
Proof.
  induction s as [|c s [IH1 IH2]]; cbn [Py.upper Py.lower]; [now split|].
  destruct (upper_upper_char c) as [-> ->]. now rewrite IH1, IH2.
Qed.

Lemma length_append (s t : string) :
  String.length (s ++ t) = (String.length s + String.length t)%nat.
Proof. induction s as [|c s IH]; cbn [append String.length plus]; congruence. Qed.

Lemma length_upper (s : string) : String.length (Py.upper s) = String.length s.
Proof. induction s as [|c s IH]; cbn [Py.upper String.length]; congruence. Qed.

(** Two digits of the same value are the same letter up to case. *)
Lemma base36_value_inj (c d : ascii) :
  is_base36 c = true -> is_base36 d = true ->
  base36_value c = base36_value d -> Py.upper_char c = Py.upper_char d.
Proof.
  intros Hc Hd E.
  pose proof (ascii_forall2
    (fun c d => implb (is_base36 c && is_base36 d
                       && (base36_value c =? base36_value d))
                  (Ascii.eqb (Py.upper_char c) (Py.upper_char d)))
    ltac:(vm_compute; reflexivity) c d) as F.
  cbv beta in F. rewrite Hc, Hd, E, Z.eqb_refl in F. cbn [andb implb] in F.
  now apply Ascii.eqb_eq.
Qed.

Lemma base36_number_inj (s t : string) :
  String.length s = String.length t ->
  every is_base36 s = true -> every is_base36 t = true ->
  base36_number s = base36_number t -> Py.upper s = Py.upper t.
Proof.
  unfold base36_number. revert t.
  induction s as [|c s IH]; intros [|d t]; cbn [String.length]; try discriminate;
    [reflexivity|].
  intros L. injection L as L. cbn [every base36_from Py.upper].
  rewrite !andb_true_iff. intros [Hc Hs] [Hd Ht].
  rewrite (base36_from_linear s), (base36_from_linear t), L.
  pose proof (base36_number_bounds s Hs) as Bs.
  pose proof (base36_number_bounds t Ht) as Bt.
  unfold base36_number in Bs, Bt. rewrite L in Bs.
  destruct (base36_facts c Hc) as (_ & Bc & _).
  destruct (base36_facts d Hd) as (_ & Bd & _).
  set (p := 36 ^ Z.of_nat (String.length t)) in *. clearbody p.
  intros E.
  assert (Ev : base36_value c = base36_value d) by nia.
  rewrite (base36_value_inj c d Hc Hd Ev).
  f_equal. apply IH; try assumption. nia.
Qed.

(** The [k] base-36 digits of [n], most significant first. *)
Fixpoint base36_encode (k : nat) (n : Z) : string :=
  match k with
  | O => ""
  | S k' => base36_encode k' (n / 36) ++ String (base36_char (n mod 36)) ""
  end.

Lemma base36_char_facts (d : Z) :
  0 <= d < 36 ->
  is_base36 (base36_char d) = true /\ base36_value (base36_char d) = d
  /\ Py.upper_char (base36_char d) = base36_char d.
Proof.
  intros H.
  pose proof (zrange_forall
    (fun d => is_base36 (base36_char d)
              && (base36_value (base36_char d) =? d)
              && Ascii.eqb (Py.upper_char (base36_char d)) (base36_char d))
    0 36 ltac:(vm_compute; reflexivity) d ltac:(lia)) as E.
  cbv beta in E. now rewrite !andb_true_iff, Z.eqb_eq, Ascii.eqb_eq in E.
Qed.

Lemma base36_encode_facts (k : nat) (n : Z) :
  0 <= n < 36 ^ Z.of_nat k ->
  String.length (base36_encode k n) = k
  /\ every is_base36 (base36_encode k n) = true
  /\ Py.upper (base36_encode k n) = base36_encode k n
  /\ base36_number (base36_encode k n) = n.
Proof.
  revert n. induction k as [|k IH]; intros n Hn.
  - cbn in Hn. cbn. repeat split; try reflexivity.
    unfold base36_number. cbn. lia.
  - rewrite Nat2Z.inj_succ, Z.pow_succ_r in Hn by lia.
    cbn [base36_encode].
    assert (Hq : 0 <= n / 36 < 36 ^ Z.of_nat k)
      by (split; [apply Z.div_pos; lia|apply Z.div_lt_upper_bound; lia]).
    destruct (IH _ Hq) as (L & A & U & V).
    destruct (base36_char_facts (n mod 36) ltac:(apply Z.mod_pos_bound; lia))
      as (Cb & Cv & Cu).
    repeat split.
    + rewrite length_append, L. cbn. lia.
    + rewrite every_app, A. cbn [every]. now rewrite Cb.
    + clear - U Cu. induction (base36_encode k (n / 36)) as [|c s IHs];
        cbn [append Py.upper] in *; [now rewrite Cu|].
      injection U as U1 U2. now rewrite U1, (IHs U2).
    + unfold base36_number in *. rewrite base36_from_app, V.
      cbn [base36_from]. rewrite Cv. symmetry. rewrite Z.mul_comm.
      apply Z.div_mod. lia.
Qed.

Lemma base36_to_int_ok (s : string) :
  is_ok (Common.base36_to_int s) = every is_base36 s.
Proof.
  destruct (every is_base36 s) eqn:H.
  - now rewrite (base36_to_int_digits s H).
  - destruct (first_bad s H) as (pre & c & post & -> & Hp & Hc).
    unfold Common.base36_to_int.
    now rewrite (base36_loop_first_bad pre c post 0 Hp Hc).
Qed.

Lemma base36_to_int_value (s : string) (v : Z) :
  Common.base36_to_int s = Ok v ->
  every is_base36 s = true /\ v = base36_number s.
Proof.
  intros H. pose proof (base36_to_int_ok s) as E. rewrite H in E.
  cbn [is_ok] in E. symmetry in E. split; [exact E|].
  rewrite (base36_to_int_digits s E) in H. congruence.
Qed.

End Base36.

Section Base36Properties.

Open Scope Z_scope.

(** X1: among the strings of ASCII characters, [base36_to_int] returns a
    number exactly for the strings of digits and letters A to Z in either
    case, the empty string among them; on any other such string it raises
    the ValueError that names, in upper case, the first character outside
    this alphabet. *)
Theorem base36_to_int_alphabet (s : string) :
  Py.isascii s = true ->
  is_ok (Common.base36_to_int s) = Decoder.every Decoder.is_base36 s
  /\ (forall pre c post,
        s = (pre ++ String c post)%string ->
        Decoder.every Decoder.is_base36 pre = true ->
        Decoder.is_base36 c = false ->
        Common.base36_to_int s
        = Raise (ValueError ("Invalid base36 character: "
                             ++ String (Py.upper_char c) ""))).
Proof.
  intros _. split; [apply Base36.base36_to_int_ok|].
  intros pre c post -> Hp Hc. unfold Common.base36_to_int.
  now apply Base36.base36_loop_first_bad.
Qed.

(** The digits 1r are a number; in 1r!x the first character that is none is
    the exclamation mark. *)
Lemma base36_to_int_alphabet_witness :
  is_ok (Common.base36_to_int "1r") = true
  /\ Common.base36_to_int "1r!x"
     = Raise (ValueError "Invalid base36 character: !").
Proof.
  split.
  - exact (proj1 (base36_to_int_alphabet "1r" eq_refl)).
  - exact (proj2 (base36_to_int_alphabet "1r!x" eq_refl)
             "1r"%string "!"%char "x"%string eq_refl eq_refl eq_refl).
Defined.

(** X2: the value is positional with the most significant digit first.  The
    empty string is 0, a string of [k] digits is a number from 0 to
    [36^k - 1], and a string [s] followed by a string [t] of [k] digits is the
    value of [s] times [36^k] plus the value of [t]. *)
Theorem base36_to_int_positional (s t : string) :
  Decoder.every Decoder.is_base36 s = true ->
  Decoder.every Decoder.is_base36 t = true ->
  exists vs vt,
    Common.base36_to_int s = Ok vs /\ Common.base36_to_int t = Ok vt
    /\ 0 <= vs < 36 ^ Z.of_nat (String.length s)
    /\ 0 <= vt < 36 ^ Z.of_nat (String.length t)
    /\ Common.base36_to_int (s ++ t)
       = Ok (vs * 36 ^ Z.of_nat (String.length t) + vt)
    /\ Common.base36_to_int "" = Ok 0.
Proof.
  intros Hs Ht.
  exists (Decoder.base36_number s), (Decoder.base36_number t).
  rewrite (Base36.base36_to_int_digits s Hs),
    (Base36.base36_to_int_digits t Ht),
    (Base36.base36_to_int_digits (s ++ t))
    by now rewrite Decoder.every_app, Hs, Ht.
  repeat split; try apply Base36.base36_number_bounds; try assumption.
  unfold Decoder.base36_number.
  now rewrite Base36.base36_from_app, Base36.base36_from_linear.
Qed.

(** The numbers 1 and 0 make 36. *)
Lemma base36_to_int_positional_witness :
  exists vs vt,
    Common.base36_to_int "1" = Ok vs /\ Common.base36_to_int "0" = Ok vt
    /\ 0 <= vs < 36 ^ 1 /\ 0 <= vt < 36 ^ 1
    /\ Common.base36_to_int "10" = Ok (vs * 36 ^ 1 + vt)
    /\ Common.base36_to_int "" = Ok 0.
Proof. exact (base36_to_int_positional "1" "0" eq_refl eq_refl). Defined.

(** X3: for a string of ASCII characters the case of the letters does not
    matter, for the value and for the error alike. *)
Theorem base36_to_int_case (s : string) :
  Py.isascii s = true ->
  Common.base36_to_int (Py.upper s) = Common.base36_to_int s
  /\ Common.base36_to_int (Py.lower s) = Common.base36_to_int s.
Proof.
  intros _. unfold Common.base36_to_int.
  destruct (Base36.upper_upper s) as [-> ->]. now split.
Qed.

Lemma base36_to_int_case_witness :
  Common.base36_to_int "1R" = Common.base36_to_int "1r"
  /\ Common.base36_to_int "1r" = Common.base36_to_int "1r".
Proof. exact (base36_to_int_case "1r" eq_refl). Defined.

(** X4: two strings of ASCII characters of the same length with the same
    value are the same string up to the case of the letters. *)
Theorem base36_to_int_one_to_one (s t : string) (v : Z) :
  Py.isascii s = true -> Py.isascii t = true ->
  String.length s = String.length t ->
  Common.base36_to_int s = Ok v -> Common.base36_to_int t = Ok v ->
  Py.upper s = Py.upper t.
Proof.
  intros _ _ L Hs Ht.
  destruct (Base36.base36_to_int_value s v Hs) as [As Vs].
  destruct (Base36.base36_to_int_value t v Ht) as [At Vt].
  apply Base36.base36_number_inj; try assumption. congruence.
Qed.

Lemma base36_to_int_one_to_one_witness : Py.upper "1r" = Py.upper "1R".
Proof.
  exact (base36_to_int_one_to_one "1r" "1R" 63 eq_refl eq_refl eq_refl
           eq_refl eq_refl).
Defined.

(** X5: every number from 0 to [36^k - 1] is the value of a string of [k]
    upper-case digits, the one [base36_encode] writes: decoding undoes
    encoding. *)
Theorem base36_encode_decode (k : nat) (n : Z) :
  0 <= n < 36 ^ Z.of_nat k ->
  String.length (Base36.base36_encode k n) = k
  /\ Py.upper (Base36.base36_encode k n) = Base36.base36_encode k n
  /\ Common.base36_to_int (Base36.base36_encode k n) = Ok n.
Proof.
  intros H. destruct (Base36.base36_encode_facts k n H) as (L & A & U & V).
  split; [exact L|]. split; [exact U|].
  now rewrite (Base36.base36_to_int_digits _ A), V.
Qed.

Lemma base36_encode_decode_witness :
  Base36.base36_encode 2 63 = "1R"%string
  /\ Common.base36_to_int "1R" = Ok 63.
Proof.
  split; [reflexivity|].
  exact (proj2 (proj2 (base36_encode_decode 2 63 ltac:(cbn; lia)))).
Defined.

End Base36Properties.

(** ** Reading the catalogue ([plot_sssb_xy.py], lines 54 to 91)

    The file object is the list of its lines, each with its newline; the two
    [for] loops share it, so the second goes on where the first stopped. *)

Module Catalog.

Import Script.
Open Scope string_scope.

(** The eight lists of lines 54 to 56. *)
Record columns : Type := mk_columns {
  c_epoch : list string;
  c_M : list float; c_omega : list float; c_Omega : list float;
  c_i : list float; c_e : list float; c_a : list float; c_n : list float }.

Definition no_columns : columns := mk_columns [] [] [] [] [] [] [] [].

(** Lines 60 to 63: what is left of the file after the line that starts
    with three dashes. *)
Fixpoint skip_header (f : list string) : list string :=
  match f with
  | [] => []
  | line :: f' => if String.prefix "---" line then f' else skip_header f'
  end.

(** [len(line.strip()) == 0] *)
Definition blank (line : string) : bool :=
  (String.length (Py.strip line) =? 0)%nat.

(** [line[i:j].strip()] *)
Definition field (line : string) (i j : nat) : string :=
  Py.strip (Py.slice line i j).

(** Lines 69 to 76: the eight [append]s for one line. *)
Definition read_record (line : string) (c : columns) : result columns :=
  let epoch := (c_epoch c ++ [field line 20 25])%list in
  M <- Py.float_of_str (field line 26 35) ;;
  omega <- Py.float_of_str (field line 37 46) ;;
  Omega <- Py.float_of_str (field line 48 57) ;;
  i <- Py.float_of_str (field line 59 68) ;;
  e <- Py.float_of_str (field line 70 79) ;;
  a <- Py.float_of_str (field line 92 103) ;;
  n <- Py.float_of_str (field line 80 91) ;;
  Ok (mk_columns epoch (c_M c ++ [M]) (c_omega c ++ [omega])
        (c_Omega c ++ [Omega]) (c_i c ++ [i]) (c_e c ++ [e]) (c_a c ++ [a])
        (c_n c ++ [n]))%list.

(** [args.Nobj is not None and len(a) >= args.Nobj] *)
Definition enough (Nobj : option Z) (c : columns) : bool :=
  match Nobj with
  | Some N => (N <=? Z.of_nat (List.length (c_a c)))%Z
  | None => false
  end.

(** Lines 64 to 79. *)
Fixpoint read_records (f : list string) (Nobj : option Z) (c : columns)
  : result columns :=
  match f with
  | [] => Ok c
  | line :: f' =>
      if blank line then read_records f' Nobj c
      else
        c' <- read_record line c ;;
        if enough Nobj c' then Ok c' else read_records f' Nobj c'
  end.

(** Lines 54 to 79. *)
Definition read_catalog (f : list string) (Nobj : option Z) : result columns :=
  read_records (skip_header f) Nobj no_columns.

Section Arrays.

(** [np.deg2rad] on one number. *)
Variable np_deg2rad : float -> float.

(** Lines 84 to 91. *)
Definition to_elements (c : columns) : elements :=
  mk_elements (c_epoch c) (map np_deg2rad (c_M c))
    (map np_deg2rad (c_omega c)) (map np_deg2rad (c_Omega c))
    (map np_deg2rad (c_i c)) (c_e c) (c_a c) (map np_deg2rad (c_n c)).

End Arrays.

(** *** The records one by one *)

(** What one line contributes. *)
Record row : Type := mk_row {
  r_epoch : string;
  r_M : float; r_omega : float; r_Omega : float;
  r_i : float; r_e : float; r_a : float; r_n : float }.

Definition parse_row (line : string) : result row :=
  M <- Py.float_of_str (field line 26 35) ;;
  omega <- Py.float_of_str (field line 37 46) ;;
  Omega <- Py.float_of_str (field line 48 57) ;;
  i <- Py.float_of_str (field line 59 68) ;;
  e <- Py.float_of_str (field line 70 79) ;;
  a <- Py.float_of_str (field line 92 103) ;;
  n <- Py.float_of_str (field line 80 91) ;;
  Ok (mk_row (field line 20 25) M omega Omega i e a n).

Definition add_row (c : columns) (r : row) : columns :=
  mk_columns (c_epoch c ++ [r_epoch r]) (c_M c ++ [r_M r])
    (c_omega c ++ [r_omega r]) (c_Omega c ++ [r_Omega r])
    (c_i c ++ [r_i r]) (c_e c ++ [r_e r]) (c_a c ++ [r_a r])
    (c_n c ++ [r_n r])%list.

Definition add_rows (c : columns) (rows : list row) : columns :=
  fold_left add_row rows c.

Definition body_of_row (np_deg2rad : float -> float) (r : row) : body :=
  mk_body (r_epoch r) (np_deg2rad (r_M r)) (np_deg2rad (r_omega r))
    (np_deg2rad (r_Omega r)) (np_deg2rad (r_i r)) (r_e r) (r_a r)
    (np_deg2rad (r_n r)).

(** The non-blank lines. *)
Definition records (f : list string) : list string :=
  filter (fun line => negb (blank line)) f.

(** The lines read when at most [Nobj] bodies are asked for: at least one. *)
Definition limit (Nobj : option Z) (ls : list string) : list string :=
  match Nobj with
  | Some N => firstn (Z.to_nat (Z.max 1 N)) ls
  | None => ls
  end.

Lemma read_record_row (line : string) (c : columns) :
  read_record line c = r <- parse_row line ;; Ok (add_row c r).
Proof.
  unfold read_record, parse_row.
  repeat match goal with
         | |- context [Py.float_of_str ?s] =>
             destruct (Py.float_of_str s); cbn [bind]; [|reflexivity]
         end.
  reflexivity.
Qed.

Lemma length_add_row (c : columns) (r : row) :
  List.length (c_a (add_row c r)) = S (List.length (c_a c)).
Proof. cbn [add_row c_a]. rewrite length_app. cbn. lia. Qed.

Lemma read_records_filter (f : list string) (Nobj : option Z) (c : columns) :
  read_records (records f) Nobj c = read_records f Nobj c.
Proof.
  revert c. induction f as [|line f IH]; intros c; [reflexivity|].
  cbn [records filter read_records]. fold (records f).
  destruct (blank line) eqn:B; cbn [negb]; [apply IH|].
  cbn [read_records]. rewrite B.
  destruct (read_record line c) as [c'|e]; cbn [bind]; [|reflexivity].
  destruct (enough Nobj c'); [reflexivity|apply IH].
Qed.

Lemma firstn_records (k : nat) (f : list string) :
  records (firstn k (records f)) = firstn k (records f).
Proof.
  unfold records. apply forallb_filter_id.
  apply forallb_forall. intros x Hx.
  apply (In_nth_error _ _) in Hx. destruct Hx as [j Hj].
  assert (In x (filter (fun line => negb (blank line)) f)).
  { revert Hj. generalize (filter (fun line => negb (blank line)) f).
    revert j. induction k as [|k IHk]; intros j l; cbn [firstn].
    - now destruct j.
    - destruct l as [|y l]; [now destruct j|].
      destruct j as [|j]; cbn [nth_error].
      + intros [= ->]. now left.
      + intros H. right. now apply (IHk j). }
  now apply filter_In in H.
Qed.

(** With a limit the loop reads the first lines only. *)
Lemma read_records_limit (f : list string) (N : Z) (c : columns) :
  read_records f (Some N) c
  = read_records
      (firstn (Z.to_nat (Z.max 1 (N - Z.of_nat (List.length (c_a c)))))
         (records f)) None c.
Proof.
  revert c. induction f as [|line f IH]; intros c.
  - cbn [records filter]. now rewrite firstn_nil.
  - cbn [records filter read_records]. fold (records f).
    destruct (blank line) eqn:B; cbn [negb]; [apply IH|].
    destruct (Z.to_nat (Z.max 1 (N - Z.of_nat (List.length (c_a c)))))
      as [|m] eqn:Em; [lia|].
    cbn [firstn read_records]. rewrite B, read_record_row.
    destruct (parse_row line) as [r|e]; cbn [bind]; [|reflexivity].
    cbn [enough]. rewrite length_add_row.
    destruct (Z.leb_spec N (Z.of_nat (S (List.length (c_a c))))) as [L|L].
    + assert (m = O) as -> by lia. reflexivity.
    + rewrite IH, length_add_row. f_equal. f_equal. lia.
Qed.

(** Without a limit the loop is the list of the rows of the records. *)
Lemma read_records_rows (f : list string) (c : columns) :
  read_records f None c
  = rows <- list_comprehension parse_row (records f) ;; Ok (add_rows c rows).
Proof.
  revert c. induction f as [|line f IH]; intros c; [reflexivity|].
  cbn [records filter read_records]. fold (records f).
  destruct (blank line) eqn:B; cbn [negb]; [apply IH|].
  cbn [list_comprehension]. rewrite read_record_row.
  destruct (parse_row line) as [r|e]; cbn [bind enough]; [|reflexivity].
  rewrite IH.
  destruct (list_comprehension parse_row (records f)); reflexivity.
Qed.

Lemma add_rows_columns (rows : list row) (c : columns) :
  add_rows c rows
  = mk_columns (c_epoch c ++ map r_epoch rows) (c_M c ++ map r_M rows)
      (c_omega c ++ map r_omega rows) (c_Omega c ++ map r_Omega rows)
      (c_i c ++ map r_i rows) (c_e c ++ map r_e rows) (c_a c ++ map r_a rows)
      (c_n c ++ map r_n rows)%list.
Proof.
  unfold add_rows. revert c. induction rows as [|r rows IH]; intros c.
  - cbn [fold_left map]. rewrite !app_nil_r. now destruct c.
  - cbn [fold_left map]. rewrite IH. cbn [add_row c_epoch c_M c_omega c_Omega
      c_i c_e c_a c_n]. now rewrite <- !app_assoc.
Qed.

Lemma to_elements_rows (np_deg2rad : float -> float) (rows : list row) :
  to_elements np_deg2rad (add_rows no_columns rows)
  = arrays (map (body_of_row np_deg2rad) rows).
Proof.
  rewrite add_rows_columns. unfold to_elements, arrays, no_columns.
  cbn [c_epoch c_M c_omega c_Omega c_i c_e c_a c_n app].
  rewrite !map_map. reflexivity.
Qed.

(** *** Lines that are too short *)

Lemma substring_short (s : string) (n m : nat) :
  (String.length s <= n)%nat -> String.substring n m s = "".
Proof.
  revert n. induction s as [|c s IH]; intros n H.
  - now destruct n, m.
  - destruct n as [|n]; cbn [String.length] in H; [lia|].
    cbn [String.substring]. apply IH. lia.
Qed.

Lemma float_of_str_ValueError (s : string) :
  is_ok (Py.float_of_str s) = false ->
  is_ValueError (Py.float_of_str s) = true.
Proof. intros H. now rewrite (Decoder.float_of_str_raises s H). Qed.

Lemma bind_ValueError {A B : Type} (r : result A) (k : A -> result B) :
  (is_ok r = false -> is_ValueError r = true) ->
  (forall a, is_ValueError (k a) = true) ->
  is_ValueError (bind r k) = true.
Proof.
  intros Hr Hk. destruct r as [a|e]; cbn [bind]; [apply Hk|].
  now apply Hr.
Qed.

Lemma parse_row_short (line : string) :
  (String.length line <= 92)%nat -> is_ValueError (parse_row line) = true.
Proof.
  intros H. unfold parse_row.
  do 5 (apply bind_ValueError; [apply float_of_str_ValueError|intros ?]).
  unfold field at 1, Py.slice. rewrite (substring_short line 92 _ H).
  reflexivity.
Qed.

End Catalog.

Module CatalogFacts.

Open Scope Z_scope.

Import Catalog.

Lemma skip_header_none (header : list string) :
  Forall (fun line => String.prefix "---" line = false) header ->
  skip_header header = [].
Proof.
  induction 1 as [|line header H _ IH]; cbn [skip_header]; [reflexivity|].
  now rewrite H.
Qed.

Lemma skip_header_app (header : list string) (dashes : string)
  (rest : list string) :
  Forall (fun line => String.prefix "---" line = false) header ->
  String.prefix "---" dashes = true ->
  skip_header (header ++ dashes :: rest) = rest.
Proof.
  intros H D. induction H as [|line header H _ IH]; cbn [app skip_header].
  - now rewrite D.
  - now rewrite H.
Qed.

(** The lines the second loop parses. *)
Definition lines_read (f : list string) (Nobj : option Z) : list string :=
  limit Nobj (records (skip_header f)).

Lemma read_catalog_rows (f : list string) (Nobj : option Z) :
  read_catalog f Nobj
  = (rows <- list_comprehension parse_row (lines_read f Nobj) ;;
     Ok (add_rows no_columns rows)).
Proof.
  unfold read_catalog, lines_read. destruct Nobj as [N|]; cbn [limit].
  - rewrite read_records_limit. cbn [no_columns c_a List.length Z.of_nat].
    rewrite Z.sub_0_r, read_records_rows. now rewrite firstn_records.
  - apply read_records_rows.
Qed.

Lemma parse_row_ValueError (line : string) :
  is_ok (parse_row line) = false -> is_ValueError (parse_row line) = true.
Proof.
  unfold parse_row.
  repeat match goal with
         | |- context [Py.float_of_str ?s] =>
             let E := fresh "E" in
             destruct (Py.float_of_str s) eqn:E; cbn [bind];
             [|intros _; pose proof (float_of_str_ValueError s) as V;
               rewrite E in V; apply V; reflexivity]
         end.
  intros H. discriminate H.
Qed.

Lemma list_comprehension_ValueError {A B : Type} (f : A -> result B)
  (xs : list A) :
  (forall x, is_ok (f x) = false -> is_ValueError (f x) = true) ->
  (exists x, In x xs /\ is_ok (f x) = false) ->
  is_ValueError (list_comprehension f xs) = true.
Proof.
  intros V (x & I & F). induction xs as [|y xs IH]; [contradiction|].
  cbn [list_comprehension].
  destruct (f y) as [b|e] eqn:Fy; cbn [bind].
  - destruct I as [->|I]; [rewrite Fy in F; discriminate|].
    specialize (IH I).
    destruct (list_comprehension f xs) as [ys|[]]; cbn [bind] in *;
      discriminate || reflexivity.
  - specialize (V y). rewrite Fy in V. now apply V.
Qed.

Lemma length_limit (Nobj : option Z) (ls : list string) :
  (List.length (limit Nobj ls) <= List.length ls)%nat
  /\ forall N, Nobj = Some N ->
       Z.of_nat (List.length (limit Nobj ls)) <= Z.max 1 N.
Proof.
  destruct Nobj as [N|]; cbn [limit].
  - rewrite length_firstn. split; [lia|]. intros ? [= <-]. lia.
  - split; [lia|discriminate].
Qed.

End CatalogFacts.

Section CatalogProperties.

Open Scope string_scope.
Open Scope Z_scope.

(** Two records of the catalogue, cut after the semi-major axis. *)
Definition ceres : string :=
  "00001    3.34  0.15 K2555 188.70269   73.27343   80.25221   10.58780  0.0794013  0.21424651   2.7660512".

Definition pallas : string :=
  "00002    4.11  0.15 K2555 168.79870  310.93340  172.88860   34.92833  0.2306430  0.21377378   2.7700924".

(** X6: the lines up to and including the first one that starts with three
    dashes are skipped whatever they hold, and a file without such a line
    gives an empty population and no error. *)
Theorem catalog_header (header : list string) (Nobj : option Z) :
  Forall (fun line => String.prefix "---" line = false) header ->
  Catalog.read_catalog header Nobj = Ok Catalog.no_columns
  /\ forall dashes rest,
       String.prefix "---" dashes = true ->
       Catalog.read_catalog (header ++ dashes :: rest)%list Nobj
       = Catalog.read_catalog ("---" :: rest) Nobj.
Proof.
  intros H. unfold Catalog.read_catalog. split.
  - now rewrite (CatalogFacts.skip_header_none header H).
  - intros dashes rest D.
    now rewrite (CatalogFacts.skip_header_app header dashes rest H D).
Qed.

Lemma catalog_header_witness :
  Catalog.read_catalog ["Des'n  H  G  Epoch"; ceres] None = Ok Catalog.no_columns
  /\ Catalog.read_catalog (["Des'n  H  G  Epoch"; ceres] ++ ["-----"; ceres])%list None
     = Catalog.read_catalog ["---"; ceres] None.
Proof.
  pose proof (catalog_header ["Des'n  H  G  Epoch"; ceres] None
                ltac:(repeat constructor)) as [A B].
  split; [exact A|]. exact (B "-----"%string [ceres] eq_refl).
Defined.

(** X7: after the header the loop parses the lines that are not blank, in
    the order of the file and at most [max(1, Nobj)] of them, and stops with
    the exception of the first line that has a field which is no number.  When
    it ends, the eight lists hold one entry per parsed line, so they have the
    same length, and the arrays made of them are those of the list of bodies
    with these entries. *)
Theorem catalog_rows (f : list string) (Nobj : option Z) :
  Catalog.read_catalog f Nobj
  = (rows <- list_comprehension Catalog.parse_row
               (CatalogFacts.lines_read f Nobj) ;;
     Ok (Catalog.add_rows Catalog.no_columns rows))
  /\ forall c,
       Catalog.read_catalog f Nobj = Ok c ->
       exists rows,
         Forall2 (fun line r => Catalog.parse_row line = Ok r)
           (CatalogFacts.lines_read f Nobj) rows
         /\ Catalog.c_epoch c = map Catalog.r_epoch rows
         /\ Catalog.c_a c = map Catalog.r_a rows
         /\ Catalog.c_e c = map Catalog.r_e rows
         /\ forall np_deg2rad,
              Catalog.to_elements np_deg2rad c
              = Script.arrays (map (Catalog.body_of_row np_deg2rad) rows).
Proof.
  split; [apply CatalogFacts.read_catalog_rows|].
  intros c. rewrite CatalogFacts.read_catalog_rows.
  destruct (list_comprehension Catalog.parse_row
              (CatalogFacts.lines_read f Nobj)) as [rows|e] eqn:L;
    cbn [bind]; [|discriminate].
  intros [= <-]. exists rows.
  split; [now apply Propagator.list_comprehension_ok|].
  rewrite Catalog.add_rows_columns. cbn. repeat split.
  intros d. rewrite <- Catalog.to_elements_rows.
  now rewrite Catalog.add_rows_columns.
Qed.

(** X8: a limit of [Nobj] bodies makes the loop stop after [max(1, Nobj)]
    records, so that what follows them in the file is not looked at, and the
    number of bodies is the number of records or [max(1, Nobj)], whichever
    is smaller: with a limit of 0 or below one body is read. *)
Theorem catalog_limit (f : list string) (N : Z) :
  Catalog.read_catalog f (Some N)
  = Catalog.read_catalog
      ("---"%string
       :: firstn (Z.to_nat (Z.max 1 N))
            (Catalog.records (Catalog.skip_header f))) None
  /\ forall c,
       Catalog.read_catalog f (Some N) = Ok c ->
       Z.of_nat (List.length (Catalog.c_a c))
       = Z.min (Z.of_nat (List.length (Catalog.records (Catalog.skip_header f))))
               (Z.max 1 N).
Proof.
  split.
  - rewrite !CatalogFacts.read_catalog_rows. unfold CatalogFacts.lines_read.
    change (Catalog.skip_header ("---" :: ?l)) with l.
    cbn [Catalog.limit]. now rewrite Catalog.firstn_records.
  - intros c. rewrite CatalogFacts.read_catalog_rows.
    destruct (list_comprehension Catalog.parse_row
                (CatalogFacts.lines_read f (Some N))) as [rows|e] eqn:L;
      cbn [bind]; [|discriminate].
    intros [= <-]. apply Propagator.list_comprehension_ok in L.
    apply Forall2_length in L. rewrite Catalog.add_rows_columns.
    cbn [Catalog.c_a Catalog.no_columns app]. rewrite length_map, <- L.
    unfold CatalogFacts.lines_read. cbn [Catalog.limit].
    rewrite length_firstn. lia.
Qed.

(** X9: a record line of fewer than 93 characters, which has nothing in the
    columns of the semi-major axis, makes the reading end with a ValueError. *)
Theorem catalog_short_line (f : list string) (Nobj : option Z) (line : string) :
  In line (CatalogFacts.lines_read f Nobj) ->
  (String.length line <= 92)%nat ->
  is_ValueError (Catalog.read_catalog f Nobj) = true.
Proof.
  intros I S. rewrite CatalogFacts.read_catalog_rows.
  assert (V : is_ValueError
                (list_comprehension Catalog.parse_row
                   (CatalogFacts.lines_read f Nobj)) = true).
  { apply CatalogFacts.list_comprehension_ValueError;
      [apply CatalogFacts.parse_row_ValueError|].
    exists line. split; [assumption|].
    pose proof (Catalog.parse_row_short line S) as P.
    now destruct (Catalog.parse_row line) as [|[]]. }
  now destruct (list_comprehension Catalog.parse_row
                  (CatalogFacts.lines_read f Nobj)) as [|[]].
Qed.

Lemma catalog_short_line_witness :
  is_ValueError
    (Catalog.read_catalog ["-----"; ceres; "00002    4.11  0.15 K2555"] None)
  = true.
Proof.
  apply (catalog_short_line _ None "00002    4.11  0.15 K2555");
    [right; left; reflexivity|cbn; lia].
Defined.

End CatalogProperties.

Module DecoderEdges.

Import Decoder.
Open Scope string_scope.

Lemma lstrip_blank (s : string) : every Py.isspace s = true -> Py.lstrip s = "".
Proof.
  induction s as [|c s IH]; cbn [every Py.lstrip]; [reflexivity|].
  rewrite andb_true_iff. intros [-> Hs]. now apply IH.
Qed.

Lemma strip_blank (s : string) : every Py.isspace s = true -> Py.strip s = "".
Proof. intros H. unfold Py.strip. now rewrite (lstrip_blank s H). Qed.

(** The pieces of [split] are one more than the separators. *)
Lemma length_split_app (s t : string) :
  List.length (Py.split "." (s ++ String "." t))
  = (List.length (Py.split "." s) + List.length (Py.split "." t))%nat.
Proof.
  induction s as [|c s IH]; cbn [append Py.split]; [reflexivity|].
  destruct (Ascii.eqb c "."); cbn [List.length]; [now rewrite IH|].
  pose proof (split_nonempty (s ++ String "." t)) as N1.
  pose proof (split_nonempty s) as N2.
  destruct (Py.split "." (s ++ String "." t)); [contradiction|].
  destruct (Py.split "." s); [contradiction|].
  cbn [List.length] in *. exact IH.
Qed.

Lemma length_split_pos (s : string) : (1 <= List.length (Py.split "." s))%nat.
Proof.
  pose proof (split_nonempty s). destruct (Py.split "." s);
    [contradiction|cbn; lia].
Qed.

End DecoderEdges.

Section DecoderEdgeProperties.

Variable Time_isot_jd : string -> float.

Local Abbreviation mpcepoch2jd := (Common.mpcepoch2jd Time_isot_jd).

Open Scope string_scope.

(** X10: a code that is empty or holds only whitespace raises IndexError,
    not ValueError: the numeric attempt fails and the century letter is read
    from the empty string. *)
Theorem decode_blank_code (code : string) :
  Decoder.every Py.isspace code = true ->
  mpcepoch2jd code = Raise (IndexError "string index out of range").
Proof.
  intros H. unfold Common.mpcepoch2jd.
  rewrite (DecoderEdges.strip_blank code H). reflexivity.
Qed.

(** X11: a code that is not a number and has two or more dots raises
    ValueError when it is split into integer and fractional part. *)
Theorem decode_two_dots (code a b c : string) :
  is_ok (Py.float_of_str code) = false ->
  Py.strip code = a ++ "." ++ b ++ "." ++ c ->
  is_ValueError (mpcepoch2jd code) = true.
Proof.
  intros _ Hs.
  rewrite (Decoder.mpcepoch2jd_not_numeric _ code
             (FloatSyntax.two_dots_not_numeric code a b c Hs)), Hs.
  unfold Common.decode_packed.
  change ("." ++ b ++ "." ++ c) with (String "." (b ++ String "." c)).
  rewrite Decoder.contains_app_dot.
  pose proof (DecoderEdges.length_split_app a (b ++ String "." c)) as L.
  pose proof (DecoderEdges.length_split_app b c) as L'.
  pose proof (DecoderEdges.length_split_pos a).
  pose proof (DecoderEdges.length_split_pos b).
  pose proof (DecoderEdges.length_split_pos c).
  destruct (Py.split "." (a ++ String "." (b ++ String "." c)))
    as [|ip [|fp [|x l]]]; cbn [List.length] in L; try lia; reflexivity.
Qed.

End DecoderEdgeProperties.

Lemma decode_blank_code_witness :
  Common.mpcepoch2jd (fun _ => 0%float) "   "
  = Raise (IndexError "string index out of range").
Proof. exact (decode_blank_code (fun _ => 0%float) "   " eq_refl). Defined.

Lemma decode_two_dots_witness :
  is_ValueError (Common.mpcepoch2jd (fun _ => 0%float) "K141R.5.5") = true.
Proof.
  exact (decode_two_dots (fun _ => 0%float) "K141R.5.5" "K141R" "5" "5"
           eq_refl eq_refl).
Defined.

(** ** Circular orbits *)

Module Circular.

Import Script.
Open Scope float_scope.

(** Zero or a finite number: neither an infinity nor NaN. *)
Definition finite (x : float) : bool :=
  match Prim2SF x with
  | S754_zero _ | S754_finite _ _ _ => true
  | S754_infinity _ | S754_nan => false
  end.

(** Zero of either sign. *)
Definition zero (x : float) : bool :=
  match Prim2SF x with
  | S754_zero _ => true
  | _ => false
  end.

Lemma SFsub_self (s : bool) (m : positive) (e : Z) :
  SF64sub (S754_finite s m e) (S754_finite s m e) = S754_zero false.
Proof.
  unfold SF64sub. cbn [SFsub]. now rewrite Z.sub_diag.
Qed.

Lemma SFmul_one_r (x : spec_float) :
  valid_binary x = true -> SF64mul x Rounding.SFone64 = x.
Proof.
  intros V. destruct x as [s|s| |s m e];
    [now destruct s|now destruct s|reflexivity|].
  now apply Rounding.SFmul_one.
Qed.

Section Solver.

Variables np_sin np_cos : float -> float.

Local Abbreviation newton := (Kepler.newton np_sin np_cos).

(** With eccentricity zero the update leaves [E = M] where it is. *)
Lemma newton_circular (M e : float) :
  zero e = true -> finite M = true ->
  finite (np_sin M) = true -> finite (np_cos M) = true ->
  newton M e M = M.
Proof.
  unfold zero, finite, Kepler.newton. intros He HM Hs Hc.
  apply Prim2SF_inj.
  rewrite sub_spec, div_spec, !sub_spec, !mul_spec.
  change (Prim2SF 1) with Rounding.SFone64.
  destruct (Prim2SF e) as [se| | |]; try discriminate.
  destruct (Prim2SF (np_sin M)) as [ss| | |ss ms es]; try discriminate;
    destruct (Prim2SF (np_cos M)) as [sc| | |sc mc ec]; try discriminate;
    destruct (Prim2SF M) as [sm| | |sm mm em]; try discriminate;
    unfold SF64mul; cbn [SFmul];
    unfold SF64sub at 2 3 4; cbn [SFsub];
    rewrite ?Z.sub_diag; cbn [binary_normalize];
    try (destruct se, ss, sm; reflexivity).
Qed.

Lemma iter_newton_circular (M e : float) (k : nat) :
  zero e = true -> finite M = true ->
  finite (np_sin M) = true -> finite (np_cos M) = true ->
  Nat.iter k (newton M e) M = M.
Proof.
  intros He HM Hs Hc. induction k as [|k IH]; [reflexivity|].
  rewrite Nat.iter_succ, IH. now apply newton_circular.
Qed.

(** The distance of a body on a circular orbit. *)
Lemma radius_circular (a e c : float) :
  zero e = true -> finite c = true -> a * (1 - e * c) = a.
Proof.
  unfold zero, finite. intros He Hc. apply Prim2SF_inj.
  rewrite mul_spec, sub_spec, mul_spec.
  change (Prim2SF 1) with Rounding.SFone64.
  destruct (Prim2SF e) as [se| | |]; try discriminate.
  assert (SF64sub Rounding.SFone64 (SF64mul (S754_zero se) (Prim2SF c))
          = Rounding.SFone64) as ->
    by (destruct (Prim2SF c) as [sc| | |sc mc ec]; try discriminate;
        reflexivity).
  apply SFmul_one_r, Prim2SF_valid.
Qed.

End Solver.

End Circular.

Section CircularOrbits.

Import Script.

Variables np_sin np_cos : float -> float.
Variable np_arctan2 : float -> float -> float.
Variable np_mod : float -> float -> float.

Local Abbreviation solve_kepler_eq := (Common.solve_kepler_eq np_sin np_cos).
Local Abbreviation locations :=
  (Script.locations np_sin np_cos np_arctan2 np_mod).

Open Scope float_scope.

(** X12: for circular orbits the solver returns the mean anomalies
    themselves, bit for bit and whatever the number of iterations: with
    eccentricity zero (of either sign), a finite mean anomaly and finite
    values of sine and cosine there, the correction of every update is
    zero. *)
Theorem solve_circular (l : list (float * float)) (max_iter : nat) :
  Forall (fun p => Circular.zero (snd p) = true
                   /\ Circular.finite (fst p) = true
                   /\ Circular.finite (np_sin (fst p)) = true
                   /\ Circular.finite (np_cos (fst p)) = true) l ->
  solve_kepler_eq (map fst l) (map snd l) max_iter = map fst l.
Proof.
  intros H. rewrite Kepler.solve_pairs.
  apply map_ext_in. intros p Hp.
  rewrite Forall_forall in H. destruct (H p Hp) as (He & HM & Hs & Hc).
  now apply Circular.iter_newton_circular.
Qed.

(** X13: a body on a circular orbit is placed at the distance of its
    semi-major axis, at the eccentric anomaly that is its propagated mean
    anomaly: for the body at index [k], with eccentricity zero and a finite
    propagated mean anomaly with finite sine and cosine, the arrays [E] and
    [r] hold at [k] the value of [M_t] at [k] and the semi-major axis. *)
Theorem circular_orbit_state (l : list (body * float)) (jd_now : float)
  (k : nat) (b : body) (jd : float) :
  let st := locations (arrays (map fst l)) (map snd l) jd_now in
  let m := b_M b + b_n b * (jd_now - jd) in
  nth_error l k = Some (b, jd) ->
  Circular.zero (b_e b) = true ->
  Circular.finite m = true ->
  Circular.finite (np_sin m) = true -> Circular.finite (np_cos m) = true ->
  nth_error (M_t st) k = Some m
  /\ nth_error (E st) k = Some m
  /\ nth_error (r st) k = Some (b_a b).
Proof.
  intros st m Hk He Hm Hs Hc. subst st.
  rewrite Propagator.locations_pairs. unfold Propagator.of_states.
  cbn [M_t E r]. rewrite !nth_error_map, Hk. cbn [option_map fst snd].
  unfold Propagator.propagate_body.
  cbn [Propagator.s_M_t Propagator.s_E Propagator.s_r].
  fold m.
  rewrite (Circular.iter_newton_circular np_sin np_cos m (b_e b) _ He Hm Hs Hc).
  now rewrite (Circular.radius_circular (b_a b) (b_e b) _ He Hc).
Qed.

End CircularOrbits.

(** Two circular orbits, with x - x^3/6 and 1 - x^2/2 for sine and cosine. *)
Lemma solve_circular_witness :
  Common.solve_kepler_eq (fun x => x - x * x * x / 6)%float
    (fun x => 1 - x * x / 2)%float [0.5; 100]%float [0; -0]%float 10
  = [0.5; 100]%float.
Proof.
  exact (solve_circular (fun x => x - x * x * x / 6)%float
           (fun x => 1 - x * x / 2)%float
           [(0.5, 0); (100, -0)]%float 10 ltac:(repeat constructor)).
Defined.

(** A body on a circular orbit of 2.5 au, 100 days after its epoch. *)
Lemma circular_orbit_state_witness :
  let st :=
    Script.locations (fun x => x - x * x * x / 6)%float
      (fun x => 1 - x * x / 2)%float (fun _ x => x) (fun x _ => x)
      (Script.arrays [Script.mk_body "2456720.5" 0 0 0 0 0 2.5 1])
      [2456720.5%float] 2456820.5%float in
  nth_error (Script.M_t st) 0 = Some 100%float
  /\ nth_error (Script.E st) 0 = Some 100%float
  /\ nth_error (Script.r st) 0 = Some 2.5%float.
Proof.
  exact (circular_orbit_state (fun x => x - x * x * x / 6)%float
           (fun x => 1 - x * x / 2)%float (fun _ x => x) (fun x _ => x)
           [(Script.mk_body "2456720.5" 0 0 0 0 0 2.5 1, 2456720.5%float)]
           2456820.5%float 0 _ _ eq_refl eq_refl eq_refl eq_refl eq_refl).
Defined.

(** ** Bodies without a class *)

Module Unclassified.

Import Script Classifier.
Open Scope float_scope.

(** [np.isnan] *)
Definition isnan (x : float) : bool :=
  match Prim2SF x with
  | S754_nan => true
  | _ => false
  end.

Lemma perihelion_nan (b : body) :
  isnan (b_a b) || isnan (b_e b) = true -> Prim2SF (perihelion b) = S754_nan.
Proof.
  unfold isnan, perihelion. rewrite mul_spec, sub_spec.
  change (Prim2SF 1) with Rounding.SFone64.
  destruct (Prim2SF (b_e b)) as [se|se| |se me ee] eqn:Ee;
    destruct (Prim2SF (b_a b)) as [sa|sa| |sa ma ea] eqn:Ea;
    cbn [orb]; try discriminate; intros _; try reflexivity.
  all: unfold SF64mul; cbn [SFmul]; reflexivity.
Qed.

Lemma compare_nan (q c : float) :
  Prim2SF q = S754_nan -> (q <? c) = false /\ (c <=? q) = false.
Proof.
  intros H. rewrite ltb_spec, leb_spec, H. unfold SFltb, SFleb.
  split; [reflexivity|]. now destruct (Prim2SF c).
Qed.

Lemma nan_in_no_class (b : body) (f : family) :
  isnan (b_a b) || isnan (b_e b) = true ->
  in_class f b = match f with Others => true | _ => false end.
Proof.
  intros H. pose proof (perihelion_nan b H) as Q.
  destruct (compare_nan (perihelion b) 1.3 Q) as [L G].
  destruct f; cbn [in_class]; rewrite ?L, ?G; reflexivity.
Qed.

Lemma filter_length_app {A : Type} (p : A -> bool) (l1 l2 : list A) :
  List.length (filter p (l1 ++ l2))
  = (List.length (filter p l1) + List.length (filter p l2))%nat.
Proof. now rewrite filter_app, length_app. Qed.

End Unclassified.

Section ClassifierEdges.

Import Script.

Open Scope float_scope.

(** X14: a body whose semi-major axis or eccentricity is NaN is in none of
    the five classes: its entry is [False] in the five masks and its colour
    is gray, that of "Others". *)
Theorem nan_body_is_others (bodies : list body) (k : nat) (b : body) :
  nth_error bodies k = Some b ->
  Unclassified.isnan (b_a b) || Unclassified.isnan (b_e b) = true ->
  nth_error (colors (arrays bodies)) k = Some "gray"%string
  /\ nth_error (mask_nea (arrays bodies)) k = Some false
  /\ nth_error (mask_mba (arrays bodies)) k = Some false
  /\ nth_error (mask_hilda (arrays bodies)) k = Some false
  /\ nth_error (mask_trojan (arrays bodies)) k = Some false
  /\ nth_error (mask_tno (arrays bodies)) k = Some false.
Proof.
  intros Hk Hn.
  destruct (Classifier.masks_elementwise bodies) as (-> & -> & -> & -> & ->).
  rewrite Classifier.colors_elementwise, !nth_error_map, Hk.
  cbn [option_map].
  rewrite !(Unclassified.nan_in_no_class b _ Hn).
  repeat split. f_equal.
  apply (Classifier.paint_table b Others).
  now rewrite (Unclassified.nan_in_no_class b Others Hn).
Qed.

(** X15: the classification works body by body: the colours of two
    populations put together are the colours of the one followed by those of
    the other, and each of the six counts is the sum of the two counts. *)
Theorem classification_of_union (l1 l2 : list body) :
  colors (arrays (l1 ++ l2)) = (colors (arrays l1) ++ colors (arrays l2))%list
  /\ N_nea (arrays (l1 ++ l2)) = (N_nea (arrays l1) + N_nea (arrays l2))%Z
  /\ N_mba (arrays (l1 ++ l2)) = (N_mba (arrays l1) + N_mba (arrays l2))%Z
  /\ N_hilda (arrays (l1 ++ l2))
     = (N_hilda (arrays l1) + N_hilda (arrays l2))%Z
  /\ N_trojan (arrays (l1 ++ l2))
     = (N_trojan (arrays l1) + N_trojan (arrays l2))%Z
  /\ N_tno (arrays (l1 ++ l2)) = (N_tno (arrays l1) + N_tno (arrays l2))%Z
  /\ N_others (arrays (l1 ++ l2))
     = (N_others (arrays l1) + N_others (arrays l2))%Z.
Proof.
  rewrite !Classifier.colors_elementwise, map_app.
  split; [reflexivity|].
  assert (A : N_all (arrays (l1 ++ l2))
              = (N_all (arrays l1) + N_all (arrays l2))%Z)
    by (unfold N_all, arrays; cbn [a]; rewrite !length_map, length_app; lia).
  unfold N_others. rewrite A.
  unfold N_nea, N_mba, N_hilda, N_trojan, N_tno.
  destruct (Classifier.masks_elementwise (l1 ++ l2)) as (-> & -> & -> & -> & ->).
  destruct (Classifier.masks_elementwise l1) as (-> & -> & -> & -> & ->).
  destruct (Classifier.masks_elementwise l2) as (-> & -> & -> & -> & ->).
  rewrite !ClassifierCounts.sum_mask, !Unclassified.filter_length_app.
  repeat split; lia.
Qed.

End ClassifierEdges.

(** A body without a semi-major axis among two. *)
Lemma nan_body_is_others_witness :
  let bodies := [Classifier.body_ae 2.5 0.1; Classifier.body_ae nan 0.1] in
  nth_error (Script.colors (Script.arrays bodies)) 1 = Some "gray"%string
  /\ nth_error (Script.mask_nea (Script.arrays bodies)) 1 = Some false
  /\ nth_error (Script.mask_mba (Script.arrays bodies)) 1 = Some false
  /\ nth_error (Script.mask_hilda (Script.arrays bodies)) 1 = Some false
  /\ nth_error (Script.mask_trojan (Script.arrays bodies)) 1 = Some false
  /\ nth_error (Script.mask_tno (Script.arrays bodies)) 1 = Some false.
Proof.
  exact (nan_body_is_others
           [Classifier.body_ae 2.5 0.1; Classifier.body_ae nan 0.1] 1
           (Classifier.body_ae nan 0.1) eq_refl eq_refl).
Defined.

(** ** A body at its epoch, and a fraction of zero *)

Module AtEpoch.

Open Scope float_scope.

(** The zero with the sign bit set. *)
Definition negative_zero (x : float) : bool :=
  match Prim2SF x with
  | S754_zero true => true
  | _ => false
  end.

(** No time passes between a finite date and itself, and then the mean
    anomaly stays as it is. *)
Lemma mean_anomaly_at_epoch (M n jd : float) :
  Circular.finite jd = true -> Circular.finite n = true ->
  negative_zero M = false ->
  M + n * (jd - jd) = M.
Proof.
  unfold Circular.finite, negative_zero. intros Hj Hn HM.
  apply Prim2SF_inj. rewrite add_spec, mul_spec, sub_spec.
  assert (SF64sub (Prim2SF jd) (Prim2SF jd) = S754_zero false) as ->.
  { destruct (Prim2SF jd) as [s| | |s m e]; try discriminate.
    - now destruct s.
    - apply Circular.SFsub_self. }
  destruct (Prim2SF n) as [sn| | |sn mn en]; try discriminate;
    destruct (Prim2SF M) as [sm|sm| |sm mm em];
    try reflexivity; destruct sm, sn; try discriminate; reflexivity.
Qed.

Import Decoder.

Lemma zeros_digits (zeros : string) :
  every (Ascii.eqb "0") zeros = true ->
  every Py.isdigit zeros = true /\ FractionCodes.fraction zeros = 0%float.
Proof.
  intros H. split.
  - revert H. apply every_impl. intros c Hc.
    apply Ascii.eqb_eq in Hc. now subst c.
  - unfold FractionCodes.fraction.
    assert (Py.decimal (digit_values zeros) = 0%Z) as ->; [|reflexivity].
    unfold Py.decimal. induction zeros as [|c s IH]; [reflexivity|].
    cbn [every] in H. apply andb_true_iff in H. destruct H as [Hc Hs].
    apply Ascii.eqb_eq in Hc. subst c. cbn [digit_values fold_left].
    now apply IH.
Qed.

End AtEpoch.

Section AtEpochProperties.

Import Script.

Variables np_sin np_cos : float -> float.
Variable np_arctan2 : float -> float -> float.
Variable np_mod : float -> float -> float.
Variable Time_isot_jd : string -> float.

Local Abbreviation locations :=
  (Script.locations np_sin np_cos np_arctan2 np_mod).
Local Abbreviation mpcepoch2jd := (Common.mpcepoch2jd Time_isot_jd).

Open Scope string_scope.

(** X16: a body whose epoch is the date of the plot is propagated by no
    time at all: when the two Julian Dates are the same finite number, the
    mean motion is finite and the mean anomaly is not the negative zero, the
    entry of [M_t] is the mean anomaly of the catalogue, bit for bit. *)
Theorem propagation_at_epoch (l : list (body * float)) (jd_now : float)
  (k : nat) (b : body) :
  nth_error l k = Some (b, jd_now) ->
  Circular.finite jd_now = true -> Circular.finite (b_n b) = true ->
  AtEpoch.negative_zero (b_M b) = false ->
  nth_error (M_t (locations (arrays (map fst l)) (map snd l) jd_now)) k
  = Some (b_M b).
Proof.
  intros Hk Hj Hn HM.
  rewrite Propagator.locations_pairs. unfold Propagator.of_states.
  cbn [M_t]. rewrite !nth_error_map, Hk. cbn [option_map fst snd].
  unfold Propagator.propagate_body. cbn [Propagator.s_M_t].
  now rewrite AtEpoch.mean_anomaly_at_epoch.
Qed.

(** X17: a code without a dot is decoded like the code with a fraction of
    zero: for a valid code CYY followed by base-36 digits, appending a dot
    and any number of zeros (none included) does not change the result. *)
Theorem decode_zero_fraction (c y1 y2 : ascii) (field zeros : string) :
  Decoder.packed_chars c y1 y2 field ->
  Decoder.every (Ascii.eqb "0") zeros = true ->
  mpcepoch2jd (Decoder.packed c y1 y2 field ++ "." ++ zeros)
  = mpcepoch2jd (Decoder.packed c y1 y2 field).
Proof.
  intros V Z. destruct (AtEpoch.zeros_digits zeros Z) as [D F].
  destruct (FractionCodes.decode_packed_fraction Time_isot_jd c y1 y2 field
              zeros V D) as (delta & date & E1 & E2 & ->).
  rewrite (Decoder.decode_packed_whole_day Time_isot_jd c y1 y2 field V).
  destruct V as [Hc H1 H2 H3].
  pose proof (Decoder.packed_year_bounds c y1 y2 Hc H1 H2) as By.
  destruct (Decoder.slice_day_digits field H3) as [_ Bd].
  pose proof (Decoder.new_year_ordinal_bounds (Decoder.packed_year c y1 y2)
                ltac:(lia)) as Bo.
  rewrite F, (Decoder.timedelta_whole_days _ Bd) in E1.
  injection E1 as <-.
  rewrite Decoder.datetime_add_whole_days in E2
    by (unfold Py.MAXORDINAL; lia).
  injection E2 as <-. unfold Decoder.day_of_year.
  now rewrite Z.add_sub_assoc.
Qed.

End AtEpochProperties.

(** Ceres at its epoch K2555 = JD 2460800.5. *)
Lemma propagation_at_epoch_witness :
  nth_error
    (Script.M_t
       (Script.locations (fun x => x) (fun x => x) (fun _ x => x)
          (fun x _ => x)
          (Script.arrays [Script.mk_body "K2555" 3.29 1.28 1.4 0.18 0.079 2.77 0.0037])
          [2460800.5%float] 2460800.5%float)) 0
  = Some 3.29%float.
Proof.
  exact (propagation_at_epoch (fun x => x) (fun x => x) (fun _ x => x)
           (fun x _ => x)
           [(Script.mk_body "K2555" 3.29 1.28 1.4 0.18 0.079 2.77 0.0037,
             2460800.5%float)] 2460800.5%float 0 _
           eq_refl eq_refl eq_refl eq_refl).
Defined.

Lemma decode_zero_fraction_witness :
  Common.mpcepoch2jd (fun _ => 0%float) "K141R.00"
  = Common.mpcepoch2jd (fun _ => 0%float) "K141R".
Proof.
  exact (decode_zero_fraction (fun _ => 0%float) "K" "1" "4" "1R" "00"
           ltac:(constructor; reflexivity) eq_refl).
Defined.

(** ** The case of the letters of a code *)

Module Case.

Import Decoder.
Open Scope string_scope.

Lemma upper_char_facts (c : ascii) :
  Py.isspace (Py.upper_char c) = Py.isspace c
  /\ Py.isdigit (Py.upper_char c) = Py.isdigit c
  /\ Ascii.eqb (Py.upper_char c) "-" = Ascii.eqb c "-"
  /\ Ascii.eqb (Py.upper_char c) "+" = Ascii.eqb c "+"
  /\ Ascii.eqb (Py.upper_char c) "_" = Ascii.eqb c "_"
  /\ Ascii.eqb (Py.upper_char c) "." = Ascii.eqb c "."
  /\ Py.lower_char (Py.upper_char c) = Py.lower_char c
  /\ Py.upper_char (Py.upper_char c) = Py.upper_char c.
Proof.
  pose proof (ascii_forall
    (fun c =>
       Bool.eqb (Py.isspace (Py.upper_char c)) (Py.isspace c)
       && Bool.eqb (Py.isdigit (Py.upper_char c)) (Py.isdigit c)
       && Bool.eqb (Ascii.eqb (Py.upper_char c) "-") (Ascii.eqb c "-")
       && Bool.eqb (Ascii.eqb (Py.upper_char c) "+") (Ascii.eqb c "+")
       && Bool.eqb (Ascii.eqb (Py.upper_char c) "_") (Ascii.eqb c "_")
       && Bool.eqb (Ascii.eqb (Py.upper_char c) ".") (Ascii.eqb c ".")
       && Ascii.eqb (Py.lower_char (Py.upper_char c)) (Py.lower_char c)
       && Ascii.eqb (Py.upper_char (Py.upper_char c)) (Py.upper_char c))
    ltac:(vm_compute; reflexivity) c) as E.
  cbv beta in E.
  rewrite !andb_true_iff, !Ascii.eqb_eq in E.
  destruct E as [[[[[[[E1 E2] E3] E4] E5] E6] E7] E8].
  apply eqb_prop in E1, E2, E3, E4, E5, E6. tauto.
Qed.

Lemma lstrip_upper (s : string) :
  Py.lstrip (Py.upper s) = Py.upper (Py.lstrip s).
Proof.
  induction s as [|c s IH]; cbn [Py.upper Py.lstrip]; [reflexivity|].
  destruct (upper_char_facts c) as (-> & _).
  destruct (Py.isspace c); [exact IH|reflexivity].
Qed.

Lemma rstrip_upper (s : string) :
  Py.rstrip (Py.upper s) = Py.upper (Py.rstrip s).
Proof.
  induction s as [|c s IH]; cbn [Py.upper Py.rstrip]; [reflexivity|].
  rewrite IH. destruct (upper_char_facts c) as (-> & _).
  destruct (Py.rstrip s); cbn [Py.upper]; [|reflexivity].
  now destruct (Py.isspace c).
Qed.

Lemma strip_upper (s : string) : Py.strip (Py.upper s) = Py.upper (Py.strip s).
Proof. unfold Py.strip. now rewrite lstrip_upper, rstrip_upper. Qed.

Lemma space_upper (c : ascii) :
  Py.Py_ISSPACE (Py.upper_char c) = Py.Py_ISSPACE c.
Proof.
  pose proof (ascii_forall
    (fun c => Bool.eqb (Py.Py_ISSPACE (Py.upper_char c)) (Py.Py_ISSPACE c))
    ltac:(vm_compute; reflexivity) c) as E.
  cbv beta in E. now apply eqb_prop in E.
Qed.

Lemma skip_upper (s : string) :
  Py.skip_spaces (Py.upper s) = Py.upper (Py.skip_spaces s).
Proof.
  unfold Py.skip_spaces.
  assert (L : forall t, Py.lskip (Py.upper t) = Py.upper (Py.lskip t)).
  { induction t as [|c t IH]; cbn [Py.upper Py.lskip]; [reflexivity|].
    rewrite space_upper. destruct (Py.Py_ISSPACE c); [exact IH|reflexivity]. }
  assert (R : forall t, Py.rskip (Py.upper t) = Py.upper (Py.rskip t)).
  { induction t as [|c t IH]; cbn [Py.upper Py.rskip]; [reflexivity|].
    rewrite IH, space_upper.
    destruct (Py.rskip t); cbn [Py.upper]; [|reflexivity].
    now destruct (Py.Py_ISSPACE c). }
  now rewrite L, R.
Qed.

Lemma lower_upper (s : string) : Py.lower (Py.upper s) = Py.lower s.
Proof.
  induction s as [|c s IH]; cbn [Py.upper Py.lower]; [reflexivity|].
  destruct (upper_char_facts c) as (_ & _ & _ & _ & _ & _ & -> & _).
  now rewrite IH.
Qed.

Lemma sign_upper (s : string) :
  Py.sign (Py.upper s) = (fst (Py.sign s), Py.upper (snd (Py.sign s))).
Proof.
  destruct s as [|c s]; cbn [Py.upper Py.sign]; [reflexivity|].
  destruct (upper_char_facts c) as (_ & _ & -> & -> & _).
  destruct (Ascii.eqb c "-"); [reflexivity|].
  destruct (Ascii.eqb c "+"); reflexivity.
Qed.

Lemma digit_upper (c : ascii) : Py.isdigit c = true -> Py.upper_char c = c.
Proof. intros H. now destruct (digit_facts c H) as (_ & _ & _ & _ & -> & _). Qed.

Lemma digitpart_upper (s : string) (seen : bool) :
  Py.digitpart (Py.upper s) seen
  = (fst (Py.digitpart s seen), Py.upper (snd (Py.digitpart s seen))).
Proof.
  revert seen. induction s as [|c s IH]; intros seen; [reflexivity|].
  cbn [Py.upper Py.digitpart].
  destruct (upper_char_facts c) as (_ & -> & _ & _ & -> & _).
  destruct (Py.isdigit c) eqn:Dc.
  - rewrite (digit_upper c Dc), (IH true).
    now destruct (Py.digitpart s true).
  - destruct (Ascii.eqb c "_" && seen); [|reflexivity].
    destruct s as [|d t]; [reflexivity|].
    change (Py.upper (String d t)) with (String (Py.upper_char d) (Py.upper t))
      at 1.
    cbv iota.
    destruct (upper_char_facts d) as (_ & -> & _).
    destruct (Py.isdigit d); [|reflexivity].
    apply (IH false).
Qed.

Lemma upper_empty (s : string) : Py.upper s = "" -> s = "".
Proof. now destruct s. Qed.

Lemma exponent_upper (s : string) : Py.exponent (Py.upper s) = Py.exponent s.
Proof.
  destruct s as [|c s]; cbn [Py.upper Py.exponent]; [reflexivity|].
  destruct (upper_char_facts c) as (_ & _ & _ & _ & _ & _ & -> & _).
  destruct (Ascii.eqb (Py.lower_char c) "e"); [|reflexivity].
  rewrite sign_upper. destruct (Py.sign s) as [neg body]. cbn [fst snd].
  rewrite digitpart_upper.
  destruct (Py.digitpart body false) as [[|d ds] [|r rest]]; reflexivity.
Qed.

Lemma float_of_str_upper (s : string) :
  Py.float_of_str (Py.upper s) = Py.float_of_str s.
Proof.
  unfold Py.float_of_str. rewrite skip_upper, sign_upper.
  destruct (Py.sign (Py.skip_spaces s)) as [neg body]. cbn [fst snd].
  rewrite lower_upper.
  destruct (_ || _); [reflexivity|].
  destruct (String.eqb _ _); [reflexivity|].
  rewrite digitpart_upper.
  destruct (Py.digitpart body false) as [ipart r1]. cbn [fst snd].
  assert (F : (match Py.upper r1 with
               | String c r =>
                   if Ascii.eqb c "." then Py.digitpart r false
                   else ([], Py.upper r1)
               | EmptyString => ([], Py.upper r1)
               end)
              = (let p := match r1 with
                          | String c r =>
                              if Ascii.eqb c "." then Py.digitpart r false
                              else ([], r1)
                          | EmptyString => ([], r1)
                          end in (fst p, Py.upper (snd p)))).
  { destruct r1 as [|c r]; [reflexivity|]. cbn [Py.upper].
    destruct (upper_char_facts c) as (_ & _ & _ & _ & _ & -> & _).
    destruct (Ascii.eqb c "."); [apply digitpart_upper|reflexivity]. }
  rewrite F. clear F.
  destruct (match r1 with
            | String c r => _
            | EmptyString => _
            end) as [fpart r2].
  cbv zeta. cbn [fst snd]. now rewrite exponent_upper.
Qed.

Lemma int_upper (s : string) : Py.int (Py.upper s) = Py.int s.
Proof.
  unfold Py.int. rewrite skip_upper, sign_upper.
  destruct (Py.sign (Py.skip_spaces s)) as [neg body]. cbn [fst snd].
  rewrite digitpart_upper.
  destruct (Py.digitpart body false) as [[|d ds] [|r rest]]; reflexivity.
Qed.

Lemma contains_upper (s : string) :
  Py.contains "." (Py.upper s) = Py.contains "." s.
Proof.
  induction s as [|c s IH]; cbn [Py.upper Py.contains]; [reflexivity|].
  rewrite IH, (Ascii.eqb_sym "." (Py.upper_char c)), (Ascii.eqb_sym "." c).
  now destruct (upper_char_facts c) as (_ & _ & _ & _ & _ & -> & _).
Qed.

Lemma split_upper (s : string) :
  Py.split "." (Py.upper s) = map Py.upper (Py.split "." s).
Proof.
  induction s as [|c s IH]; cbn [Py.upper Py.split]; [reflexivity|].
  rewrite IH.
  destruct (upper_char_facts c) as (_ & _ & _ & _ & _ & -> & _).
  destruct (Ascii.eqb c "."); [reflexivity|].
  destruct (Py.split "." s); reflexivity.
Qed.

Lemma substring_upper (s : string) (n m : nat) :
  String.substring n m (Py.upper s) = Py.upper (String.substring n m s).
Proof.
  revert n m. induction s as [|c s IH]; intros n m.
  - now destruct n, m.
  - destruct n as [|n]; cbn [Py.upper String.substring].
    + destruct m as [|m]; [reflexivity|]. cbn [Py.upper]. now rewrite IH.
    + apply IH.
Qed.

Lemma slice_upper (s : string) (i j : nat) :
  Py.slice (Py.upper s) i j = Py.upper (Py.slice s i j).
Proof. apply substring_upper. Qed.

(** The same value, or an exception of the same type. *)
Definition same_outcome {A : Type} (r1 r2 : result A) : Prop :=
  match r1, r2 with
  | Ok a, Ok b => a = b
  | Raise (ValueError _), Raise (ValueError _)
  | Raise (IndexError _), Raise (IndexError _)
  | Raise (OverflowError _), Raise (OverflowError _) => True
  | _, _ => False
  end.

Lemma same_outcome_refl {A : Type} (r : result A) : same_outcome r r.
Proof. now destruct r as [a|[]]. Qed.

End Case.

Section CaseOfCodes.

Variable Time_isot_jd : string -> float.

Local Abbreviation mpcepoch2jd := (Common.mpcepoch2jd Time_isot_jd).
Local Abbreviation decode_packed := (Common.decode_packed Time_isot_jd).

Open Scope string_scope.

Lemma decode_packed_upper (s : string) :
  decode_packed (Py.upper s) = decode_packed s.
Proof.
  unfold Common.decode_packed.
  rewrite Case.contains_upper, Case.split_upper.
  assert (U : (if Py.contains "." s
               then match map Py.upper (Py.split "." s) with
                    | [ip; fp] => Ok (ip, fp)
                    | _ => Raise (ValueError
                                    "too many values to unpack (expected 2)")
                    end
               else Ok (Py.upper s, "0"))
              = bind (if Py.contains "." s
                      then match Py.split "." s with
                           | [ip; fp] => Ok (ip, fp)
                           | _ => Raise (ValueError
                                    "too many values to unpack (expected 2)")
                           end
                      else Ok (s, "0"))
                  (fun p => Ok (Py.upper (fst p), Py.upper (snd p)))).
  { destruct (Py.contains "." s); [|reflexivity].
    destruct (Py.split "." s) as [|ip [|fp [|x l]]]; reflexivity. }
  rewrite U. clear U.
  destruct (if Py.contains "." s then _ else _) as [[ip fp]|e];
    cbn [bind fst snd]; [|reflexivity].
  unfold Py.index.
  assert (G : String.get 0 (Py.upper ip)
              = option_map Py.upper_char (String.get 0 ip))
    by now destruct ip.
  rewrite G. destruct (String.get 0 ip) as [c0|]; cbn [option_map bind];
    [|reflexivity].
  destruct (Case.upper_char_facts c0) as (_ & _ & _ & _ & _ & _ & _ & ->).
  rewrite !Case.slice_upper, Case.int_upper.
  destruct (Base36.upper_upper (Py.slice ip 3 5)) as [B _].
  unfold Common.base36_to_int. rewrite B.
  change ("0." ++ Py.upper fp) with (Py.upper ("0." ++ fp)).
  now rewrite Case.float_of_str_upper.
Qed.

Lemma mpcepoch2jd_upper (code : string) :
  mpcepoch2jd (Py.upper code) = mpcepoch2jd code.
Proof.
  unfold Common.mpcepoch2jd.
  now rewrite Case.strip_upper, Case.float_of_str_upper, decode_packed_upper.
Qed.

(** X18: the decoder does not look at the case of the letters of a code of
    ASCII characters: the code and the code in upper case, and so the code in
    lower case, are decoded to the same Julian Date or refused with an
    exception of the same type. *)
Theorem decode_ignores_case (code : string) :
  Py.isascii code = true ->
  Case.same_outcome (mpcepoch2jd (Py.upper code)) (mpcepoch2jd code)
  /\ Case.same_outcome (mpcepoch2jd (Py.lower code)) (mpcepoch2jd code).
Proof.
  intros _. split.
  - rewrite mpcepoch2jd_upper. apply Case.same_outcome_refl.
  - rewrite <- (mpcepoch2jd_upper (Py.lower code)),
      <- (mpcepoch2jd_upper code).
    destruct (Base36.upper_upper code) as [_ ->].
    apply Case.same_outcome_refl.
Qed.

End CaseOfCodes.

(** The code k141r.5 in its two cases. *)
Lemma decode_ignores_case_witness :
  Case.same_outcome (Common.mpcepoch2jd (fun _ => 0%float) "K141R.5")
    (Common.mpcepoch2jd (fun _ => 0%float) "k141r.5")
  /\ Case.same_outcome (Common.mpcepoch2jd (fun _ => 0%float) "k141r.5")
       (Common.mpcepoch2jd (fun _ => 0%float) "k141r.5").
Proof. exact (decode_ignores_case (fun _ => 0%float) "k141r.5" eq_refl). Defined.

(** ** Orbits that are not closed *)

Module Unbound.

Import Script Classifier Rounding.
Open Scope Z_scope.

(** Zero, or a number or infinity with the given sign. *)
Definition signed (s : bool) (x : spec_float) : Prop :=
  match x with
  | S754_zero s' | S754_finite s' _ _ | S754_infinity s' => s' = s
  | S754_nan => False
  end.

(** Zero of either sign, a negative number or minus infinity. *)
Definition nonpositive (x : spec_float) : bool :=
  match x with
  | S754_zero _ => true
  | S754_finite s _ _ | S754_infinity s => s
  | S754_nan => false
  end.

Lemma binary_round_aux_signed (s : bool) (m e : Z) (l : location) :
  0 <= m -> signed s (binary_round_aux prec emax s m e l).
Proof.
  intros Hm. unfold binary_round_aux.
  destruct (shr_fexp_spec m e l Hm) as [H1 _].
  destruct (shr_fexp prec emax m e l) as [mrs' e']. cbn [fst snd] in *.
  assert (P1 : 0 <= shr_m mrs')
    by (rewrite H1; apply Z.div_pos; [assumption|];
        apply Z.pow_pos_nonneg; lia).
  pose proof (round_nearest_even_ge (shr_m mrs') (loc_of_shr_record mrs')) as R.
  set (m1 := round_nearest_even (shr_m mrs') (loc_of_shr_record mrs')) in *.
  destruct (shr_fexp_spec m1 e' loc_Exact ltac:(lia)) as [H2 _].
  destruct (shr_fexp prec emax m1 e' loc_Exact) as [mrs'' e''].
  cbn [fst snd] in *.
  assert (P2 : 0 <= shr_m mrs'')
    by (rewrite H2; apply Z.div_pos; [lia|apply Z.pow_pos_nonneg; lia]).
  destruct (shr_m mrs''); [reflexivity| |lia].
  now destruct (e'' <=? emax - prec).
Qed.

Lemma binary_round_signed (s : bool) (m : positive) (e : Z) :
  signed s (binary_round prec emax s m e).
Proof.
  unfold binary_round.
  destruct (shl_align m e (fexp prec emax (Zpos (digits2_pos m) + e)))
    as [mz ez].
  now apply binary_round_aux_signed.
Qed.

Lemma signed_nonpositive (x : spec_float) :
  signed true x -> nonpositive x = true.
Proof. destruct x as [s|s| |s m e]; cbn; congruence || contradiction. Qed.

(** [1 - e] for [e >= 1]. *)
Lemma one_minus (e : spec_float) :
  valid_binary e = true -> SFleb SFone64 e = true ->
  nonpositive (SF64sub SFone64 e) = true.
Proof.
  intros V L. destruct e as [s|s| |s m x]; try discriminate.
  - destruct s; [discriminate|reflexivity].
  - destruct s; [discriminate|].
    destruct (valid_finite false m x V) as [C _].
    pose proof (digits2_bounds m) as [D1 D2].
    unfold SFleb, SFone64 in L. cbn [SFcompare] in L.
    rewrite Pos.compare_cont_spec in L. cbn [Pos.switch_Eq] in L.
    rewrite Pos2Z.inj_compare in L.
    unfold SF64sub, SFone64. cbn [SFsub cond_Zopp].
    assert (A : Zpos (fst (shl_align 4503599627370496 (-52) (Z.min (-52) x)))
                - Zpos (fst (shl_align m x (Z.min (-52) x))) <= 0).
    { rewrite !shl_align_fst by lia.
      destruct (Z.compare_spec (-52) x) as [E|E|E].
      - subst x. rewrite Z.min_id, Z.sub_diag, Z.pow_0_r.
        destruct (Z.compare_spec (Zpos 4503599627370496) (Zpos m));
          try discriminate; lia.
      - rewrite Z.min_l, Z.sub_diag, Z.pow_0_r by lia.
        assert (Zpos (digits2_pos m) = 53) by lia.
        replace (Zpos (digits2_pos m) - 1) with 52 in D1 by lia.
        assert (2 <= 2 ^ (x - -52))
          by (change 2 with (2 ^ 1) at 1; apply Z.pow_le_mono_r; lia).
        change (2 ^ 52) with 4503599627370496 in D1. nia.
      - discriminate. }
    destruct (Zpos (fst (shl_align 4503599627370496 (-52) (Z.min (-52) x)))
              - Zpos (fst (shl_align m x (Z.min (-52) x)))) as [|p|p];
      [reflexivity|lia|].
    cbn [binary_normalize]. apply signed_nonpositive, binary_round_signed.
Qed.

(** A positive number times a number that is not positive. *)
Lemma positive_times (a t : spec_float) :
  SFltb (S754_zero false) a = true ->
  match a with S754_finite _ _ _ => True | _ => False end ->
  nonpositive t = true ->
  nonpositive (SF64mul a t) = true.
Proof.
  intros P F N. destruct a as [| | |sa ma ea]; try contradiction.
  destruct sa; [discriminate|].
  destruct t as [st|st| |st mt et]; try discriminate; cbn in N.
  - reflexivity.
  - now subst st.
  - subst st. unfold SF64mul. cbn [SFmul xorb].
    apply signed_nonpositive, binary_round_aux_signed. lia.
Qed.

Lemma nonpositive_below (q : spec_float) (m : positive) (e : Z) :
  nonpositive q = true -> SFltb q (S754_finite false m e) = true.
Proof.
  destruct q as [s|s| |s mq eq]; try discriminate; cbn [nonpositive];
    try (intros ->); reflexivity.
Qed.

Open Scope float_scope.

(** The perihelion distance of an orbit with [e >= 1] and a positive finite
    semi-major axis is below every positive bound. *)
Lemma unbound_is_nea (b : body) :
  (1 <=? b_e b) = true -> (0 <? b_a b) = true ->
  Circular.finite (b_a b) = true ->
  in_class NEA b = true.
Proof.
  intros He Ha Fa. cbn [in_class]. unfold perihelion.
  rewrite leb_spec in He. rewrite ltb_spec in Ha.
  rewrite ltb_spec, mul_spec, sub_spec.
  change (Prim2SF 1) with SFone64 in *.
  change (Prim2SF 0) with (S754_zero false) in Ha.
  assert (Prim2SF 1.3 = S754_finite false 5854679515581645 (-52)) as ->
    by reflexivity.
  apply nonpositive_below, positive_times; [assumption| |].
  - unfold Circular.finite in Fa.
    destruct (Prim2SF (b_a b)); try discriminate; exact I.
  - apply one_minus; [apply Prim2SF_valid|assumption].
Qed.

End Unbound.

Section UnboundOrbits.

Import Script.

Open Scope float_scope.

(** X19: a body with eccentricity 1 or more (plus infinity included) and a
    positive finite semi-major axis is an NEA whatever the semi-major axis
    is: its perihelion distance a (1 - e) is zero or negative, so its entry
    in [mask_nea] is [True] and its colour is red. *)
Theorem unbound_orbit_is_nea (bodies : list body) (k : nat) (b : body) :
  nth_error bodies k = Some b ->
  (1 <=? b_e b) = true -> (0 <? b_a b) = true ->
  Circular.finite (b_a b) = true ->
  nth_error (mask_nea (arrays bodies)) k = Some true
  /\ nth_error (colors (arrays bodies)) k = Some "red"%string.
Proof.
  intros Hk He Ha Fa.
  destruct (Classifier.masks_elementwise bodies) as (-> & _).
  rewrite Classifier.colors_elementwise, !nth_error_map, Hk.
  cbn [option_map].
  pose proof (Unbound.unbound_is_nea b He Ha Fa) as N.
  split; [now rewrite N|]. f_equal.
  now apply (Classifier.paint_table b NEA).
Qed.

End UnboundOrbits.

(** A semi-major axis of 40 au with eccentricity 1.2. *)
Lemma unbound_orbit_is_nea_witness :
  let bodies := [Classifier.body_ae 40 1.2] in
  nth_error (Script.mask_nea (Script.arrays bodies)) 0 = Some true
  /\ nth_error (Script.colors (Script.arrays bodies)) 0 = Some "red"%string.
Proof.
  exact (unbound_orbit_is_nea [Classifier.body_ae 40 1.2] 0 _
           eq_refl eq_refl eq_refl eq_refl).
Defined.
